(** * Digital top-up backend: transaction engine, commission ledger,
      provider classification and login

    A shallow embedding of the handlers in
    [server/src/handlers/{transactions,referrals,digiflazz,auth}.ts] and of
    the tables of [server/src/db/schema.ts], followed by the properties that
    the specification states about them.

    Conventions of the embedding:
    - a JavaScript [number] is an exact rational ([Q]).  The handlers
      compare numbers, multiply a stored amount by 0.05 and round the
      product; a stored amount is a decimal with two fraction digits below
      10^8, its twentieth is either a half-integer, then the amount is an
      integer and the product is computed exactly or above, or at least
      0.0005 away from one, so [Math.round] gives the same integer on the
      double and on the rational;
    - a [numeric(10,2)] column holds an integer count of hundredths;
    - a table is the list of its rows in insertion order, and a query
      without GROUP BY reads it in that order; the groups of a GROUP BY
      without ORDER BY come back in an order of the store's choosing,
      which a handler whose answer shows that order takes as a
      [Sql.RowOrder];
    - sums and products of numbers are exact; where the doubles of the
      code can round otherwise (the sum of an earnings report, the
      commission of the standalone settlement at a half cent) the
      definition says so, and the statements below are ones that hold
      of both;
    - asynchronous store calls are run in sequence in a state-and-exception
      monad over the store; a store call may throw, as decided by a fault
      plan handed to the handler. *)

From Stdlib Require Import ZArith QArith Qround List Ascii String Bool Lia Lqa.
From Stdlib Require Import Permutation Sorted.
Import ListNotations.

Local Open Scope Z_scope.

(* ================================================================== *)
(** ** JavaScript values *)

Module Js.

Definition number := Q.

(** [x < y] and [x > y] on numbers. *)
Definition ltb (x y : number) : bool := negb (Qle_bool y x).
Definition gtb (x y : number) : bool := negb (Qle_bool x y).

(** Truthiness: a number is falsy when it is zero, a string when it is
    empty, and [undefined]/[null] always. *)
Definition truthy_number (x : number) : bool := negb (Qeq_bool x 0%Q).
Definition truthy_string (s : string) : bool := negb (s =? "")%string.

Definition truthy_int (n : Z) : bool := negb (n =? 0)%Z.

(** [a || b] with a possibly missing number on the left. *)
Definition number_or (o : option number) (d : number) : number :=
  match o with
  | Some x => if truthy_number x then x else d
  | None => d
  end.

(** [s || null] on an optional string. *)
Definition string_or_null (o : option string) : option string :=
  match o with
  | Some s => if truthy_string s then Some s else None
  | None => None
  end.

(** [Math.round]: the nearest integer, halves towards plus infinity. *)
Definition Math_round (x : number) : Z := Qfloor (x + (1 # 2))%Q.

End Js.

(* ================================================================== *)
(** ** PostgreSQL column values *)

Module Pg.

(** A [numeric(10,2)] value, counted in hundredths. *)
Definition numeric := Z.

(** Ten digits of precision: the magnitude stays below 10^10 hundredths. *)
Definition numeric_limit : Z := 10 ^ 10.

Definition numeric_ok (c : numeric) : bool := Z.abs c <? numeric_limit.

(** [parseFloat] of the text the driver returns for a numeric column. *)
Definition parseFloat (c : numeric) : Js.number := (inject_Z c / 100)%Q.

(** Rounding of a decimal literal to scale 2, halves away from zero. *)
Definition round_scale2 (x : Js.number) : Z :=
  if Qle_bool 0%Q x then Qfloor (x * 100 + (1 # 2))%Q
  else - Qfloor (- x * 100 + (1 # 2))%Q.

(** Storing [x.toString()] into a [numeric(10,2)] column: the value is
    rounded to the scale and rejected when it overflows the precision. *)
Definition to_numeric (x : Js.number) : option numeric :=
  let c := round_scale2 x in
  if numeric_ok c then Some c else None.

Definition timestamp := Z.

End Pg.

(* ================================================================== *)
(** ** Schema: enums, rows and handler inputs *)

Inductive ProductCategory :=
| mobile_credit | data_package | pln_token | game_voucher | other.

Inductive TransactionStatus :=
| pending | processing | success | failed | cancelled.

Inductive DenominationType := fixed | range.

Definition status_eqb (a b : TransactionStatus) : bool :=
  match a, b with
  | pending, pending | processing, processing | success, success
  | failed, failed | cancelled, cancelled => true
  | _, _ => false
  end.

Definition is_range (d : DenominationType) : bool :=
  match d with range => true | fixed => false end.

(** A [jsonb] payload, kept as its serialised text. *)
Definition Json := string.

Record UserRow := {
  u_id : Z;
  u_email : string;
  u_password_hash : string;
  u_full_name : string;
  u_phone_number : option string;
  u_referral_code : string;
  u_referred_by_id : option Z;
  u_created_at : Pg.timestamp;
  u_updated_at : Pg.timestamp
}.

Record ProductRow := {
  p_id : Z;
  p_sku : string;
  p_name : string;
  p_description : option string;
  p_category : ProductCategory;
  p_price : Pg.numeric;
  p_base_price : Pg.numeric;
  p_provider : string;
  p_is_active : bool;
  p_min_amount : option Pg.numeric;
  p_max_amount : option Pg.numeric;
  p_denomination_type : DenominationType;
  p_image_url : option string;
  p_created_at : Pg.timestamp;
  p_updated_at : Pg.timestamp
}.

Record TransactionRow := {
  t_id : Z;
  t_user_id : Z;
  t_product_id : Z;
  t_transaction_id : string;
  t_external_transaction_id : option string;
  t_amount : Pg.numeric;
  t_price : Pg.numeric;
  t_status : TransactionStatus;
  t_customer_phone : option string;
  t_customer_id : option string;
  t_customer_name : option string;
  t_notes : option string;
  t_digiflazz_response : option Json;
  t_created_at : Pg.timestamp;
  t_updated_at : Pg.timestamp
}.

Record ReferralRow := {
  r_id : Z;
  r_referrer_id : Z;
  r_referred_id : Z;
  r_commission_amount : Pg.numeric;
  r_transaction_id : Z;
  r_is_paid : bool;
  r_created_at : Pg.timestamp
}.

(** The API shape of a transaction: numeric columns as numbers. *)
Record Transaction := {
  id : Z;
  user_id : Z;
  product_id : Z;
  transaction_id : string;
  external_transaction_id : option string;
  amount : Js.number;
  price : Js.number;
  status : TransactionStatus;
  customer_phone : option string;
  customer_id : option string;
  customer_name : option string;
  notes : option string;
  digiflazz_response : option Json;
  created_at : Pg.timestamp;
  updated_at : Pg.timestamp
}.

Record CreateTransactionInput := {
  cti_user_id : Z;
  cti_product_id : Z;
  cti_amount : option Js.number;
  cti_customer_phone : option string;
  cti_customer_id : option string;
  cti_customer_name : option string
}.

Record UpdateTransactionStatusInput := {
  uts_transaction_id : string;
  uts_status : TransactionStatus;
  uts_external_transaction_id : option string;
  uts_digiflazz_response : option Json
}.

Record LoginInput := {
  li_email : string;
  li_password : string
}.

(** The API shape of a referral record. *)
Record Referral := {
  ref_id : Z;
  ref_referrer_id : Z;
  ref_referred_id : Z;
  ref_commission_amount : Js.number;
  ref_transaction_id : Z;
  ref_is_paid : bool;
  ref_created_at : Pg.timestamp
}.

(* ================================================================== *)
(** ** The store and the monad the handlers run in *)

(** What a handler can throw.  Each constructor stands for one
    [new Error(...)] of the source or one error raised by the store. *)
Inductive Error :=
| UserNotFound                      (* 'User not found' *)
| ProductNotFound                   (* 'Product not found' *)
| ProductNotActive                  (* 'Product is not active' *)
| AmountAtLeast (min : Pg.numeric)  (* `Amount must be at least ${min}` *)
| AmountNotExceed (max : Pg.numeric)(* `Amount must not exceed ${max}` *)
| InvalidEmailOrPassword            (* 'Invalid email or password' *)
| NumericFieldOverflow              (* numeric(10,2) out of precision *)
| UniqueViolation                   (* a unique column already has the value *)
| StoreUnavailable.                 (* the store call itself failed *)

Inductive Result (A : Type) :=
| Ok (a : A)
| Throw (e : Error).
Arguments Ok {A} a.
Arguments Throw {A} e.

Record Db := {
  users : list UserRow;
  products : list ProductRow;
  transactions : list TransactionRow;
  referrals : list ReferralRow;
  transactions_id_seq : Z;
  referrals_id_seq : Z
}.

(** The store calls the handlers make, and a fault plan saying which of
    them throw. *)
Inductive DbCall :=
| SelectUsers | SelectProducts | SelectTransactionWithUser
| SelectReferredUsers
| InsertTransaction | UpdateTransactions | InsertReferral.

Definition Faults := DbCall -> bool.

Definition healthy : Faults := fun _ => false.

Definition M (A : Type) := Db -> Result A * Db.

Definition ret {A} (a : A) : M A := fun db => (Ok a, db).

Definition throw {A} (e : Error) : M A := fun db => (Throw e, db).

Definition bind {A B} (m : M A) (k : A -> M B) : M B :=
  fun db =>
    match m db with
    | (Ok a, db') => k a db'
    | (Throw e, db') => (Throw e, db')
    end.

(** [try { m } catch (error) { h error }]: writes made before the throw
    stay in the store, there is no enclosing store transaction. *)
Definition try_catch {A} (m : M A) (h : Error -> M A) : M A :=
  fun db =>
    match m db with
    | (Ok a, db') => (Ok a, db')
    | (Throw e, db') => h e db'
    end.

Declare Scope db_scope.
Delimit Scope db_scope with db.
Notation "x <- m ;; k" := (bind m (fun x => k))
  (at level 61, m at next level, right associativity) : db_scope.
Notation "m ;;; k" := (bind m (fun _ => k))
  (at level 61, right associativity) : db_scope.
Local Open Scope db_scope.

(** A store call: throws when the fault plan says so, otherwise runs. *)
Definition call {A} (f : Faults) (c : DbCall) (m : M A) : M A :=
  fun db => if f c then (Throw StoreUnavailable, db) else m db.

Definition get {A} (q : Db -> A) : M A := fun db => (Ok (q db), db).

Definition when (b : bool) (m : M unit) : M unit :=
  if b then m else ret tt.

Definition with_transactions (db : Db) (rows : list TransactionRow) (seq : Z) : Db :=
  {| users := users db; products := products db;
     transactions := rows; referrals := referrals db;
     transactions_id_seq := seq;
     referrals_id_seq := referrals_id_seq db |}.

Definition with_referrals (db : Db) (rows : list ReferralRow) (seq : Z) : Db :=
  {| users := users db; products := products db;
     transactions := transactions db; referrals := rows;
     transactions_id_seq := transactions_id_seq db;
     referrals_id_seq := seq |}.

(** [db.select().from(usersTable).where(eq(usersTable.id, id)).limit(1)] *)
Definition select_user_by_id (f : Faults) (uid : Z) : M (list UserRow) :=
  call f SelectUsers
    (get (fun db => firstn 1 (filter (fun u => u_id u =? uid) (users db)))).

(** [db.select().from(usersTable).where(eq(usersTable.email, email))] *)
Definition select_users_by_email (f : Faults) (email : string)
  : M (list UserRow) :=
  call f SelectUsers
    (get (fun db => filter (fun u => (u_email u =? email)%string) (users db))).

(** [db.select().from(productsTable).where(eq(productsTable.id, id)).limit(1)] *)
Definition select_product_by_id (f : Faults) (pid : Z) : M (list ProductRow) :=
  call f SelectProducts
    (get (fun db => firstn 1 (filter (fun p => p_id p =? pid) (products db)))).

(** The values handed to [db.insert(transactionsTable)]; the two numeric
    columns receive the text of a number. *)
Record NewTransaction := {
  nt_user_id : Z;
  nt_product_id : Z;
  nt_transaction_id : string;
  nt_amount : Js.number;
  nt_price : Js.number;
  nt_status : TransactionStatus;
  nt_customer_phone : option string;
  nt_customer_id : option string;
  nt_customer_name : option string
}.

(** [db.insert(transactionsTable).values(v).returning()], first row.
    The id comes from the serial sequence, both timestamps default to now,
    the remaining columns to null; [transaction_id] is unique. *)
Definition insert_transaction (f : Faults) (now : Pg.timestamp)
    (v : NewTransaction) : M TransactionRow :=
  call f InsertTransaction (fun db =>
    match Pg.to_numeric (nt_amount v), Pg.to_numeric (nt_price v) with
    | Some a, Some p =>
        if existsb (fun t => (t_transaction_id t =? nt_transaction_id v)%string)
             (transactions db)
        then
          (* the sequence value drawn for the rejected row is not given back *)
          (Throw UniqueViolation,
           with_transactions db (transactions db) (transactions_id_seq db + 1))
        else
          let row := {|
            t_id := transactions_id_seq db + 1;
            t_user_id := nt_user_id v;
            t_product_id := nt_product_id v;
            t_transaction_id := nt_transaction_id v;
            t_external_transaction_id := None;
            t_amount := a;
            t_price := p;
            t_status := nt_status v;
            t_customer_phone := nt_customer_phone v;
            t_customer_id := nt_customer_id v;
            t_customer_name := nt_customer_name v;
            t_notes := None;
            t_digiflazz_response := None;
            t_created_at := now;
            t_updated_at := now |} in
          (Ok row,
           with_transactions db (transactions db ++ [row])
             (transactions_id_seq db + 1))
    | _, _ => (Throw NumericFieldOverflow, db)
    end).

(** The [.set({...})] of a status update applied to one row. *)
Definition set_status (now : Pg.timestamp) (st : TransactionStatus)
    (ext : option string) (resp : option Json) (t : TransactionRow)
  : TransactionRow :=
  {| t_id := t_id t;
     t_user_id := t_user_id t;
     t_product_id := t_product_id t;
     t_transaction_id := t_transaction_id t;
     t_external_transaction_id := ext;
     t_amount := t_amount t;
     t_price := t_price t;
     t_status := st;
     t_customer_phone := t_customer_phone t;
     t_customer_id := t_customer_id t;
     t_customer_name := t_customer_name t;
     t_notes := t_notes t;
     t_digiflazz_response := resp;
     t_created_at := t_created_at t;
     t_updated_at := now |}.

Definition has_transaction_id (key : string) (t : TransactionRow) : bool :=
  (t_transaction_id t =? key)%string.

(** [db.update(transactionsTable).set(s)
       .where(eq(transactionsTable.transaction_id, key)).returning()] *)
Definition update_transactions (f : Faults) (key : string)
    (s : TransactionRow -> TransactionRow) : M (list TransactionRow) :=
  call f UpdateTransactions (fun db =>
    let rows :=
      map (fun t => if has_transaction_id key t then s t else t)
        (transactions db) in
    (Ok (map s (filter (has_transaction_id key) (transactions db))),
     with_transactions db rows (transactions_id_seq db))).

(** [db.insert(referralsTable).values({referrer_id, referred_id,
      commission_amount, transaction_id})]: [is_paid] defaults to false,
    [created_at] to now, the id comes from the serial sequence.  The table
    declares no unique column besides its primary key. *)
Definition insert_referral (f : Faults) (now : Pg.timestamp)
    (referrer referred : Z) (commission : Js.number) (txn : Z) : M ReferralRow :=
  call f InsertReferral (fun db =>
    match Pg.to_numeric commission with
    | Some c =>
        let row := {|
          r_id := referrals_id_seq db + 1;
          r_referrer_id := referrer;
          r_referred_id := referred;
          r_commission_amount := c;
          r_transaction_id := txn;
          r_is_paid := false;
          r_created_at := now |} in
        (Ok row,
         with_referrals db (referrals db ++ [row]) (referrals_id_seq db + 1))
    | None => (Throw NumericFieldOverflow, db)
    end).

(* ================================================================== *)
(** ** handlers/transactions.ts *)

Module Transactions.

(** Calculate referral commission (5% of transaction amount).  The
    product is exact here; it rounds as the product of doubles does on
    every amount the handlers pass in, which is a stored amount with two
    fraction digits (see the conventions at the head of the file), and
    need not on other doubles. *)
Definition calculateCommission (amount : Js.number) : Js.number :=
  inject_Z (Js.Math_round (amount * (5 # 100))%Q).

Definition convertDbTransaction (t : TransactionRow) : Transaction :=
  {| id := t_id t;
     user_id := t_user_id t;
     product_id := t_product_id t;
     transaction_id := t_transaction_id t;
     external_transaction_id := t_external_transaction_id t;
     amount := Pg.parseFloat (t_amount t);
     price := Pg.parseFloat (t_price t);
     status := t_status t;
     customer_phone := t_customer_phone t;
     customer_id := t_customer_id t;
     customer_name := t_customer_name t;
     notes := t_notes t;
     digiflazz_response := t_digiflazz_response t;
     created_at := t_created_at t;
     updated_at := t_updated_at t |}.

(** [transactionId] is the value [generateTransactionId()] returns at
    step 4, [now] the clock of the store.  A numeric column comes back as
    non-empty text, so [product[0].min_amount && ...] tests for non-null. *)
Definition createTransaction (f : Faults) (now : Pg.timestamp)
    (transactionId : string) (input : CreateTransactionInput)
  : M Transaction :=
  try_catch
    (userExists <- select_user_by_id f (cti_user_id input) ;;
     if (List.length userExists =? 0)%nat then throw UserNotFound else
     product <- select_product_by_id f (cti_product_id input) ;;
     match product with
     | [] => throw ProductNotFound
     | p :: _ =>
       if negb (p_is_active p) then throw ProductNotActive else
       let finalAmount :=
         Js.number_or (cti_amount input) (Pg.parseFloat (p_price p)) in
       let finalPrice := Pg.parseFloat (p_price p) in
       when (is_range (p_denomination_type p))
         (match p_min_amount p with
          | Some min_amount =>
              when (Js.ltb finalAmount (Pg.parseFloat min_amount))
                (throw (AmountAtLeast min_amount))
          | None => ret tt
          end ;;;
          match p_max_amount p with
          | Some max_amount =>
              when (Js.gtb finalAmount (Pg.parseFloat max_amount))
                (throw (AmountNotExceed max_amount))
          | None => ret tt
          end) ;;;
       result <- insert_transaction f now
         {| nt_user_id := cti_user_id input;
            nt_product_id := cti_product_id input;
            nt_transaction_id := transactionId;
            nt_amount := finalAmount;
            nt_price := finalPrice;
            nt_status := pending;
            nt_customer_phone := Js.string_or_null (cti_customer_phone input);
            nt_customer_id := Js.string_or_null (cti_customer_id input);
            nt_customer_name := Js.string_or_null (cti_customer_name input) |} ;;
       ret (convertDbTransaction result)
     end)
    (fun error => throw error).

(** Process referral commission for successful transactions.  Whatever
    the body throws is caught and dropped.  [user[0].referred_by_id] is
    truthy when it is neither null nor 0. *)
Definition processReferralCommission (f : Faults) (now : Pg.timestamp)
    (transactionId userId : Z) (amount : Js.number) : M unit :=
  try_catch
    (user <- select_user_by_id f userId ;;
     match user with
     | u :: _ =>
         match u_referred_by_id u with
         | Some referrer =>
             if Js.truthy_int referrer then
               let commissionAmount := calculateCommission amount in
               insert_referral f now referrer userId commissionAmount
                 transactionId ;;;
               ret tt
             else ret tt
         | None => ret tt
         end
     | [] => ret tt
     end)
    (fun _ => ret tt).

(** Update transaction status (used for webhook/callback).  A payload
    object is truthy whatever it holds, so [digiflazz_response || null]
    keeps it as it is. *)
Definition updateTransactionStatus (f : Faults) (now : Pg.timestamp)
    (input : UpdateTransactionStatusInput) : M (option Transaction) :=
  try_catch
    (result <- update_transactions f (uts_transaction_id input)
       (set_status now (uts_status input)
          (Js.string_or_null (uts_external_transaction_id input))
          (uts_digiflazz_response input)) ;;
     match result with
     | [] => ret None
     | transaction :: _ =>
         when (status_eqb (uts_status input) success)
           (processReferralCommission f now (t_id transaction)
              (t_user_id transaction)
              (Pg.parseFloat (t_amount transaction))) ;;;
         ret (Some (convertDbTransaction transaction))
     end)
    (fun error => throw error).

End Transactions.

(* ================================================================== *)
(** ** handlers/referrals.ts *)

(** Relational operators of the query builder, on tables as lists. *)
Module Sql.

Section Operators.
Context {L R K : Type}.

(** [l LEFT JOIN r ON on]: every left row, paired with each right row
    that matches, or once with nulls when none does. *)
Definition left_join (l : list L) (r : list R) (on : L -> R -> bool)
  : list (L * option R) :=
  flat_map
    (fun x =>
       match filter (on x) r with
       | [] => [(x, None)]
       | matches => map (fun y => (x, Some y)) matches
       end) l.

(** [l INNER JOIN r ON on] *)
Definition inner_join (l : list L) (r : list R) (on : L -> R -> bool)
  : list (L * R) :=
  flat_map (fun x => map (fun y => (x, y)) (filter (on x) r)) l.

Variable key : L -> K.
Variable key_eqb : K -> K -> bool.

Fixpoint add_to_group (x : L) (groups : list (K * list L))
  : list (K * list L) :=
  match groups with
  | [] => [(key x, [x])]
  | (k, rows) :: rest =>
      if key_eqb (key x) k then (k, rows ++ [x]) :: rest
      else (k, rows) :: add_to_group x rest
  end.

(** [GROUP BY key]: the groups, each with its rows in table order.  They
    are listed here in order of first appearance; the store returns them
    in an order of its own, which a handler whose result shows that order
    applies as a [RowOrder]. *)
Definition group_by (rows : list L) : list (K * list L) :=
  fold_left (fun groups x => add_to_group x groups) rows [].

End Operators.

(** [count(col)]: the rows where the column is not null. *)
Definition count {A B} (col : A -> option B) (rows : list A) : Z :=
  Z.of_nat
    (List.length
       (filter (fun x => match col x with Some _ => true | None => false end)
          rows)).

(** [SUM(col)] over a numeric column: null when no row has a value. *)
Definition sum {A} (col : A -> option Pg.numeric) (rows : list A)
  : option Pg.numeric :=
  fold_left
    (fun acc x =>
       match col x, acc with
       | Some v, Some a => Some (a + v)
       | Some v, None => Some v
       | None, _ => acc
       end) rows None.

Definition coalesce {A} (o : option A) (d : A) : A :=
  match o with Some v => v | None => d end.

(** The order in which the store hands back the result of a grouped
    statement that has no ORDER BY: some arrangement of the rows. *)
Definition RowOrder := forall A : Type, list A -> list A.

Definition table_order : RowOrder := fun _ rows => rows.
Definition backwards : RowOrder := fun _ rows => rev rows.

Definition rearranges (order : RowOrder) : Prop :=
  forall (A : Type) (rows : list A), Permutation (order A rows) rows.

End Sql.

Module Referrals.

Definition convertDbReferral (r : ReferralRow) : Referral :=
  {| ref_id := r_id r;
     ref_referrer_id := r_referrer_id r;
     ref_referred_id := r_referred_id r;
     ref_commission_amount := Pg.parseFloat (r_commission_amount r);
     ref_transaction_id := r_transaction_id r;
     ref_is_paid := r_is_paid r;
     ref_created_at := r_created_at r |}.

(** Process referral commission after successful transaction: the
    standalone procedure of the referral routes.  The product of the price
    and the rate is exact here.  The code multiplies doubles and stores
    the text of the product, so where the exact product falls on half a
    cent, which is at the prices that are an odd multiple of 0.10, the
    stored commission can be the cent below the one computed here. *)
Definition processReferralCommission (f : Faults) (now : Pg.timestamp)
    (transactionId : Z) : M (option Referral) :=
  try_catch
    (transactionResult <-
       call f SelectTransactionWithUser
         (get (fun db =>
            Sql.inner_join
              (filter (fun t => t_id t =? transactionId) (transactions db))
              (users db)
              (fun t u => t_user_id t =? u_id u))) ;;
     match transactionResult with
     | [] => ret None
     | (transaction, user) :: _ =>
         match u_referred_by_id user with
         | Some referrer =>
             if Js.truthy_int referrer then
               (* Calculate commission amount (5% of transaction price) *)
               let commissionRate := (5 # 100)%Q in
               let commissionAmount :=
                 (Pg.parseFloat (t_price transaction) * commissionRate)%Q in
               referral <- insert_referral f now referrer (u_id user)
                             commissionAmount transactionId ;;
               ret (Some (convertDbReferral referral))
             else ret None
         | None => ret None
         end
     end)
    (fun error => throw error).

Record ReferredUser := {
  id : Z;
  full_name : string;
  email : string;
  joined_date : Pg.timestamp;
  total_transactions : Z;
  total_spent : Js.number
}.

Record UserReferrals := {
  referred_users : list ReferredUser;
  total_referred : Z
}.

Definition is_referred_by (userId : Z) (u : UserRow) : bool :=
  match u_referred_by_id u with
  | Some r => r =? userId
  | None => false
  end.

(** The join condition
    [and(eq(transactions.user_id, users.id), eq(transactions.status, 'success'))]. *)
Definition successful_purchase_of (u : UserRow) (t : TransactionRow) : bool :=
  (t_user_id t =? u_id u) && status_eqb (t_status t) success.

Definition group_key (row : UserRow * option TransactionRow)
  : Z * string * string * Pg.timestamp :=
  let u := fst row in (u_id u, u_full_name u, u_email u, u_created_at u).

Definition group_key_eqb (a b : Z * string * string * Pg.timestamp) : bool :=
  let '(i, n, e, c) := a in
  let '(i', n', e', c') := b in
  (i =? i') && (n =? n')%string && (e =? e')%string && (c =? c').

(** Get users referred by a specific user.  The statement groups and
    does not order: [order] is the order in which the store returns the
    groups. *)
Definition getUserReferrals (f : Faults) (order : Sql.RowOrder) (userId : Z)
  : M UserReferrals :=
  try_catch
    (referredUsers <-
       call f SelectReferredUsers
         (get (fun db =>
            let joined :=
              Sql.left_join (users db) (transactions db)
                successful_purchase_of in
            let selected :=
              filter (fun row => is_referred_by userId (fst row)) joined in
            order _
              (map
                 (fun g =>
                    let '(i, n, e, c) := fst g in
                    (i, n, e, c,
                     Sql.count (fun row => option_map t_id (snd row)) (snd g),
                     Sql.coalesce
                       (Sql.sum (fun row => option_map t_price (snd row))
                          (snd g))
                       0))
                 (Sql.group_by group_key group_key_eqb selected)))) ;;
     let formattedUsers :=
       map
         (fun user =>
            let '(i, n, e, c, cnt, spent) := user in
            {| id := i; full_name := n; email := e; joined_date := c;
               total_transactions := cnt;
               total_spent := Pg.parseFloat spent |})
         referredUsers in
     ret {| referred_users := formattedUsers;
            total_referred := Z.of_nat (List.length formattedUsers) |})
    (fun error => throw error).

End Referrals.

(* ================================================================== *)
(** ** handlers/digiflazz.ts: classification of provider responses *)

Module Digiflazz.

(** The [data] object of a provider order response. *)
Record DigiflazzOrderResponse := {
  ref_id : string;
  customer_no : string;
  buyer_sku_code : string;
  message : string;
  status : string;
  rc : string;
  buyer_last_saldo : Js.number;
  price : Js.number;
  tele : string;
  wa : string;
  serial_number : option string
}.

Definition isDigiflazzSuccess (response : DigiflazzOrderResponse) : bool :=
  (status response =? "Sukses")%string && (rc response =? "00")%string.

Definition isDigiflazzPending (response : DigiflazzOrderResponse) : bool :=
  (status response =? "Pending")%string
  || (status response =? "Process")%string
  || (message response =? "PROCESS")%string.

Definition isDigiflazzFailed (response : DigiflazzOrderResponse) : bool :=
  (status response =? "Gagal")%string
  || (message response =? "GAGAL")%string
  || (negb (rc response =? "00")%string
      && negb (status response =? "Pending")%string).

End Digiflazz.

(* ================================================================== *)
(** ** handlers/auth.ts: login *)

Module Auth.

(** [s.split(sep)] for a one-character separator. *)
Fixpoint split (sep : Ascii.ascii) (s : string) : list string :=
  match s with
  | EmptyString => [EmptyString]
  | String c rest =>
      if Ascii.eqb c sep then EmptyString :: split sep rest
      else
        match split sep rest with
        | piece :: pieces => String c piece :: pieces
        | [] => [String c EmptyString]
        end
  end.

Record AuthUser := {
  id : Z;
  email : string;
  full_name : string;
  phone_number : option string;
  referral_code : string;
  referred_by_id : option Z;
  created_at : Pg.timestamp;
  updated_at : Pg.timestamp
}.

Record AuthResponse := {
  user : AuthUser;
  token : string
}.

Section Crypto.

(** [pbkdf2Sync(password, salt, 10000, 64, 'sha512').toString('hex')] *)
Variable pbkdf2_hex : string -> string -> string.

(** [generateToken(userId)] at a given clock value: header, payload
    with expiry and digest, joined by dots. *)
Variable generateToken : Pg.timestamp -> Z -> string.

(** With no second piece [hash] is [undefined], which is never
    [===] to the derived digest. *)
Definition verifyPassword (password hashedPassword : string) : bool :=
  match split ":"%char hashedPassword with
  | salt :: hash :: _ => (hash =? pbkdf2_hex password salt)%string
  | _ => false
  end.

(** Login user with email and password. *)
Definition login (f : Faults) (now : Pg.timestamp) (input : LoginInput)
  : M AuthResponse :=
  try_catch
    (users <- select_users_by_email f (li_email input) ;;
     match users with
     | [] => throw InvalidEmailOrPassword
     | u :: _ =>
         let isValidPassword :=
           verifyPassword (li_password input) (u_password_hash u) in
         if negb isValidPassword then throw InvalidEmailOrPassword else
         let token := generateToken now (u_id u) in
         ret {| user :=
                  {| id := u_id u;
                     email := u_email u;
                     full_name := u_full_name u;
                     phone_number := u_phone_number u;
                     referral_code := u_referral_code u;
                     referred_by_id := u_referred_by_id u;
                     created_at := u_created_at u;
                     updated_at := u_updated_at u |};
                token := token |}
     end)
    (fun error => throw error).

End Crypto.

End Auth.

(* ================================================================== *)
(** ** A small store, laid out like the one the test suites build *)

Module Fixture.

Definition user (i : Z) (mail : string) (hash : string)
    (referred_by : option Z) : UserRow :=
  {| u_id := i; u_email := mail; u_password_hash := hash;
     u_full_name := "Test User"%string; u_phone_number := None;
     u_referral_code := mail; u_referred_by_id := referred_by;
     u_created_at := 0; u_updated_at := 0 |}.

Definition product (i : Z) (sku : string) (price : Pg.numeric)
    (active : bool) (d : DenominationType)
    (min_amount max_amount : option Pg.numeric) : ProductRow :=
  {| p_id := i; p_sku := sku; p_name := sku; p_description := None;
     p_category := mobile_credit; p_price := price; p_base_price := price;
     p_provider := "Digiflazz"%string; p_is_active := active;
     p_min_amount := min_amount; p_max_amount := max_amount;
     p_denomination_type := d; p_image_url := None;
     p_created_at := 0; p_updated_at := 0 |}.

(** User 1 referred user 2; user 3 came on their own. *)
Definition referrer : UserRow :=
  user 1 "referrer@test.com" "00ff:00ff/secret" None.
Definition buyer : UserRow :=
  user 2 "user@test.com" "00ff:00ff/secret" (Some 1).
Definition loner : UserRow :=
  user 3 "loner@test.com" "00ff:00ff/secret" None.

(** A fixed product at 5500.00, a range product at 10000.00 that accepts
    5000.00 to 50000.00, and an inactive one. *)
Definition mobile_5k : ProductRow :=
  product 1 "MOBILE_001" 550000 true fixed None None.
Definition data_range : ProductRow :=
  product 2 "DATA_RANGE" 1000000 true range (Some 500000) (Some 5000000).
Definition inactive : ProductRow :=
  product 3 "INACTIVE_PROD" 100000 false fixed None None.

Definition empty_shop : Db :=
  {| users := [referrer; buyer; loner];
     products := [mobile_5k; data_range; inactive];
     transactions := []; referrals := [];
     transactions_id_seq := 0; referrals_id_seq := 0 |}.

Definition purchase (who what : Z) (amount : option Js.number)
  : CreateTransactionInput :=
  {| cti_user_id := who; cti_product_id := what; cti_amount := amount;
     cti_customer_phone := Some "081234567890"%string;
     cti_customer_id := None; cti_customer_name := None |}.

Definition callback (key : string) (st : TransactionStatus)
  : UpdateTransactionStatusInput :=
  {| uts_transaction_id := key; uts_status := st;
     uts_external_transaction_id := Some "EXT_123456"%string;
     uts_digiflazz_response := Some "{}"%string |}.

(** The shop after the referred buyer ordered the fixed product. *)
Definition shop_with_order : Db :=
  snd (Transactions.createTransaction healthy 10 "TXN_1"
         (purchase 2 1 None) empty_shop).

(** The shop after the referred buyer ordered 25000.00 of the range
    product, which is charged at 10000.00. *)
Definition shop_with_range_order : Db :=
  snd (Transactions.createTransaction healthy 10 "TXN_1"
         (purchase 2 2 (Some 25000%Q)) empty_shop).

(** The row the first order left in the transactions table. *)
Definition order_row : TransactionRow :=
  {| t_id := 1; t_user_id := 2; t_product_id := 1;
     t_transaction_id := "TXN_1"%string; t_external_transaction_id := None;
     t_amount := 550000; t_price := 550000; t_status := pending;
     t_customer_phone := Some "081234567890"%string;
     t_customer_id := None; t_customer_name := None; t_notes := None;
     t_digiflazz_response := None; t_created_at := 10; t_updated_at := 10 |}.

(** A stand-in for the key derivation and one for the token encoder. *)
Definition toy_pbkdf2 (password salt : string) : string :=
  (salt ++ "/" ++ password)%string.
Definition toy_token (now : Pg.timestamp) (userId : Z) : string :=
  "header.payload.digest"%string.

Definition settled_row (i : Z) (who : Z) (key : string) (price : Pg.numeric)
    (st : TransactionStatus) : TransactionRow :=
  {| t_id := i; t_user_id := who; t_product_id := 1;
     t_transaction_id := key; t_external_transaction_id := None;
     t_amount := price; t_price := price; t_status := st;
     t_customer_phone := None; t_customer_id := None;
     t_customer_name := None; t_notes := None;
     t_digiflazz_response := None; t_created_at := 10; t_updated_at := 10 |}.

(** The buyer has two successful purchases and a failed one; a second
    user referred by user 1 has none. *)
Definition newcomer : UserRow :=
  user 4 "newcomer@test.com" "00ff:00ff/secret" (Some 1).

Definition busy_shop : Db :=
  {| users := [referrer; buyer; loner; newcomer];
     products := [mobile_5k; data_range; inactive];
     transactions :=
       [settled_row 1 2 "TXN_001" 1000000 success;
        settled_row 2 2 "TXN_002" 1500000 success;
        settled_row 3 2 "TXN_003" 500000 failed];
     referrals := [];
     transactions_id_seq := 3; referrals_id_seq := 0 |}.

(** A provider answer that carries none of the known sentinels. *)
Definition odd_response : Digiflazz.DigiflazzOrderResponse :=
  {| Digiflazz.ref_id := "TEST"%string;
     Digiflazz.customer_no := "081234567890"%string;
     Digiflazz.buyer_sku_code := "TEST_SKU"%string;
     Digiflazz.message := "TIMEOUT"%string;
     Digiflazz.status := "Unknown"%string;
     Digiflazz.rc := "99"%string;
     Digiflazz.buyer_last_saldo := 1000000%Q;
     Digiflazz.price := 5000%Q;
     Digiflazz.tele := "628123456789"%string;
     Digiflazz.wa := "628123456789"%string;
     Digiflazz.serial_number := None |}.

(** A store whose ledger insert throws. *)
Definition ledger_down : Faults :=
  fun c => match c with InsertReferral => true | _ => false end.

End Fixture.

(* ================================================================== *)
(** ** Vocabulary of the statements *)

(** The ledger rows that belong to one transaction. *)
Definition referrals_of_transaction (txn : Z) (db : Db) : list ReferralRow :=
  filter (fun r => r_transaction_id r =? txn) (referrals db).

(** The transactions table after a status update has been applied. *)
Definition updated_rows (now : Pg.timestamp)
    (input : UpdateTransactionStatusInput) (rows : list TransactionRow)
  : list TransactionRow :=
  map
    (fun t =>
       if has_transaction_id (uts_transaction_id input) t
       then set_status now (uts_status input)
              (Js.string_or_null (uts_external_transaction_id input))
              (uts_digiflazz_response input) t
       else t)
    rows.

(** The referral row the engine inserts at clock [now] for transaction
    [txn] of buyer [buyer], referred by [referrer], with stored amount
    [amount_c]: five percent of the amount, rounded to a whole unit. *)
Definition commission_row (now : Pg.timestamp) (db : Db)
    (referrer buyer txn : Z) (amount_c : Pg.numeric) : ReferralRow :=
  {| r_id := referrals_id_seq db + 1;
     r_referrer_id := referrer;
     r_referred_id := buyer;
     r_commission_amount := (amount_c + 1000) / 2000 * 100;
     r_transaction_id := txn;
     r_is_paid := false;
     r_created_at := now |}.

(** The row a purchase leaves in the transactions table when it is
    accepted with stored amount [amount_c] for product [p]. *)
Definition created_row (now : Pg.timestamp) (db : Db) (transactionId : string)
    (input : CreateTransactionInput) (p : ProductRow) (amount_c : Pg.numeric)
  : TransactionRow :=
  {| t_id := transactions_id_seq db + 1;
     t_user_id := cti_user_id input;
     t_product_id := cti_product_id input;
     t_transaction_id := transactionId;
     t_external_transaction_id := None;
     t_amount := amount_c;
     t_price := p_price p;
     t_status := pending;
     t_customer_phone := Js.string_or_null (cti_customer_phone input);
     t_customer_id := Js.string_or_null (cti_customer_id input);
     t_customer_name := Js.string_or_null (cti_customer_name input);
     t_notes := None;
     t_digiflazz_response := None;
     t_created_at := now;
     t_updated_at := now |}.


(** The rows the left join of the referral listing yields for one user:
    one per successful purchase, or a single row of nulls. *)
Definition joined_rows (rows : list TransactionRow) (u : UserRow)
  : list (UserRow * option TransactionRow) :=
  match filter (Referrals.successful_purchase_of u) rows with
  | [] => [(u, None)]
  | matches => map (fun t => (u, Some t)) matches
  end.

Definition user_key (u : UserRow) : Z * string * string * Pg.timestamp :=
  (u_id u, u_full_name u, u_email u, u_created_at u).

(** The entry of the referral listing for referred user [u]: the count and
    the summed price of the purchases of [u] among the successful
    transactions of the store. *)
Definition referred_entry (db : Db) (u : UserRow) : Referrals.ReferredUser :=
  let successful :=
    filter (fun t => status_eqb (t_status t) success) (transactions db) in
  let purchases := filter (fun t => t_user_id t =? u_id u) successful in
  {| Referrals.id := u_id u;
     Referrals.full_name := u_full_name u;
     Referrals.email := u_email u;
     Referrals.joined_date := u_created_at u;
     Referrals.total_transactions := Z.of_nat (List.length purchases);
     Referrals.total_spent :=
       Pg.parseFloat (fold_right Z.add 0 (map t_price purchases)) |}.

(* ================================================================== *)
(** ** Ordering and paging of query results *)

Module Paging.

Section OrderBy.

Context {A : Type}.
Variable key : A -> Z.

(** Insertion into rows sorted by descending [key], before the first row
    that is not newer. *)
Fixpoint insert_desc (x : A) (rows : list A) : list A :=
  match rows with
  | [] => [x]
  | y :: rest =>
      if key x <? key y then y :: insert_desc x rest else x :: y :: rest
  end.

(** [ORDER BY key DESC]; rows with equal keys stay in table order. *)
Definition order_by_desc (rows : list A) : list A :=
  fold_right insert_desc [] rows.

End OrderBy.

(** The rows a statement with [.limit(limit).offset(offset)] selects.
    The query builder writes LIMIT only for a limit that is not negative,
    so a negative limit selects every row from the offset on. *)
Definition window {A} (limit offset : Z) (rows : list A) : list A :=
  let rest := skipn (Z.to_nat offset) rows in
  if limit <? 0 then rest else firstn (Z.to_nat limit) rest.

(** [.limit(limit).offset(offset)]: the query builder writes OFFSET for
    every offset other than zero, and the store rejects a statement whose
    OFFSET is negative. *)
Definition limit_offset {A} (limit offset : Z) (rows : list A) : M (list A) :=
  fun db =>
    if offset <? 0 then (Throw StoreUnavailable, db)
    else (Ok (window limit offset rows), db).

End Paging.

(** A store call of the handlers below: throws when it is down. *)
Definition call_when {A} (down : bool) (m : M A) : M A :=
  fun db => if down then (Throw StoreUnavailable, db) else m db.

(* ================================================================== *)
(** ** handlers/transactions.ts: the listing handlers *)

Record GetTransactionsInput := {
  gti_user_id : option Z;
  gti_status : option TransactionStatus;
  gti_page : Z;
  gti_limit : Z
}.

Record TransactionPage := {
  page_transactions : list Transaction;
  page_total : Z;
  page_number : Z;
  page_limit : Z
}.

Module TransactionQueries.

(** The store calls of the listing handlers. *)
Inductive Call := SelectPage | SelectCount | SelectById.

(** [conditions.length > 0 ? query.where(one or and(...all)) : query] *)
Definition where_ (conditions : list (TransactionRow -> bool))
    (rows : list TransactionRow) : list TransactionRow :=
  match conditions with
  | [] => rows
  | [c] => filter c rows
  | _ => filter (fun t => forallb (fun c => c t) conditions) rows
  end.

(** Get transactions with optional filtering and pagination. *)
Definition getTransactions (down : Call -> bool) (input : GetTransactionsInput)
  : M TransactionPage :=
  try_catch
    (let conditions :=
       (match gti_user_id input with
        | Some uid => [fun t => t_user_id t =? uid]
        | None => []
        end)
       ++ (match gti_status input with
           | Some st => [fun t => status_eqb (t_status t) st]
           | None => []
           end) in
     let offset := (gti_page input - 1) * gti_limit input in
     results <-
       call_when (down SelectPage)
         (fun db =>
            Paging.limit_offset (gti_limit input) offset
              (Paging.order_by_desc t_created_at
                 (where_ conditions (transactions db))) db) ;;
     totalResult <-
       call_when (down SelectCount)
         (get (fun db =>
            Z.of_nat (List.length (where_ conditions (transactions db))))) ;;
     let total := totalResult in
     ret {| page_transactions := map Transactions.convertDbTransaction results;
            page_total := total;
            page_number := gti_page input;
            page_limit := gti_limit input |})
    (fun error => throw error).

(** Get transaction by ID. *)
Definition getTransactionById (down : Call -> bool) (id : Z)
  : M (option Transaction) :=
  try_catch
    (result <-
       call_when (down SelectById)
         (get (fun db =>
            firstn 1 (filter (fun t => t_id t =? id) (transactions db)))) ;;
     match result with
     | [] => ret None
     | t :: _ => ret (Some (Transactions.convertDbTransaction t))
     end)
    (fun error => throw error).

(** Get user's transaction history. *)
Definition getUserTransactions (down : Call -> bool) (userId page limit : Z)
  : M TransactionPage :=
  try_catch
    (let offset := (page - 1) * limit in
     results <-
       call_when (down SelectPage)
         (fun db =>
            Paging.limit_offset limit offset
              (Paging.order_by_desc t_created_at
                 (filter (fun t => t_user_id t =? userId) (transactions db)))
              db) ;;
     totalResult <-
       call_when (down SelectCount)
         (get (fun db =>
            Z.of_nat
              (List.length
                 (filter (fun t => t_user_id t =? userId) (transactions db))))) ;;
     let total := totalResult in
     ret {| page_transactions := map Transactions.convertDbTransaction results;
            page_total := total;
            page_number := page;
            page_limit := limit |})
    (fun error => throw error).

End TransactionQueries.

(* ================================================================== *)
(** ** handlers/admin.ts: dashboard statistics and listings *)

Record AdminStats := {
  total_users : Z;
  total_transactions : Z;
  total_revenue : Js.number;
  pending_transactions : Z;
  successful_transactions : Z;
  failed_transactions : Z
}.

Record UserPage := {
  page_users : list UserRow;
  users_total : Z;
  users_page : Z;
  users_limit : Z
}.

Module Admin.

Inductive Call :=
| CountUsers | CountTransactions | SumRevenue | CountByStatus
| SelectPage | SelectCount.

(** One step of the [forEach] over the per-status counts. *)
Definition tally (buckets : Z * Z * Z) (row : TransactionStatus * Z)
  : Z * Z * Z :=
  let '(pendingTransactions, successfulTransactions, failedTransactions) :=
    buckets in
  match fst row with
  | pending | processing =>
      (pendingTransactions + snd row, successfulTransactions,
       failedTransactions)
  | success =>
      (pendingTransactions, successfulTransactions + snd row,
       failedTransactions)
  | failed | cancelled =>
      (pendingTransactions, successfulTransactions,
       failedTransactions + snd row)
  end.

(** Get admin dashboard statistics.  A count query has one row, so
    [result[0]?.count || 0] is the count. *)
Definition getAdminStats (down : Call -> bool) : M AdminStats :=
  try_catch
    (totalUsers <-
       call_when (down CountUsers)
         (get (fun db => Z.of_nat (List.length (users db)))) ;;
     totalTransactions <-
       call_when (down CountTransactions)
         (get (fun db => Z.of_nat (List.length (transactions db)))) ;;
     totalRevenueResult <-
       call_when (down SumRevenue)
         (get (fun db =>
            Sql.coalesce
              (Sql.sum (fun t => Some (t_price t))
                 (filter (fun t => status_eqb (t_status t) success)
                    (transactions db)))
              0)) ;;
     let totalRevenue := Pg.parseFloat totalRevenueResult in
     statusCountsResult <-
       call_when (down CountByStatus)
         (get (fun db =>
            map (fun g => (fst g, Z.of_nat (List.length (snd g))))
              (Sql.group_by t_status status_eqb (transactions db)))) ;;
     let '(pendingTransactions, successfulTransactions, failedTransactions) :=
       fold_left tally statusCountsResult (0, 0, 0) in
     ret {| total_users := totalUsers;
            total_transactions := totalTransactions;
            total_revenue := totalRevenue;
            pending_transactions := pendingTransactions;
            successful_transactions := successfulTransactions;
            failed_transactions := failedTransactions |})
    (fun error => throw error).

(** Get all transactions for admin monitoring (with pagination). *)
Definition getAllTransactions (down : Call -> bool) (page limit : Z)
  : M TransactionPage :=
  try_catch
    (let offset := (page - 1) * limit in
     total <-
       call_when (down SelectCount)
         (get (fun db => Z.of_nat (List.length (transactions db)))) ;;
     transactionsResult <-
       call_when (down SelectPage)
         (fun db =>
            Paging.limit_offset limit offset
              (Paging.order_by_desc t_created_at (transactions db)) db) ;;
     ret {| page_transactions :=
              map Transactions.convertDbTransaction transactionsResult;
            page_total := total;
            page_number := page;
            page_limit := limit |})
    (fun error => throw error).

(** Get all users for admin management: the stored hash is not selected
    and every returned user carries the empty string in its place. *)
Definition getAllUsers (down : Call -> bool) (page limit : Z) : M UserPage :=
  try_catch
    (let offset := (page - 1) * limit in
     total <-
       call_when (down SelectCount)
         (get (fun db => Z.of_nat (List.length (users db)))) ;;
     usersResult <-
       call_when (down SelectPage)
         (fun db =>
            Paging.limit_offset limit offset
              (Paging.order_by_desc u_created_at (users db)) db) ;;
     let users :=
       map
         (fun user =>
            {| u_id := u_id user;
               u_email := u_email user;
               u_password_hash := ""%string;
               u_full_name := u_full_name user;
               u_phone_number := u_phone_number user;
               u_referral_code := u_referral_code user;
               u_referred_by_id := u_referred_by_id user;
               u_created_at := u_created_at user;
               u_updated_at := u_updated_at user |})
         usersResult in
     ret {| page_users := users;
            users_total := total;
            users_page := page;
            users_limit := limit |})
    (fun error => throw error).

End Admin.

(* ================================================================== *)
(** ** handlers/referrals.ts: earnings, code validation, payout *)

Record ReferralEarnings := {
  total_earnings : Js.number;
  pending_earnings : Js.number;
  paid_earnings : Js.number;
  total_referrals : Z;
  earned_referrals : list Referral
}.

Record ReferralCodeCheck := {
  valid : bool;
  referrer_id : option Z;
  referrer_name : option string
}.

Module Ledger.

Inductive Call := SelectReferrals | SelectCodeOwner | UpdateReferral.

(** [rows.reduce((sum, r) => sum + r.commission_amount, 0)].  The sum is
    exact here; the code adds doubles from left to right, so its sum of
    two or more amounts with cents can differ from this one in the last
    digits.  An empty sum, and the sums of equal lists, are the same in
    both. *)
Definition sum_commissions (rows : list Referral) : Js.number :=
  fold_left (fun sum r => (sum + ref_commission_amount r)%Q) rows 0%Q.

(** Get referral earnings for a user. *)
Definition getUserReferralEarnings (down : Call -> bool) (userId : Z)
  : M ReferralEarnings :=
  try_catch
    (referrals <-
       call_when (down SelectReferrals)
         (get (fun db =>
            filter (fun r => r_referrer_id r =? userId) (referrals db))) ;;
     let convertedReferrals := map Referrals.convertDbReferral referrals in
     let totalEarnings := sum_commissions convertedReferrals in
     let pendingEarnings :=
       sum_commissions
         (filter (fun r => negb (ref_is_paid r)) convertedReferrals) in
     let paidEarnings :=
       sum_commissions (filter (fun r => ref_is_paid r) convertedReferrals) in
     ret {| total_earnings := totalEarnings;
            pending_earnings := pendingEarnings;
            paid_earnings := paidEarnings;
            total_referrals := Z.of_nat (List.length convertedReferrals);
            earned_referrals := convertedReferrals |})
    (fun error => throw error).

(** Validate referral code exists. *)
Definition validateReferralCode (down : Call -> bool) (referralCode : string)
  : M ReferralCodeCheck :=
  try_catch
    (users <-
       call_when (down SelectCodeOwner)
         (get (fun db =>
            filter (fun u => (u_referral_code u =? referralCode)%string)
              (users db))) ;;
     match users with
     | [] =>
         ret {| valid := false; referrer_id := None; referrer_name := None |}
     | user :: _ =>
         ret {| valid := true;
                referrer_id := Some (u_id user);
                referrer_name := Some (u_full_name user) |}
     end)
    (fun error => throw error).

(** The [.set({ is_paid: true })] of the payout applied to one row. *)
Definition set_paid (r : ReferralRow) : ReferralRow :=
  {| r_id := r_id r;
     r_referrer_id := r_referrer_id r;
     r_referred_id := r_referred_id r;
     r_commission_amount := r_commission_amount r;
     r_transaction_id := r_transaction_id r;
     r_is_paid := true;
     r_created_at := r_created_at r |}.

(** Mark referral commission as paid (admin function). *)
Definition markReferralAsPaid (down : Call -> bool) (referralId : Z)
  : M (option Referral) :=
  try_catch
    (updatedReferrals <-
       call_when (down UpdateReferral)
         (fun db =>
            let rows :=
              map (fun r => if r_id r =? referralId then set_paid r else r)
                (referrals db) in
            (Ok (map set_paid
                   (filter (fun r => r_id r =? referralId) (referrals db))),
             with_referrals db rows (referrals_id_seq db))) ;;
     match updatedReferrals with
     | [] => ret None
     | referral :: _ => ret (Some (Referrals.convertDbReferral referral))
     end)
    (fun error => throw error).

End Ledger.

(* ================================================================== *)
(** ** handlers/auth.ts: registration *)

Record RegisterInput := {
  ri_email : string;
  ri_password : string;
  ri_full_name : string;
  ri_phone_number : option string;
  ri_referral_code : option string
}.

Module Registration.

Inductive Call := SelectByEmail | SelectByCode | SelectReferrer | InsertUser.

(** What [register] can throw: its own error or one of the store. *)
Inductive RegisterError :=
| UserAlreadyExists               (* 'User with this email already exists' *)
| StoreError (e : Error).

Inductive Outcome :=
| Registered (response : Auth.AuthResponse)
| Failed (e : RegisterError).

(** The [do ... while (!isUnique)] loop over the values
    [generateReferralCode()] returns, in the order it returns them: the
    first one no user has.  [None] when every value at hand is taken, where
    the loop goes on to further values. *)
Fixpoint pick_referral_code (down : Call -> bool) (codes : list string)
    (db : Db) : option (Result string) :=
  match codes with
  | [] => None
  | referralCode :: later =>
      if down SelectByCode then Some (Throw StoreUnavailable)
      else
        let existingCode :=
          filter (fun u => (u_referral_code u =? referralCode)%string)
            (users db) in
        let isUnique := (List.length existingCode =? 0)%nat in
        if isUnique then Some (Ok referralCode)
        else pick_referral_code down later db
  end.

(** [db.insert(usersTable).values(v).returning()], first row: [id] is
    the value the serial sequence hands out, [email] and [referral_code]
    are unique, both timestamps default to now. *)
Definition insert_user (down : Call -> bool) (now : Pg.timestamp) (newId : Z)
    (email passwordHash fullName : string) (phone : option string)
    (referralCode : string) (referrerId : option Z) (db : Db)
  : Result UserRow * Db :=
  if down InsertUser then (Throw StoreUnavailable, db)
  else if existsb
            (fun u => (u_id u =? newId)
                      || (u_email u =? email)%string
                      || (u_referral_code u =? referralCode)%string)
            (users db)
  then (Throw UniqueViolation, db)
  else
    let row := {|
      u_id := newId;
      u_email := email;
      u_password_hash := passwordHash;
      u_full_name := fullName;
      u_phone_number := phone;
      u_referral_code := referralCode;
      u_referred_by_id := referrerId;
      u_created_at := now;
      u_updated_at := now |} in
    (Ok row,
     {| users := users db ++ [row];
        products := products db;
        transactions := transactions db;
        referrals := referrals db;
        transactions_id_seq := transactions_id_seq db;
        referrals_id_seq := referrals_id_seq db |}).

Section Crypto.

(** [pbkdf2Sync(password, salt, 10000, 64, 'sha512').toString('hex')] *)
Variable pbkdf2_hex : string -> string -> string.

(** [generateToken(userId)] at a given clock value. *)
Variable generateToken : Pg.timestamp -> Z -> string.

(** Hash password; [salt] is [randomBytes(16).toString('hex')]. *)
Definition hashPassword (salt password : string) : string :=
  let hash := pbkdf2_hex password salt in
  (salt ++ ":" ++ hash)%string.

(** Register a new user with optional referral code.  [salt] is the salt
    drawn for the password, [codes] the values [generateReferralCode()]
    returns one after the other, [newId] the id the users sequence hands
    out.  The result is [None] when the code loop has not ended within
    [codes]. *)
Definition register (down : Call -> bool) (now : Pg.timestamp)
    (salt : string) (codes : list string) (newId : Z) (input : RegisterInput)
    (db : Db) : option (Outcome * Db) :=
  if down SelectByEmail then Some (Failed (StoreError StoreUnavailable), db)
  else
    let existingUser :=
      filter (fun u => (u_email u =? ri_email input)%string) (users db) in
    if (0 <? List.length existingUser)%nat
    then Some (Failed UserAlreadyExists, db)
    else
      let passwordHash := hashPassword salt (ri_password input) in
      match pick_referral_code down codes db with
      | None => None
      | Some (Throw e) => Some (Failed (StoreError e), db)
      | Some (Ok referralCode) =>
          let lookup : Result (option Z) :=
            match ri_referral_code input with
            | Some code =>
                if Js.truthy_string code then
                  if down SelectReferrer then Throw StoreUnavailable
                  else
                    match filter
                            (fun u => (u_referral_code u =? code)%string)
                            (users db) with
                    | referrer :: _ => Ok (Some (u_id referrer))
                    | [] => Ok None
                    end
                else Ok None
            | None => Ok None
            end in
          match lookup with
          | Throw e => Some (Failed (StoreError e), db)
          | Ok referrerId =>
              match insert_user down now newId (ri_email input) passwordHash
                      (ri_full_name input)
                      (Js.string_or_null (ri_phone_number input))
                      referralCode referrerId db with
              | (Throw e, db') => Some (Failed (StoreError e), db')
              | (Ok newUser, db') =>
                  let token := generateToken now (u_id newUser) in
                  Some
                    (Registered
                       {| Auth.user :=
                            {| Auth.id := u_id newUser;
                               Auth.email := u_email newUser;
                               Auth.full_name := u_full_name newUser;
                               Auth.phone_number := u_phone_number newUser;
                               Auth.referral_code := u_referral_code newUser;
                               Auth.referred_by_id := u_referred_by_id newUser;
                               Auth.created_at := u_created_at newUser;
                               Auth.updated_at := u_updated_at newUser |};
                          Auth.token := token |},
                     db')
              end
          end
      end.

End Crypto.

End Registration.

(* ================================================================== *)
(** ** handlers/digiflazz.ts: services, catalogue sync and mock answers *)

(** The products table together with its serial sequence. *)
Record CatalogStore := {
  store : Db;
  products_id_seq : Z
}.

Definition with_products (db : Db) (rows : list ProductRow) : Db :=
  {| users := users db; products := rows;
     transactions := transactions db; referrals := referrals db;
     transactions_id_seq := transactions_id_seq db;
     referrals_id_seq := referrals_id_seq db |}.

Module Catalog.

Record DigiflazzService := {
  buyer_sku_code : string;
  product_name : string;
  category : string;
  brand : string;
  type : string;
  seller_name : string;
  price : Js.number;
  buyer_product_status : bool;
  seller_product_status : bool;
  unlimited_stock : bool;
  stock : Js.number;
  multi : bool;
  start_cut_off : string;
  end_cut_off : string;
  desc : string
}.

(** The order request; its [buyer_sku_code] is [order_sku_code] here. *)
Record DigiflazzOrderInput := {
  username : string;
  order_sku_code : string;
  customer_no : string;
  ref_id : string;
  sign : string
}.

(** Mock data for development and testing. *)
Definition mock_service (sku name cat brand_ descr : string)
    (price_ : Js.number) : DigiflazzService :=
  {| buyer_sku_code := sku; product_name := name; category := cat;
     brand := brand_; type := cat; seller_name := "DIGIFLAZZ"%string;
     price := price_; buyer_product_status := true;
     seller_product_status := true; unlimited_stock := true;
     stock := 999999%Q; multi := false;
     start_cut_off := "00:00"%string; end_cut_off := "23:59"%string;
     desc := descr |}.

Definition MOCK_SERVICES : list DigiflazzService :=
  [ mock_service "TELKOMSEL_5000" "Telkomsel 5.000" "Pulsa" "TELKOMSEL"
      "Pulsa Telkomsel 5.000" 5275%Q;
    mock_service "XL_10000" "XL 10.000" "Pulsa" "XL" "Pulsa XL 10.000"
      10250%Q;
    mock_service "PLN_20000" "PLN Token 20.000" "PLN" "PLN"
      "Token PLN 20.000" 20500%Q ].

(** Get available services from Digiflazz (or mock).  [provider] is the
    body of the price-list answer, [None] when the request failed or the
    answer was not ok, in which case the handler throws. *)
Definition getDigiflazzServices (use_mock : bool)
    (provider : option (list DigiflazzService))
  : option (list DigiflazzService) :=
  if use_mock then
    Some (filter
            (fun service =>
               buyer_product_status service && seller_product_status service)
            MOCK_SERVICES)
  else
    match provider with
    | None => None
    | Some data =>
        Some (filter
                (fun service =>
                   buyer_product_status service
                   && seller_product_status service
                   && Js.gtb (stock service) 0%Q)
                data)
    end.

(** [s.toLowerCase()] on the letters A to Z; other characters are kept. *)
Definition lower (c : ascii) : ascii :=
  let n := nat_of_ascii c in
  if ((65 <=? n) && (n <=? 90))%nat then ascii_of_nat (n + 32) else c.

Fixpoint toLowerCase (s : string) : string :=
  match s with
  | EmptyString => EmptyString
  | String c rest => String (lower c) (toLowerCase rest)
  end.

(** [hay.includes(needle)] *)
Fixpoint includes (needle hay : string) : bool :=
  String.prefix needle hay
  || match hay with
     | EmptyString => false
     | String _ rest => includes needle rest
     end.

(** Map Digiflazz categories to our product categories. *)
Definition mapDigiflazzCategory (digiflazzCategory brand_ : string)
  : ProductCategory :=
  let category_ := toLowerCase digiflazzCategory in
  let brandLower := toLowerCase brand_ in
  if includes "pulsa" category_ || includes "credit" category_
  then mobile_credit
  else if includes "data" category_ || includes "internet" category_
  then data_package
  else if includes "pln" category_ || includes "pln" brandLower
  then pln_token
  else if includes "game" category_ || includes "voucher" category_
  then game_voucher
  else other.

(** The store calls made for one service. *)
Inductive Call := SelectBySku | UpdateProduct | InsertProduct.

(** A product row holding [productData]: every column but [id] and
    [created_at] comes from the service. *)
Definition product_row (id created : Z) (now : Pg.timestamp)
    (service : DigiflazzService) (price_c : Pg.numeric)
    (max_c : option Pg.numeric) : ProductRow :=
  {| p_id := id;
     p_sku := buyer_sku_code service;
     p_name := product_name service;
     p_description := Some (desc service);
     p_category := mapDigiflazzCategory (category service) (brand service);
     p_price := price_c;
     p_base_price := price_c;
     p_provider := seller_name service;
     p_is_active :=
       buyer_product_status service && seller_product_status service;
     p_min_amount := if multi service then Some 100 else None;
     p_max_amount := max_c;
     p_denomination_type := if multi service then range else fixed;
     p_image_url := None;
     p_created_at := created;
     p_updated_at := now |}.

(** The [.set(productData)] of the sync applied to one row. *)
Definition set_product_data (now : Pg.timestamp) (service : DigiflazzService)
    (price_c : Pg.numeric) (max_c : option Pg.numeric) (p : ProductRow)
  : ProductRow :=
  product_row (p_id p) (p_created_at p) now service price_c max_c.

(** The numeric columns of [productData]: the price, and the stock as the
    maximum unless the stock is unlimited.  [None] when one overflows. *)
Definition product_numbers (service : DigiflazzService)
  : option (Pg.numeric * option Pg.numeric) :=
  match Pg.to_numeric (price service) with
  | None => None
  | Some price_c =>
      if unlimited_stock service then Some (price_c, None)
      else
        match Pg.to_numeric (stock service) with
        | None => None
        | Some stock_c => Some (price_c, Some stock_c)
        end
  end.

(** The body of the loop for one service: look the SKU up, then update
    the product that has it or insert a new one. *)
Definition upsert_product (down : string -> Call -> bool)
    (now : Pg.timestamp) (service : DigiflazzService) (cs : CatalogStore)
  : Result unit * CatalogStore :=
  let sku := buyer_sku_code service in
  let db := store cs in
  if down sku SelectBySku then (Throw StoreUnavailable, cs)
  else
    let existingProduct :=
      firstn 1 (filter (fun p => (p_sku p =? sku)%string) (products db)) in
    if (0 <? List.length existingProduct)%nat then
      if down sku UpdateProduct then (Throw StoreUnavailable, cs)
      else
        match product_numbers service with
        | None => (Throw NumericFieldOverflow, cs)
        | Some (price_c, max_c) =>
            (Ok tt,
             {| store :=
                  with_products db
                    (map (fun p =>
                            if (p_sku p =? sku)%string
                            then set_product_data now service price_c max_c p
                            else p)
                       (products db));
                products_id_seq := products_id_seq cs |})
        end
    else
      if down sku InsertProduct then (Throw StoreUnavailable, cs)
      else
        match product_numbers service with
        | None => (Throw NumericFieldOverflow, cs)
        | Some (price_c, max_c) =>
            (Ok tt,
             {| store :=
                  with_products db
                    (products db
                     ++ [product_row (products_id_seq cs + 1) now now
                           service price_c max_c]);
                products_id_seq := products_id_seq cs + 1 |})
        end.

(** The [for ... of] loop with its per-service [try]/[catch]: a service
    that throws adds a message to [errors] and the loop goes on. *)
Fixpoint sync_loop (down : string -> Call -> bool) (now : Pg.timestamp)
    (services : list DigiflazzService) (synced : Z)
    (errors : list (string * Error)) (cs : CatalogStore)
  : Z * list (string * Error) * CatalogStore :=
  match services with
  | [] => (synced, errors, cs)
  | service :: later =>
      match upsert_product down now service cs with
      | (Ok _, cs') => sync_loop down now later (synced + 1) errors cs'
      | (Throw error, cs') =>
          sync_loop down now later synced
            (errors ++ [(buyer_sku_code service, error)]) cs'
      end
  end.

Inductive SyncOutcome :=
| SyncReport (synced : Z) (errors : list (string * Error))
| ProviderFailed.

(** Sync products from Digiflazz to local database. *)
Definition syncProductsFromDigiflazz (use_mock : bool)
    (provider : option (list DigiflazzService))
    (down : string -> Call -> bool) (now : Pg.timestamp) (cs : CatalogStore)
  : SyncOutcome * CatalogStore :=
  match getDigiflazzServices use_mock provider with
  | None => (ProviderFailed, cs)
  | Some services =>
      let '(synced, errors, cs') := sync_loop down now services 0 [] cs in
      (SyncReport synced errors, cs')
  end.

(** The mock answer of [createDigiflazzOrder]; [random] is the value of
    [Math.random()].  No double lies between the double written 0.3 and
    three tenths, so on the values [Math.random()] returns the comparison
    of the doubles is the comparison of the rationals. *)
Definition mockOrder (random : Js.number) (input : DigiflazzOrderInput)
  : Digiflazz.DigiflazzOrderResponse :=
  let isSuccess := Js.gtb random (3 # 10)%Q in
  {| Digiflazz.ref_id := ref_id input;
     Digiflazz.customer_no := customer_no input;
     Digiflazz.buyer_sku_code := order_sku_code input;
     Digiflazz.message := if isSuccess then "SUKSES" else "PROCESS";
     Digiflazz.status := if isSuccess then "Sukses" else "Pending";
     Digiflazz.rc := "00";
     Digiflazz.buyer_last_saldo := 1000000%Q;
     Digiflazz.price := 5275%Q;
     Digiflazz.tele := "62895000000";
     Digiflazz.wa := "62895000000";
     Digiflazz.serial_number :=
       Some (if isSuccess then "SN123456789" else "") |}%string.

(** Create order at Digiflazz (or mock); [provider] is the answer of the
    provider, [None] when the request failed. *)
Definition createDigiflazzOrder (use_mock : bool) (random : Js.number)
    (provider : option Digiflazz.DigiflazzOrderResponse)
    (input : DigiflazzOrderInput) : option Digiflazz.DigiflazzOrderResponse :=
  if use_mock then Some (mockOrder random input) else provider.

(** The mock answer of [checkDigiflazzStatus]: one of three statuses.
    [pick] is the index the code computes,
    [Math.floor(Math.random() * statuses.length)], a product of doubles
    that is at least 0 and below 3, so the index is 0, 1 or 2; which of
    them a given random value leads to is decided by the rounding of the
    product and is not modelled.  For any other index the code reads
    [undefined], which is none of the three statuses. *)
Definition mockStatus (pick : Z) (refId : string)
  : Digiflazz.DigiflazzOrderResponse :=
  let statuses := ["Sukses"; "Pending"; "Gagal"]%string in
  let randomStatus :=
    if (0 <=? pick) && (pick <? 3)
    then nth (Z.to_nat pick) statuses ""%string
    else ""%string in
  {| Digiflazz.ref_id := refId;
     Digiflazz.customer_no := "081234567890";
     Digiflazz.buyer_sku_code := "TELKOMSEL_5000";
     Digiflazz.message :=
       if (randomStatus =? "Sukses") then "SUKSES"
       else if (randomStatus =? "Gagal") then "GAGAL" else "PROCESS";
     Digiflazz.status := randomStatus;
     Digiflazz.rc := if (randomStatus =? "Sukses") then "00" else "01";
     Digiflazz.buyer_last_saldo := 994725%Q;
     Digiflazz.price := 5275%Q;
     Digiflazz.tele := "62895000000";
     Digiflazz.wa := "62895000000";
     Digiflazz.serial_number :=
       Some (if (randomStatus =? "Sukses") then "SN123456789" else "") |}%string.

(** Check transaction status at Digiflazz. *)
Definition checkDigiflazzStatus (use_mock : bool) (pick : Z)
    (provider : option Digiflazz.DigiflazzOrderResponse) (refId : string)
  : option Digiflazz.DigiflazzOrderResponse :=
  if use_mock then Some (mockStatus pick refId) else provider.

End Catalog.

(* ================================================================== *)
(** ** Vocabulary of the further statements *)

(** The filters of a listing request, as one predicate on a row. *)
Definition matches_filters (input : GetTransactionsInput) (t : TransactionRow)
  : bool :=
  match gti_user_id input with
  | Some uid => t_user_id t =? uid
  | None => true
  end
  && match gti_status input with
     | Some st => status_eqb (t_status t) st
     | None => true
     end.

(** The whole listing a request pages through: the matching rows, newest
    first. *)
Definition listing (input : GetTransactionsInput) (db : Db)
  : list Transaction :=
  map Transactions.convertDbTransaction
    (Paging.order_by_desc t_created_at
       (filter (matches_filters input) (transactions db))).

(** The same request for page [k]. *)
Definition on_page (input : GetTransactionsInput) (k : Z)
  : GetTransactionsInput :=
  {| gti_user_id := gti_user_id input;
     gti_status := gti_status input;
     gti_page := k;
     gti_limit := gti_limit input |}.

(** The transactions a listing call returned, none when it threw. *)
Definition page_items (r : Result TransactionPage * Db) : list Transaction :=
  match fst r with
  | Ok p => page_transactions p
  | Throw _ => []
  end.

(** Newest first. *)
Definition not_older (a b : Transaction) : Prop := created_at b <= created_at a.

Definition all_answer {C : Type} : C -> bool := fun _ => false.

(** What a status update has no business changing in a transaction. *)
Definition ordered_part (t : TransactionRow) :=
  (t_id t, t_user_id t, t_product_id t, t_transaction_id t,
   t_amount t, t_price t,
   (t_customer_phone t, t_customer_id t, t_customer_name t, t_notes t),
   t_created_at t).

(** A ledger row without its paid flag. *)
Definition besides_paid (r : ReferralRow) :=
  (r_id r, r_referrer_id r, r_referred_id r, r_commission_amount r,
   r_transaction_id r, r_created_at r).

(** The records an earnings call returned, none when it threw. *)
Definition earned (r : Result ReferralEarnings * Db) : list Referral :=
  match fst r with
  | Ok e => earned_referrals e
  | Throw _ => []
  end.

(** The calls that write to the store after registration and catalogue
    sync, each with the environment it runs in. *)
Inductive Operation :=
| Purchase (f : Faults) (now : Pg.timestamp) (transactionId : string)
    (input : CreateTransactionInput)
| StatusUpdate (f : Faults) (now : Pg.timestamp)
    (input : UpdateTransactionStatusInput)
| Settle (f : Faults) (now : Pg.timestamp) (transactionId : Z)
| Payout (down : Ledger.Call -> bool) (referralId : Z).

(** The store an operation leaves behind. *)
Definition perform (db : Db) (op : Operation) : Db :=
  match op with
  | Purchase f now transactionId input =>
      snd (Transactions.createTransaction f now transactionId input db)
  | StatusUpdate f now input =>
      snd (Transactions.updateTransactionStatus f now input db)
  | Settle f now transactionId =>
      snd (Referrals.processReferralCommission f now transactionId db)
  | Payout down referralId =>
      snd (Ledger.markReferralAsPaid down referralId db)
  end.

Definition perform_all (ops : list Operation) (db : Db) : Db :=
  fold_left perform ops db.

(** A string without a colon, as the hexadecimal salts and digests are. *)
Definition no_colon (s : string) : bool :=
  forallb (fun c => negb (Ascii.eqb c ":"%char)) (list_ascii_of_string s).

(** The user a registration links the newcomer to: the first holder of
    the referral code that was typed in, none without a code. *)
Definition named_referrer (input : RegisterInput) (db : Db) : option Z :=
  match ri_referral_code input with
  | Some code =>
      if Js.truthy_string code then
        match filter (fun u => (u_referral_code u =? code)%string)
                (users db) with
        | referrer :: _ => Some (u_id referrer)
        | [] => None
        end
      else None
  | None => None
  end.

(** The row an accepted registration leaves in the users table. *)
Definition registered_row (pbkdf2_hex : string -> string -> string)
    (now : Pg.timestamp) (salt : string) (newId : Z) (referralCode : string)
    (input : RegisterInput) (db : Db) : UserRow :=
  {| u_id := newId;
     u_email := ri_email input;
     u_password_hash :=
       Registration.hashPassword pbkdf2_hex salt (ri_password input);
     u_full_name := ri_full_name input;
     u_phone_number := Js.string_or_null (ri_phone_number input);
     u_referral_code := referralCode;
     u_referred_by_id := named_referrer input db;
     u_created_at := now;
     u_updated_at := now |}.

Definition with_users (db : Db) (rows : list UserRow) : Db :=
  {| users := rows; products := products db;
     transactions := transactions db; referrals := referrals db;
     transactions_id_seq := transactions_id_seq db;
     referrals_id_seq := referrals_id_seq db |}.

(** What the caller of an accepted registration gets back. *)
Definition response_of (token : string) (u : UserRow) : Auth.AuthResponse :=
  {| Auth.user :=
       {| Auth.id := u_id u;
          Auth.email := u_email u;
          Auth.full_name := u_full_name u;
          Auth.phone_number := u_phone_number u;
          Auth.referral_code := u_referral_code u;
          Auth.referred_by_id := u_referred_by_id u;
          Auth.created_at := u_created_at u;
          Auth.updated_at := u_updated_at u |};
     Auth.token := token |}.

(** What the catalogue sync has no business changing in a product. *)
Definition catalogue_identity (p : ProductRow) :=
  (p_id p, p_sku p, p_created_at p).


(** The serial sequence of the products is ahead of every stored id. *)
Definition sequence_ahead (cs : CatalogStore) : Prop :=
  forall p, In p (products (store cs)) -> p_id p <= products_id_seq cs.


(** The classes of the dashboard. *)
Definition in_progress (s : TransactionStatus) : bool :=
  match s with pending | processing => true | _ => false end.
Definition succeeded (s : TransactionStatus) : bool :=
  match s with success => true | _ => false end.
Definition given_up (s : TransactionStatus) : bool :=
  match s with failed | cancelled => true | _ => false end.

(** The number of stored transactions whose status is in a class. *)
Definition count_status (class : TransactionStatus -> bool) (db : Db) : Z :=
  Z.of_nat
    (List.length (filter (fun t => class (t_status t)) (transactions db))).

(* ================================================================== *)
(** * Properties *)

(** ** Numbers: rounding and the numeric columns *)

Section NumberFacts.

Lemma Qfloor_plus_half (n : Z) : Qfloor (inject_Z n + (1 # 2))%Q = n.
Proof.
  unfold Qfloor, Qplus, inject_Z; simpl.
  symmetry; apply Z.div_unique with (r := 1); lia.
Qed.

Lemma parseFloat_scaled (c : Pg.numeric) :
  (Pg.parseFloat c * 100 == inject_Z c)%Q.
Proof. unfold Pg.parseFloat; field. Qed.

Lemma parseFloat_nonneg (c : Pg.numeric) :
  Qle_bool 0%Q (Pg.parseFloat c) = (0 <=? c).
Proof.
  apply eq_true_iff_eq.
  rewrite Qle_bool_iff, Z.leb_le.
  unfold Pg.parseFloat, Qle, Qdiv, Qmult, Qinv, inject_Z; simpl. lia.
Qed.

(** A stored value read back and stored again is the value itself. *)
Lemma round_scale2_parseFloat (c : Pg.numeric) :
  Pg.round_scale2 (Pg.parseFloat c) = c.
Proof.
  unfold Pg.round_scale2.
  rewrite parseFloat_nonneg.
  destruct (0 <=? c).
  - rewrite parseFloat_scaled. apply Qfloor_plus_half.
  - assert (E : (- Pg.parseFloat c * 100 == inject_Z (- c))%Q).
    { rewrite inject_Z_opp, <- parseFloat_scaled. ring. }
    rewrite E, Qfloor_plus_half. lia.
Qed.

Lemma to_numeric_parseFloat (c : Pg.numeric) :
  Pg.numeric_ok c = true -> Pg.to_numeric (Pg.parseFloat c) = Some c.
Proof.
  intros H. unfold Pg.to_numeric.
  now rewrite round_scale2_parseFloat, H.
Qed.

Lemma to_numeric_some (x : Js.number) (c : Pg.numeric) :
  Pg.to_numeric x = Some c -> c = Pg.round_scale2 x.
Proof.
  unfold Pg.to_numeric.
  destruct (Pg.numeric_ok (Pg.round_scale2 x)); congruence.
Qed.


(** Rounding to the scale is monotone. *)
Lemma round_scale2_le (x y : Js.number) :
  (x <= y)%Q -> Pg.round_scale2 x <= Pg.round_scale2 y.
Proof.
  intros Hxy. unfold Pg.round_scale2.
  destruct (Qle_bool 0 x) eqn:Hx; destruct (Qle_bool 0 y) eqn:Hy.
  - apply Qfloor_resp_le. lra.
  - apply Qle_bool_iff in Hx.
    apply not_true_iff_false in Hy. rewrite Qle_bool_iff in Hy. lra.
  - apply not_true_iff_false in Hx. rewrite Qle_bool_iff in Hx.
    apply Qle_bool_iff in Hy.
    assert (0 <= Qfloor (- x * 100 + (1 # 2))%Q).
    { change 0 with (Qfloor 0%Q). apply Qfloor_resp_le. lra. }
    assert (0 <= Qfloor (y * 100 + (1 # 2))%Q).
    { change 0 with (Qfloor 0%Q). apply Qfloor_resp_le. lra. }
    lia.
  - apply Z.opp_le_mono. rewrite !Z.opp_involutive.
    apply Qfloor_resp_le. lra.
Qed.

(** An amount between two stored bounds fits the column. *)
Lemma to_numeric_between (x : Js.number) (lo hi : Pg.numeric) :
  Pg.numeric_ok lo = true -> Pg.numeric_ok hi = true ->
  (Pg.parseFloat lo <= x)%Q -> (x <= Pg.parseFloat hi)%Q ->
  Pg.to_numeric x = Some (Pg.round_scale2 x).
Proof.
  intros Hlo Hhi H1 H2.
  apply round_scale2_le in H1. apply round_scale2_le in H2.
  rewrite round_scale2_parseFloat in H1, H2.
  unfold Pg.to_numeric, Pg.numeric_ok in *.
  apply Z.ltb_lt in Hlo, Hhi.
  replace (Z.abs (Pg.round_scale2 x) <? Pg.numeric_limit) with true; [easy|].
  symmetry. apply Z.ltb_lt. lia.
Qed.

(** The commission of a stored amount, in whole units. *)
Lemma Math_round_five_percent (c : Pg.numeric) :
  Js.Math_round (Pg.parseFloat c * (5 # 100))%Q = (c + 1000) / 2000.
Proof.
  unfold Js.Math_round.
  rewrite Zdiv_Qdiv.
  apply Qfloor_comp.
  unfold Pg.parseFloat. rewrite inject_Z_plus. field.
Qed.

Lemma round_scale2_comp (x y : Js.number) :
  (x == y)%Q -> Pg.round_scale2 x = Pg.round_scale2 y.
Proof.
  intros E. unfold Pg.round_scale2.
  rewrite (Qleb_comp 0%Q 0%Q (Qeq_refl 0%Q) x y E).
  destruct (Qle_bool 0%Q y); [|f_equal]; apply Qfloor_comp;
    rewrite E; reflexivity.
Qed.

Lemma round_scale2_integer (n : Z) :
  Pg.round_scale2 (inject_Z n) = n * 100.
Proof.
  rewrite (round_scale2_comp (inject_Z n) (Pg.parseFloat (n * 100))).
  - apply round_scale2_parseFloat.
  - unfold Pg.parseFloat. rewrite inject_Z_mult. field.
Qed.

(** The commission of a stored amount always fits the column. *)
Lemma commission_fits (c : Pg.numeric) :
  Pg.numeric_ok c = true ->
  Pg.to_numeric (Transactions.calculateCommission (Pg.parseFloat c))
  = Some ((c + 1000) / 2000 * 100).
Proof.
  intros H. unfold Transactions.calculateCommission.
  rewrite Math_round_five_percent.
  unfold Pg.to_numeric. rewrite round_scale2_integer.
  unfold Pg.numeric_ok, Pg.numeric_limit in *.
  apply Z.ltb_lt in H.
  replace (Z.abs ((c + 1000) / 2000 * 100) <? 10 ^ 10) with true; [easy|].
  symmetry. apply Z.ltb_lt.
  assert (- 10 ^ 10 < c < 10 ^ 10) by lia.
  assert (H1 : (- 10 ^ 10 + 1000) / 2000 <= (c + 1000) / 2000)
    by (apply Z.div_le_mono; lia).
  assert (H2 : (c + 1000) / 2000 <= (10 ^ 10 + 1000) / 2000)
    by (apply Z.div_le_mono; lia).
  change ((- 10 ^ 10 + 1000) / 2000) with (-5000000 + 0) in H1.
  change ((10 ^ 10 + 1000) / 2000) with 5000000 in H2.
  lia.
Qed.

End NumberFacts.

(** ** The store calls *)

Ltac run_monad :=
  unfold when, call, get, try_catch, bind, throw, ret in *.

Section StoreFacts.

Lemma with_transactions_same (db : Db) :
  with_transactions db (transactions db) (transactions_id_seq db) = db.
Proof. now destruct db. Qed.

Lemma map_unmatched {A} (p : A -> bool) (s : A -> A) (l : list A) :
  filter p l = [] -> map (fun x => if p x then s x else x) l = l.
Proof.
  induction l as [|x l IH]; simpl; [easy|].
  destruct (p x); [discriminate|].
  intros H. now rewrite IH.
Qed.

Lemma filter_updated (key : string) (s : TransactionRow -> TransactionRow)
    (rows : list TransactionRow) :
  (forall t, t_transaction_id (s t) = t_transaction_id t) ->
  filter (has_transaction_id key)
    (map (fun t => if has_transaction_id key t then s t else t) rows)
  = map s (filter (has_transaction_id key) rows).
Proof.
  intros Hs.
  induction rows as [|t rows IH]; simpl; [easy|].
  destruct (has_transaction_id key t) eqn:E; simpl.
  - unfold has_transaction_id in *. rewrite Hs, E. simpl. now rewrite IH.
  - rewrite E. apply IH.
Qed.

Lemma filter_app_one {A} (p : A -> bool) (l : list A) (x : A) :
  filter p (l ++ [x]) = filter p l ++ (if p x then [x] else []).
Proof. rewrite filter_app. simpl. now destruct (p x). Qed.

End StoreFacts.

(** ** Commission settlement inside the status update *)

Section Settlement.

Variable f : Faults.
Variable now : Pg.timestamp.

(** Settlement never throws and touches nothing but the ledger, to which
    it adds at most one row, for the transaction it was called for. *)
Lemma processReferralCommission_total (txn buyer : Z) (amount : Js.number)
    (db : Db) :
  exists db',
    Transactions.processReferralCommission f now txn buyer amount db
    = (Ok tt, db')
    /\ users db' = users db
    /\ products db' = products db
    /\ transactions db' = transactions db
    /\ transactions_id_seq db' = transactions_id_seq db
    /\ (db' = db
        \/ exists r, referrals db' = referrals db ++ [r]
                     /\ r_transaction_id r = txn).
Proof.
  unfold Transactions.processReferralCommission, select_user_by_id,
    insert_referral.
  run_monad.
  destruct (f SelectUsers); [exists db; intuition|].
  destruct (firstn 1 (filter (fun u => u_id u =? buyer) (users db)))
    as [|u us]; [exists db; intuition|].
  destruct (u_referred_by_id u) as [referrer|]; [|exists db; intuition].
  destruct (Js.truthy_int referrer); [|exists db; intuition].
  destruct (f InsertReferral); [exists db; intuition|].
  destruct (Pg.to_numeric (Transactions.calculateCommission amount)) as [c|];
    [|exists db; intuition].
  eexists; split; [reflexivity|]. simpl.
  repeat split; try reflexivity.
  right. eexists; split; reflexivity.
Qed.

(** A buyer who has no referrer: nothing is created and nothing is thrown. *)
Lemma processReferralCommission_no_referrer (txn buyer : Z)
    (amount : Js.number) (db : Db) :
  (forall u, In u (users db) -> u_id u = buyer -> u_referred_by_id u = None) ->
  Transactions.processReferralCommission f now txn buyer amount db
  = (Ok tt, db).
Proof.
  intros Hnone.
  unfold Transactions.processReferralCommission, select_user_by_id.
  run_monad.
  destruct (f SelectUsers); [reflexivity|].
  destruct (filter (fun u => u_id u =? buyer) (users db)) as [|u us] eqn:E;
    [reflexivity|]. simpl.
  assert (Hu : In u (filter (fun u => u_id u =? buyer) (users db)))
    by (rewrite E; now left).
  apply filter_In in Hu. destruct Hu as [Hin Hid].
  apply Z.eqb_eq in Hid.
  now rewrite (Hnone u Hin Hid).
Qed.

(** A buyer with a referrer, on a store that answers: one row is appended,
    with the commission computed from the amount handed in. *)
Lemma processReferralCommission_inserts (txn buyer referrer : Z)
    (amount_c : Pg.numeric) (db : Db) (u : UserRow) (us : list UserRow) :
  f SelectUsers = false -> f InsertReferral = false ->
  filter (fun u => u_id u =? buyer) (users db) = u :: us ->
  u_referred_by_id u = Some referrer -> referrer <> 0 ->
  Pg.numeric_ok amount_c = true ->
  Transactions.processReferralCommission f now txn buyer
    (Pg.parseFloat amount_c) db
  = (Ok tt,
     with_referrals db
       (referrals db ++ [commission_row now db referrer buyer txn amount_c])
       (referrals_id_seq db + 1)).
Proof.
  intros Hsel Hins Hu Href Hnz Hok.
  unfold Transactions.processReferralCommission, select_user_by_id,
    insert_referral.
  run_monad.
  rewrite Hsel, Hu. simpl. rewrite Href.
  unfold Js.truthy_int.
  destruct (Z.eqb_spec referrer 0) as [|_]; [contradiction|]. simpl.
  now rewrite Hins, (commission_fits _ Hok).
Qed.

(** When a store call of the settlement step throws, the step leaves the
    store as it found it. *)
Lemma processReferralCommission_fault (txn buyer : Z) (amount : Js.number)
    (db : Db) :
  f SelectUsers = true \/ f InsertReferral = true ->
  Transactions.processReferralCommission f now txn buyer amount db
  = (Ok tt, db).
Proof.
  intros Hfault.
  unfold Transactions.processReferralCommission, select_user_by_id,
    insert_referral.
  run_monad.
  destruct (f SelectUsers); [reflexivity|].
  destruct Hfault as [Hsel|Hins]; [discriminate|]. rewrite Hins.
  destruct (firstn 1 (filter (fun u => u_id u =? buyer) (users db)))
    as [|u us]; [reflexivity|].
  destruct (u_referred_by_id u) as [referrer|]; [|reflexivity].
  now destruct (Js.truthy_int referrer).
Qed.

End Settlement.

(** ** The status update *)

Section StatusUpdate.

Variable f : Faults.
Variable now : Pg.timestamp.
Variable input : UpdateTransactionStatusInput.

Let key := uts_transaction_id input.
Let applied :=
  set_status now (uts_status input)
    (Js.string_or_null (uts_external_transaction_id input))
    (uts_digiflazz_response input).

Lemma no_match_filter (db : Db) :
  (forall t, In t (transactions db) -> t_transaction_id t <> key) ->
  filter (has_transaction_id key) (transactions db) = [].
Proof.
  intros H.
  induction (transactions db) as [|t l IH]; simpl; [easy|].
  unfold has_transaction_id at 1.
  destruct (String.eqb_spec (t_transaction_id t) key) as [E|_].
  - exfalso. apply (H t); [now left | exact E].
  - apply IH. intros t' Ht'. apply H. now right.
Qed.

(** What the handler does once the update has matched a row: the row is
    rewritten, settlement runs when the new status is [success], and the
    rewritten row is returned whatever settlement did. *)
Lemma updateTransactionStatus_found (db : Db) (t : TransactionRow)
    (rest : list TransactionRow) :
  f UpdateTransactions = false ->
  filter (has_transaction_id key) (transactions db) = t :: rest ->
  let db1 :=
    with_transactions db (updated_rows now input (transactions db))
      (transactions_id_seq db) in
  Transactions.updateTransactionStatus f now input db
  = (Ok (Some (Transactions.convertDbTransaction (applied t))),
     if status_eqb (uts_status input) success
     then snd (Transactions.processReferralCommission f now (t_id t)
                 (t_user_id t) (Pg.parseFloat (t_amount t)) db1)
     else db1).
Proof.
  intros Hup Hfound db1.
  unfold Transactions.updateTransactionStatus, update_transactions.
  run_monad. rewrite Hup. fold key. rewrite Hfound.
  fold applied. cbn [map].
  destruct (status_eqb (uts_status input) success).
  - change (with_transactions db _ _) with db1.
    change (t_id (applied t)) with (t_id t).
    change (t_user_id (applied t)) with (t_user_id t).
    change (t_amount (applied t)) with (t_amount t).
    destruct (processReferralCommission_total f now (t_id t) (t_user_id t)
                (Pg.parseFloat (t_amount t)) db1) as (db' & E & _).
    now rewrite E.
  - reflexivity.
Qed.

(** One delivery of [success] for a transaction whose buyer has a referrer,
    on a store that answers: the ledger grows by one row. *)
Lemma success_delivery_appends (db : Db) (t : TransactionRow)
    (rest : list TransactionRow) (u : UserRow) (us : list UserRow)
    (referrer : Z) :
  f UpdateTransactions = false -> f SelectUsers = false ->
  f InsertReferral = false ->
  uts_status input = success ->
  filter (has_transaction_id key) (transactions db) = t :: rest ->
  filter (fun u => u_id u =? t_user_id t) (users db) = u :: us ->
  u_referred_by_id u = Some referrer -> referrer <> 0 ->
  Pg.numeric_ok (t_amount t) = true ->
  Transactions.updateTransactionStatus f now input db
  = (Ok (Some (Transactions.convertDbTransaction (applied t))),
     {| users := users db;
        products := products db;
        transactions := updated_rows now input (transactions db);
        referrals :=
          referrals db
          ++ [commission_row now db referrer (t_user_id t) (t_id t) (t_amount t)];
        transactions_id_seq := transactions_id_seq db;
        referrals_id_seq := referrals_id_seq db + 1 |}).
Proof.
  intros Hup Hsel Hins Hst Hfound Hu Href Hnz Hok.
  rewrite (updateTransactionStatus_found db t rest Hup Hfound).
  rewrite Hst. simpl status_eqb. cbv iota.
  erewrite processReferralCommission_inserts; eauto.
  reflexivity.
Qed.

End StatusUpdate.

(** ** Creating a transaction *)

Section Creation.

Variable f : Faults.
Variable now : Pg.timestamp.
Variable transactionId : string.
Variable input : CreateTransactionInput.
Variable db : Db.

Hypothesis users_answer : f SelectUsers = false.
Hypothesis products_answer : f SelectProducts = false.

Lemma ltb_lt (x y : Js.number) : Js.ltb x y = true <-> (x < y)%Q.
Proof.
  unfold Js.ltb. rewrite negb_true_iff, <- not_true_iff_false, Qle_bool_iff.
  split; [apply Qnot_le_lt | apply Qlt_not_le].
Qed.

Lemma gtb_gt (x y : Js.number) : Js.gtb x y = true <-> (y < x)%Q.
Proof. apply ltb_lt. Qed.

Lemma filter_first {A} (p : A -> bool) (l : list A) (x : A) :
  In x l -> p x = true -> exists y ys, filter p l = y :: ys.
Proof.
  intros Hin Hp.
  destruct (filter p l) as [|y ys] eqn:E; [|now eauto].
  assert (H : In x (filter p l)) by (apply filter_In; auto).
  rewrite E in H. contradiction.
Qed.

Lemma fresh_transaction_id :
  (forall t, In t (transactions db) -> t_transaction_id t <> transactionId) ->
  existsb (fun t => (t_transaction_id t =? transactionId)%string)
    (transactions db) = false.
Proof.
  intros Hfresh.
  apply not_true_iff_false. intros H.
  apply existsb_exists in H. destruct H as (t & Hin & E).
  apply String.eqb_eq in E. exact (Hfresh t Hin E).
Qed.

Variable u : UserRow.
Variable p : ProductRow.
Variable ps : list ProductRow.

Hypothesis buyer_exists : In u (users db).
Hypothesis buyer_id : u_id u = cti_user_id input.
Hypothesis product_found :
  filter (fun p => p_id p =? cti_product_id input) (products db) = p :: ps.
Hypothesis product_active : p_is_active p = true.

Let finalAmount :=
  Js.number_or (cti_amount input) (Pg.parseFloat (p_price p)).

Ltac enter_createTransaction :=
  unfold Transactions.createTransaction, select_user_by_id,
    select_product_by_id;
  run_monad;
  rewrite users_answer;
  destruct (filter_first (fun u => u_id u =? cti_user_id input) (users db) u
              buyer_exists (proj2 (Z.eqb_eq _ _) buyer_id))
    as (u' & us' & ->);
  cbn [firstn List.length Nat.eqb];
  rewrite products_answer, product_found;
  cbn [firstn]; rewrite product_active; cbn [negb];
  fold finalAmount.

(** Below the minimum of a range product: rejected, naming the minimum. *)
Lemma createTransaction_below_min (min_amount : Pg.numeric) :
  p_denomination_type p = range ->
  p_min_amount p = Some min_amount ->
  (finalAmount < Pg.parseFloat min_amount)%Q ->
  Transactions.createTransaction f now transactionId input db
  = (Throw (AmountAtLeast min_amount), db).
Proof.
  intros Hrange Hmin Hlt.
  enter_createTransaction.
  rewrite Hrange, Hmin. cbn [is_range].
  now rewrite (proj2 (ltb_lt _ _) Hlt).
Qed.

(** Above the maximum and not below the minimum: rejected, naming the
    maximum. *)
Lemma createTransaction_above_max (max_amount : Pg.numeric) :
  p_denomination_type p = range ->
  (forall min_amount, p_min_amount p = Some min_amount ->
                      (Pg.parseFloat min_amount <= finalAmount)%Q) ->
  p_max_amount p = Some max_amount ->
  (Pg.parseFloat max_amount < finalAmount)%Q ->
  Transactions.createTransaction f now transactionId input db
  = (Throw (AmountNotExceed max_amount), db).
Proof.
  intros Hrange Hmin Hmax Hgt.
  enter_createTransaction.
  rewrite Hrange, Hmax. cbn [is_range].
  destruct (p_min_amount p) as [mn|].
  - destruct (Js.ltb finalAmount (Pg.parseFloat mn)) eqn:E.
    + apply ltb_lt in E. specialize (Hmin mn eq_refl). lra.
    + now rewrite (proj2 (gtb_gt _ _) Hgt).
  - now rewrite (proj2 (gtb_gt _ _) Hgt).
Qed.

(** Within the bounds, or on a fixed product: the row is inserted as long
    as the amount and the price fit their columns and the generated
    transaction id is new. *)
Lemma createTransaction_accepts (amount_c : Pg.numeric) :
  f InsertTransaction = false ->
  (p_denomination_type p = range ->
   forall min_amount, p_min_amount p = Some min_amount ->
                      (Pg.parseFloat min_amount <= finalAmount)%Q) ->
  (p_denomination_type p = range ->
   forall max_amount, p_max_amount p = Some max_amount ->
                      (finalAmount <= Pg.parseFloat max_amount)%Q) ->
  Pg.to_numeric finalAmount = Some amount_c ->
  Pg.numeric_ok (p_price p) = true ->
  (forall t, In t (transactions db) -> t_transaction_id t <> transactionId) ->
  Transactions.createTransaction f now transactionId input db
  = (Ok (Transactions.convertDbTransaction
           (created_row now db transactionId input p amount_c)),
     with_transactions db
       (transactions db
        ++ [created_row now db transactionId input p amount_c])
       (transactions_id_seq db + 1)).
Proof.
  intros Hins Hmin Hmax Hamount Hprice Hfresh.
  enter_createTransaction.
  assert (Hlo : forall mn, p_denomination_type p = range ->
                  p_min_amount p = Some mn ->
                  Js.ltb finalAmount (Pg.parseFloat mn) = false).
  { intros mn Hd Hmn. apply not_true_iff_false. rewrite ltb_lt.
    specialize (Hmin Hd mn Hmn). lra. }
  assert (Hhi : forall mx, p_denomination_type p = range ->
                  p_max_amount p = Some mx ->
                  Js.gtb finalAmount (Pg.parseFloat mx) = false).
  { intros mx Hd Hmx. apply not_true_iff_false. rewrite gtb_gt.
    specialize (Hmax Hd mx Hmx). lra. }
  destruct (p_denomination_type p) eqn:Hd; cbn [is_range];
    [| destruct (p_min_amount p) as [mn|] eqn:Hmn;
       [rewrite (Hlo mn eq_refl eq_refl)|];
       (destruct (p_max_amount p) as [mx|] eqn:Hmx;
        [rewrite (Hhi mx eq_refl eq_refl)|]) ];
    unfold insert_transaction; run_monad;
    rewrite Hins; cbn [nt_amount nt_price nt_transaction_id];
    rewrite Hamount, (to_numeric_parseFloat _ Hprice);
    rewrite (fresh_transaction_id Hfresh);
    reflexivity.
Qed.

End Creation.



(** ** Grouping the rows of a join *)

Section GroupingFacts.

Context {L K : Type}.
Variable key : L -> K.
Variable key_eqb : K -> K -> bool.
Hypothesis key_eqb_eq : forall a b, key_eqb a b = true <-> a = b.

Let add := fun groups x => Sql.add_to_group key key_eqb x groups.

Lemma add_to_group_new (x : L) (groups : list (K * list L)) :
  (forall g, In g groups -> fst g <> key x) ->
  Sql.add_to_group key key_eqb x groups = groups ++ [(key x, [x])].
Proof.
  induction groups as [|[k rows] rest IH]; simpl; intros H; [reflexivity|].
  destruct (key_eqb (key x) k) eqn:E.
  - apply key_eqb_eq in E. exfalso.
    apply (H (k, rows)); [now left | now symmetry].
  - f_equal. apply IH. intros g Hg. apply H. now right.
Qed.

Lemma add_to_group_last (x : L) (groups : list (K * list L)) (k : K)
    (rows : list L) :
  (forall g, In g groups -> fst g <> k) -> key x = k ->
  Sql.add_to_group key key_eqb x (groups ++ [(k, rows)])
  = groups ++ [(k, rows ++ [x])].
Proof.
  intros H Hk.
  induction groups as [|[k' rows'] rest IH]; simpl.
  - rewrite (proj2 (key_eqb_eq (key x) k) Hk). reflexivity.
  - destruct (key_eqb (key x) k') eqn:E.
    + apply key_eqb_eq in E. exfalso.
      apply (H (k', rows')); [now left | simpl; congruence].
    + f_equal. apply IH. intros g Hg. apply H. now right.
Qed.

Lemma fold_into_last_group (block : list L) :
  forall (groups : list (K * list L)) (k : K) (rows : list L),
    (forall g, In g groups -> fst g <> k) ->
    (forall x, In x block -> key x = k) ->
    fold_left add block (groups ++ [(k, rows)])
    = groups ++ [(k, rows ++ block)].
Proof.
  induction block as [|x block IH]; intros groups k rows Hnew Hkey; simpl.
  - now rewrite app_nil_r.
  - unfold add at 2.
    rewrite add_to_group_last by (auto; apply Hkey; now left).
    rewrite IH; auto.
    + now rewrite <- app_assoc.
    + intros y Hy. apply Hkey. now right.
Qed.

(** Rows that share a key no earlier group has form one new group. *)
Lemma fold_new_group (x : L) (block : list L) (groups : list (K * list L)) :
  (forall g, In g groups -> fst g <> key x) ->
  (forall y, In y block -> key y = key x) ->
  fold_left add (x :: block) groups = groups ++ [(key x, x :: block)].
Proof.
  intros Hnew Hkey. simpl. unfold add at 2.
  rewrite add_to_group_new by exact Hnew.
  now rewrite fold_into_last_group.
Qed.

(** A table that comes in blocks, one per key, groups into its blocks. *)
Lemma group_blocks {U : Type} (block : U -> list L) (ukey : U -> K)
    (us : list U) :
  forall groups : list (K * list L),
    (forall u, In u us -> block u <> []) ->
    (forall u x, In u us -> In x (block u) -> key x = ukey u) ->
    NoDup (map ukey us) ->
    (forall g u, In g groups -> In u us -> fst g <> ukey u) ->
    fold_left add (flat_map block us) groups
    = groups ++ map (fun u => (ukey u, block u)) us.
Proof.
  induction us as [|u us IH]; intros groups Hne Hkey Hnodup Hnew; simpl.
  - now rewrite app_nil_r.
  - rewrite fold_left_app.
    destruct (block u) as [|x b] eqn:Eb; [now destruct (Hne u (or_introl eq_refl))|].
    assert (Hx : key x = ukey u)
      by (apply Hkey; [now left | rewrite Eb; now left]).
    rewrite fold_new_group.
    + rewrite Hx. rewrite IH.
      * now rewrite <- app_assoc.
      * intros u' Hu'. apply Hne. now right.
      * intros u' y Hu'. apply Hkey. now right.
      * now inversion Hnodup.
      * intros g u' Hg Hu'.
        apply in_app_or in Hg. destruct Hg as [Hg|[<-|[]]].
        -- apply Hnew; [exact Hg | now right].
        -- simpl. inversion Hnodup as [|? ? Hnotin _]; subst.
           intros E. apply Hnotin. rewrite E. now apply in_map.
    + intros g Hg. rewrite Hx. apply Hnew; [exact Hg | now left].
    + intros y Hy. rewrite Hx. apply Hkey; [now left | rewrite Eb; now right].
Qed.

Lemma group_by_blocks {U : Type} (block : U -> list L) (ukey : U -> K)
    (us : list U) :
  (forall u, In u us -> block u <> []) ->
  (forall u x, In u us -> In x (block u) -> key x = ukey u) ->
  NoDup (map ukey us) ->
  Sql.group_by key key_eqb (flat_map block us)
  = map (fun u => (ukey u, block u)) us.
Proof.
  intros Hne Hkey Hnodup. unfold Sql.group_by.
  apply (group_blocks block ukey us [] Hne Hkey Hnodup).
  intros g u [].
Qed.

End GroupingFacts.

Section ListFacts.

Context {A B : Type}.

Lemma NoDup_map_filter (g : A -> B) (q : A -> bool) (l : list A) :
  NoDup (map g l) -> NoDup (map g (filter q l)).
Proof.
  induction l as [|x l IH]; simpl; intros H; [constructor|].
  inversion H as [|? ? Hnotin Hrest]; subst.
  destruct (q x); simpl; [constructor|]; auto.
  intros Hin. apply Hnotin.
  apply in_map_iff in Hin. destruct Hin as (y & E & Hy).
  apply filter_In in Hy. rewrite <- E. apply in_map. tauto.
Qed.

Lemma NoDup_map_finer {C : Type} (g : A -> B) (h : A -> C) (l : list A) :
  (forall a b, h a = h b -> g a = g b) ->
  NoDup (map g l) -> NoDup (map h l).
Proof.
  intros Hfiner.
  induction l as [|x l IH]; simpl; intros H; [constructor|].
  inversion H as [|? ? Hnotin Hrest]; subst.
  constructor; [|auto].
  intros Hin. apply Hnotin.
  apply in_map_iff in Hin. destruct Hin as (y & E & Hy).
  rewrite <- (Hfiner _ _ E). now apply in_map.
Qed.

Lemma filter_twice (p q : A -> bool) (l : list A) :
  filter p (filter q l) = filter (fun x => p x && q x) l.
Proof.
  induction l as [|x l IH]; simpl; [reflexivity|].
  destruct (q x); simpl; destruct (p x); simpl; now rewrite ?IH.
Qed.

End ListFacts.

(** ** The referral listing *)

Section ReferralListing.

Variable rows : list TransactionRow.

Lemma left_join_blocks (us : list UserRow) :
  Sql.left_join us rows Referrals.successful_purchase_of
  = flat_map (joined_rows rows) us.
Proof. reflexivity. Qed.

Lemma joined_rows_fst (u : UserRow) (row : UserRow * option TransactionRow) :
  In row (joined_rows rows u) -> fst row = u.
Proof.
  unfold joined_rows.
  destruct (filter (Referrals.successful_purchase_of u) rows) as [|t ts].
  - intros [<-|[]]. reflexivity.
  - intros H. apply in_map_iff in H. destruct H as (t' & <- & _). reflexivity.
Qed.

Lemma joined_rows_nonempty (u : UserRow) : joined_rows rows u <> [].
Proof.
  unfold joined_rows.
  destruct (filter (Referrals.successful_purchase_of u) rows); discriminate.
Qed.

Lemma filter_block (q : UserRow -> bool) (u : UserRow) :
  filter (fun row => q (fst row)) (joined_rows rows u)
  = if q u then joined_rows rows u else [].
Proof.
  assert (H := joined_rows_fst u).
  induction (joined_rows rows u) as [|row l IH]; simpl.
  - now destruct (q u).
  - rewrite (H row (or_introl eq_refl)).
    rewrite IH by (intros r Hr; apply H; now right).
    now destruct (q u).
Qed.

(** The [WHERE] on the user commutes with the join. *)
Lemma filter_joined (q : UserRow -> bool) (us : list UserRow) :
  filter (fun row => q (fst row)) (flat_map (joined_rows rows) us)
  = flat_map (joined_rows rows) (filter q us).
Proof.
  induction us as [|u us IH]; simpl; [reflexivity|].
  rewrite filter_app, filter_block, IH.
  now destruct (q u).
Qed.

(** [count(transactions.id)] of a group: its successful purchases. *)
Lemma count_joined (u : UserRow) :
  Sql.count (fun row => option_map t_id (snd row)) (joined_rows rows u)
  = Z.of_nat
      (List.length (filter (Referrals.successful_purchase_of u) rows)).
Proof.
  unfold joined_rows, Sql.count.
  destruct (filter (Referrals.successful_purchase_of u) rows) as [|t ts];
    [reflexivity|].
  f_equal.
  induction (t :: ts) as [|t' l IH]; simpl; [reflexivity|].
  now rewrite IH.
Qed.

Lemma sum_from (u : UserRow) (ts : list TransactionRow) :
  forall a : Pg.numeric,
    fold_left
      (fun acc (row : UserRow * option TransactionRow) =>
         match option_map t_price (snd row), acc with
         | Some v, Some a => Some (a + v)
         | Some v, None => Some v
         | None, _ => acc
         end)
      (map (fun t => (u, Some t)) ts) (Some a)
    = Some (a + fold_right Z.add 0 (map t_price ts)).
Proof.
  induction ts as [|t ts IH]; intros a; simpl.
  - now rewrite Z.add_0_r.
  - rewrite IH. now rewrite Z.add_assoc.
Qed.

(** [COALESCE(SUM(transactions.price), 0)] of a group: the summed price of
    its successful purchases. *)
Lemma sum_joined (u : UserRow) :
  Sql.coalesce
    (Sql.sum (fun row => option_map t_price (snd row)) (joined_rows rows u)) 0
  = fold_right Z.add 0
      (map t_price (filter (Referrals.successful_purchase_of u) rows)).
Proof.
  unfold joined_rows, Sql.sum.
  destruct (filter (Referrals.successful_purchase_of u) rows) as [|t ts];
    [reflexivity|].
  cbn [map fold_left snd option_map].
  now rewrite sum_from.
Qed.

End ReferralListing.

Lemma group_key_eqb_eq (a b : Z * string * string * Pg.timestamp) :
  Referrals.group_key_eqb a b = true <-> a = b.
Proof.
  destruct a as [[[i n] e] c], b as [[[i' n'] e'] c'].
  unfold Referrals.group_key_eqb.
  rewrite !andb_true_iff, !Z.eqb_eq, !String.eqb_eq.
  split; [intros [[[-> ->] ->] ->]; reflexivity | intros E; now inversion E].
Qed.

Lemma successful_purchases_split (db : Db) (u : UserRow) :
  filter (Referrals.successful_purchase_of u) (transactions db)
  = filter (fun t => t_user_id t =? u_id u)
      (filter (fun t => status_eqb (t_status t) success) (transactions db)).
Proof. now rewrite filter_twice. Qed.

Lemma table_order_rearranges : Sql.rearranges Sql.table_order.
Proof. intros A rows. apply Permutation_refl. Qed.

Lemma backwards_rearranges : Sql.rearranges Sql.backwards.
Proof. intros A rows. apply Permutation_sym, Permutation_rev. Qed.

(** The listing, computed: the store's arrangement of one row per
    referred user. *)
Lemma getUserReferrals_run (f : Faults) (order : Sql.RowOrder) (userId : Z)
    (db : Db) :
  f SelectReferredUsers = false ->
  NoDup (map u_id (users db)) ->
  exists rows,
    Referrals.getUserReferrals f order userId db
    = (Ok {| Referrals.referred_users := rows;
             Referrals.total_referred := Z.of_nat (List.length rows) |}, db)
    /\ (Sql.rearranges order ->
        Permutation rows
          (map (referred_entry db)
             (filter (Referrals.is_referred_by userId) (users db))))
    /\ (order = Sql.table_order ->
        rows = map (referred_entry db)
                 (filter (Referrals.is_referred_by userId) (users db))).
Proof.
  intros Hf Hnodup.
  unfold Referrals.getUserReferrals. run_monad. rewrite Hf.
  rewrite left_join_blocks, filter_joined.
  rewrite (group_by_blocks Referrals.group_key Referrals.group_key_eqb
             group_key_eqb_eq (joined_rows (transactions db)) user_key).
  - eexists. split; [reflexivity|].
    assert (Hrows :
      forall l,
        map
          (fun user : Z * string * string * Pg.timestamp * Z * Pg.numeric =>
             let '(i, n, e, c, cnt, spent) := user in
             {| Referrals.id := i; Referrals.full_name := n;
                Referrals.email := e; Referrals.joined_date := c;
                Referrals.total_transactions := cnt;
                Referrals.total_spent := Pg.parseFloat spent |})
          (map
             (fun g : Z * string * string * Pg.timestamp
                      * list (UserRow * option TransactionRow) =>
                let '(i, n, e, c) := fst g in
                (i, n, e, c,
                 Sql.count (fun row => option_map t_id (snd row)) (snd g),
                 Sql.coalesce
                   (Sql.sum (fun row => option_map t_price (snd row)) (snd g))
                   0))
             (map (fun u => (user_key u, joined_rows (transactions db) u)) l))
        = map (referred_entry db) l).
    { intros l. rewrite !map_map. apply map_ext. intros u.
      cbn [fst snd user_key].
      rewrite count_joined, sum_joined, successful_purchases_split.
      reflexivity. }
    split.
    + intros Horder. rewrite <- Hrows.
      apply Permutation_map, Horder.
    + intros ->. unfold Sql.table_order. apply Hrows.
  - intros u _. apply joined_rows_nonempty.
  - intros u row _ Hrow. apply joined_rows_fst in Hrow.
    unfold Referrals.group_key. now rewrite Hrow.
  - apply NoDup_map_filter.
    apply (NoDup_map_finer u_id user_key); [|exact Hnodup].
    intros a b E. now inversion E.
Qed.

(* ================================================================== *)
(** * The claims of the specification *)

(** ** Repeated delivery of [success] *)

(** C1, counterexample.  The referred buyer's order receives the same
    [success] callback twice: the ledger then holds two Referral records for
    that transaction, not one. *)
Lemma success_twice_leaves_two_referrals :
  let deliver :=
    Transactions.updateTransactionStatus healthy 20
      (Fixture.callback "TXN_1" success) in
  let ledger :=
    referrals_of_transaction 1
      (snd (deliver (snd (deliver Fixture.shop_with_order)))) in
  List.length ledger = 2%nat /\ List.length ledger <> 1%nat.
Proof. vm_compute. split; [reflexivity | discriminate]. Qed.

(** C1, as the code has it.  The ledger keeps no uniqueness on the
    transaction: every delivery of [success] for a stored transaction whose
    buyer has a referrer appends one more Referral record for it, so after
    one delivery the transaction has one record more than before and after
    a second, identical delivery it has two more. *)
Theorem each_success_delivery_adds_a_referral
    (f : Faults) (now later : Pg.timestamp)
    (input : UpdateTransactionStatusInput) (db : Db)
    (t : TransactionRow) (rest : list TransactionRow)
    (u : UserRow) (us : list UserRow) (referrer : Z) :
  f UpdateTransactions = false -> f SelectUsers = false ->
  f InsertReferral = false ->
  uts_status input = success ->
  filter (has_transaction_id (uts_transaction_id input)) (transactions db)
    = t :: rest ->
  filter (fun u => u_id u =? t_user_id t) (users db) = u :: us ->
  u_referred_by_id u = Some referrer -> referrer <> 0 ->
  Pg.numeric_ok (t_amount t) = true ->
  let once := snd (Transactions.updateTransactionStatus f now input db) in
  let twice := snd (Transactions.updateTransactionStatus f later input once) in
  List.length (referrals_of_transaction (t_id t) once)
    = S (List.length (referrals_of_transaction (t_id t) db))
  /\ List.length (referrals_of_transaction (t_id t) twice)
    = S (S (List.length (referrals_of_transaction (t_id t) db))).
Proof.
  intros Hup Hsel Hins Hst Hfound Hu Href Hnz Hok once twice.
  assert (E1 := success_delivery_appends f now input db t rest u us referrer
                  Hup Hsel Hins Hst Hfound Hu Href Hnz Hok).
  assert (Hfound' :
    filter (has_transaction_id (uts_transaction_id input)) (transactions once)
    = map (set_status now (uts_status input)
             (Js.string_or_null (uts_external_transaction_id input))
             (uts_digiflazz_response input)) (t :: rest)).
  { unfold once. rewrite E1. cbn [snd transactions]. unfold updated_rows.
    rewrite filter_updated by reflexivity. now rewrite Hfound. }
  cbn [map] in Hfound'.
  assert (E2 := success_delivery_appends f later input once _ _ u us referrer
                  Hup Hsel Hins Hst Hfound').
  cbn [t_user_id t_amount set_status] in E2.
  assert (Husers : users once = users db) by (unfold once; now rewrite E1).
  rewrite Husers in E2.
  specialize (E2 Hu Href Hnz Hok).
  assert (L1 : referrals once
               = referrals db
                 ++ [commission_row now db referrer (t_user_id t) (t_id t)
                       (t_amount t)])
    by (unfold once; now rewrite E1).
  assert (L2 : referrals twice
               = referrals once
                 ++ [commission_row later once referrer (t_user_id t) (t_id t)
                       (t_amount t)])
    by (unfold twice; now rewrite E2).
  unfold referrals_of_transaction.
  rewrite L2, L1, !filter_app_one. cbn [commission_row r_transaction_id].
  rewrite Z.eqb_refl, !length_app. cbn [List.length]. lia.
Qed.

Lemma each_success_delivery_adds_a_referral_witness :
  let once :=
    snd (Transactions.updateTransactionStatus healthy 20
           (Fixture.callback "TXN_1" success) Fixture.shop_with_order) in
  let twice :=
    snd (Transactions.updateTransactionStatus healthy 30
           (Fixture.callback "TXN_1" success) once) in
  List.length (referrals_of_transaction (t_id Fixture.order_row) once)
    = S (List.length
           (referrals_of_transaction (t_id Fixture.order_row)
              Fixture.shop_with_order))
  /\ List.length (referrals_of_transaction (t_id Fixture.order_row) twice)
    = S (S (List.length
              (referrals_of_transaction (t_id Fixture.order_row)
                 Fixture.shop_with_order))).
Proof.
  apply (each_success_delivery_adds_a_referral healthy 20 30
           (Fixture.callback "TXN_1" success) Fixture.shop_with_order
           Fixture.order_row [] Fixture.buyer [] 1);
    try reflexivity.
  lia.
Defined.

(** ** Unknown transaction *)

(** C5.  A status update whose [transaction_id] matches no stored
    transaction returns null, throws nothing, and leaves the store as it
    was. *)
Theorem unknown_transaction_returns_null
    (f : Faults) (now : Pg.timestamp) (input : UpdateTransactionStatusInput)
    (db : Db) :
  f UpdateTransactions = false ->
  (forall t, In t (transactions db) ->
             t_transaction_id t <> uts_transaction_id input) ->
  Transactions.updateTransactionStatus f now input db = (Ok None, db).
Proof.
  intros Hup Hnone.
  apply (no_match_filter input) in Hnone.
  unfold Transactions.updateTransactionStatus, update_transactions.
  run_monad. rewrite Hup, Hnone. cbn [map].
  rewrite map_unmatched by exact Hnone.
  now rewrite with_transactions_same.
Qed.

Lemma unknown_transaction_returns_null_witness :
  Transactions.updateTransactionStatus healthy 20
    (Fixture.callback "NON_EXISTENT" failed) Fixture.shop_with_order
  = (Ok None, Fixture.shop_with_order).
Proof.
  apply unknown_transaction_returns_null; [reflexivity|].
  intros t [<-|[]]. vm_compute. discriminate.
Defined.

(** ** Settlement failure *)

(** C6.  A success update that has matched a transaction returns that
    transaction with the status success, the external id and the payload
    of the request, whatever the fault plan does to the settlement step.
    In the table, every transaction with the transaction id of the request
    then has that status, external id and payload, the matched one among
    them, and the other transactions are as they were.  When a store call
    of the settlement step throws, users, products and the ledger are as
    they were: the update is all that happened. *)
Theorem settlement_failure_is_swallowed
    (f : Faults) (now : Pg.timestamp) (input : UpdateTransactionStatusInput)
    (db : Db) (t : TransactionRow) (rest : list TransactionRow) :
  f UpdateTransactions = false ->
  uts_status input = success ->
  filter (has_transaction_id (uts_transaction_id input)) (transactions db)
    = t :: rest ->
  exists (returned : Transaction) (db' : Db),
    Transactions.updateTransactionStatus f now input db
      = (Ok (Some returned), db')
    /\ status returned = success
    /\ external_transaction_id returned
       = Js.string_or_null (uts_external_transaction_id input)
    /\ digiflazz_response returned = uts_digiflazz_response input
    /\ updated_at returned = now
    /\ (id returned, transaction_id returned, amount returned, price returned)
       = (t_id t, uts_transaction_id input, Pg.parseFloat (t_amount t),
          Pg.parseFloat (t_price t))
    /\ List.length (transactions db') = List.length (transactions db)
    /\ (exists r, In r (transactions db') /\ t_id r = t_id t
                   /\ t_transaction_id r = uts_transaction_id input)
    /\ (forall r,
          In r (transactions db') ->
          t_transaction_id r = uts_transaction_id input ->
          t_status r = success
          /\ t_external_transaction_id r
             = Js.string_or_null (uts_external_transaction_id input)
          /\ t_digiflazz_response r = uts_digiflazz_response input
          /\ t_updated_at r = now)
    /\ (forall r,
          t_transaction_id r <> uts_transaction_id input ->
          In r (transactions db') <-> In r (transactions db))
    /\ (f SelectUsers = true \/ f InsertReferral = true ->
        users db' = users db /\ products db' = products db
        /\ referrals db' = referrals db
        /\ referrals_id_seq db' = referrals_id_seq db).
Proof.
  intros Hup Hst Hfound.
  rewrite (updateTransactionStatus_found f now input db t rest Hup Hfound).
  rewrite Hst. cbn [status_eqb].
  destruct (processReferralCommission_total f now (t_id t) (t_user_id t)
              (Pg.parseFloat (t_amount t))
              (with_transactions db (updated_rows now input (transactions db))
                 (transactions_id_seq db)))
    as (db' & E & _ & _ & Htx & _).
  assert (Ht : In t (transactions db)
               /\ t_transaction_id t = uts_transaction_id input).
  { assert (H : In t (filter (has_transaction_id (uts_transaction_id input))
                        (transactions db))) by (rewrite Hfound; now left).
    apply filter_In in H. destruct H as [H Hkey].
    split; [exact H | now apply String.eqb_eq in Hkey]. }
  destruct Ht as [Hin Hkey].
  do 2 eexists. split; [reflexivity|].
  cbn [Transactions.convertDbTransaction set_status status
       external_transaction_id digiflazz_response updated_at id
       transaction_id amount price t_status t_external_transaction_id
       t_digiflazz_response t_updated_at t_id t_transaction_id t_amount
       t_price].
  rewrite ?Hst, ?Hkey.
  do 5 (split; [reflexivity|]).
  rewrite E. cbn [snd]. rewrite Htx.
  cbn [with_transactions transactions]. unfold updated_rows.
  split; [apply length_map|]. split; [|split; [|split]].
  - exists (set_status now success
              (Js.string_or_null (uts_external_transaction_id input))
              (uts_digiflazz_response input) t).
    split; [|split; [reflexivity | exact Hkey]].
    apply in_map_iff. exists t. split; [|exact Hin].
    unfold has_transaction_id.
    now rewrite Hkey, String.eqb_refl, Hst.
  - intros r Hr Hmine. apply in_map_iff in Hr.
    destruct Hr as (q & <- & _). unfold has_transaction_id in *.
    destruct (t_transaction_id q =? uts_transaction_id input)%string eqn:Eq.
    + cbn [set_status t_status t_external_transaction_id
           t_digiflazz_response t_updated_at]. now rewrite Hst.
    + apply String.eqb_neq in Eq. contradiction.
  - intros r Hother. rewrite in_map_iff. unfold has_transaction_id. split.
    + intros (q & <- & Hq).
      destruct (t_transaction_id q =? uts_transaction_id input)%string eqn:Eq;
        [|exact Hq].
      apply String.eqb_eq in Eq. now destruct Hother.
    + intros Hr. exists r. split; [|exact Hr].
      apply String.eqb_neq in Hother. now rewrite Hother.
  - intros Hfault.
    rewrite processReferralCommission_fault in E by exact Hfault.
    injection E as <-. now cbn.
Qed.

Lemma settlement_failure_is_swallowed_witness :
  exists (returned : Transaction) (db' : Db),
    Transactions.updateTransactionStatus Fixture.ledger_down 20
      (Fixture.callback "TXN_1" success) Fixture.shop_with_order
      = (Ok (Some returned), db')
    /\ (status returned, external_transaction_id returned,
        digiflazz_response returned)
       = (success, Some "EXT_123456"%string, Some "{}"%string)
    /\ map (fun r => (t_transaction_id r, t_status r,
                      t_external_transaction_id r, t_digiflazz_response r))
         (transactions db')
       = [("TXN_1"%string, success, Some "EXT_123456"%string,
           Some "{}"%string)]
    /\ map t_status (transactions Fixture.shop_with_order) = [pending]
    /\ referrals db' = [].
Proof.
  destruct (settlement_failure_is_swallowed Fixture.ledger_down 20
              (Fixture.callback "TXN_1" success) Fixture.shop_with_order
              Fixture.order_row [] eq_refl eq_refl eq_refl)
    as (returned & db' & Hrun & Hs & He & Hp & _ & _ & _ & _ & _ & _ & Hledger).
  exists returned, db'. split; [exact Hrun|].
  split; [now rewrite Hs, He, Hp|].
  assert (E : snd (Transactions.updateTransactionStatus Fixture.ledger_down 20
                     (Fixture.callback "TXN_1" success)
                     Fixture.shop_with_order) = db')
    by exact (f_equal snd Hrun).
  vm_compute in E. subst db'.
  split; [reflexivity|]. split; reflexivity.
Defined.

(** ** Amount of a new transaction *)

(** C3, the code at the failing input.  The range product accepts
    5000.00 to 50000.00 and is priced at 10000.00.  The bounds are tested:
    a purchase that supplies the amount 1000 is rejected with the minimum
    named.  A purchase that supplies the amount 0, which is strictly below
    the minimum, is not rejected: it runs as the purchase without an
    amount, and a pending transaction is stored with the price as its
    amount. *)
Theorem range_check_misses_a_zero_amount :
  let db := Fixture.empty_shop in
  let run amount :=
    Transactions.createTransaction healthy 10 "TXN_1"
      (Fixture.purchase 2 2 amount) db in
  (p_denomination_type Fixture.data_range,
   p_min_amount Fixture.data_range, p_max_amount Fixture.data_range,
   p_price Fixture.data_range)
  = (range, Some 500000, Some 5000000, 1000000)
  /\ Js.ltb 0%Q (Pg.parseFloat 500000) = true
  /\ run (Some 1000%Q) = (Throw (AmountAtLeast 500000), db)
  /\ run (Some 0%Q) = run None
  /\ fst (run (Some 0%Q)) <> Throw (AmountAtLeast 500000)
  /\ exists created db',
       run (Some 0%Q) = (Ok created, db')
       /\ amount created = Pg.parseFloat 1000000
       /\ price created = Pg.parseFloat 1000000
       /\ status created = pending
       /\ map (fun t => (t_transaction_id t, t_user_id t, t_product_id t,
                         t_amount t, t_status t))
            (transactions db')
          = [("TXN_1"%string, 2, 2, 1000000, pending)].
Proof.
  vm_compute. do 4 (split; [reflexivity|]). split; [discriminate|].
  do 2 eexists. repeat split.
Qed.

(** Amounts other than zero go through the bounds test.  For a range
    product with both bounds, an existing buyer, an active product and a
    new transaction id: a supplied amount other than zero is rejected with
    the minimum named when it is strictly below the minimum, rejected with
    a violated bound named when it is strictly above the maximum (the
    minimum is tested first), and accepted when it lies within the
    bounds. *)
Theorem range_amount_is_validated
    (f : Faults) (now : Pg.timestamp) (transactionId : string)
    (input : CreateTransactionInput) (db : Db)
    (u : UserRow) (p : ProductRow) (ps : list ProductRow)
    (a : Js.number) (min_amount max_amount : Pg.numeric) :
  f SelectUsers = false -> f SelectProducts = false ->
  f InsertTransaction = false ->
  In u (users db) -> u_id u = cti_user_id input ->
  filter (fun p => p_id p =? cti_product_id input) (products db) = p :: ps ->
  p_is_active p = true ->
  p_denomination_type p = range ->
  p_min_amount p = Some min_amount -> p_max_amount p = Some max_amount ->
  Pg.numeric_ok min_amount = true -> Pg.numeric_ok max_amount = true ->
  Pg.numeric_ok (p_price p) = true ->
  (forall t, In t (transactions db) -> t_transaction_id t <> transactionId) ->
  cti_amount input = Some a -> ~ (a == 0)%Q ->
  let run := Transactions.createTransaction f now transactionId input db in
  ((a < Pg.parseFloat min_amount)%Q ->
     run = (Throw (AmountAtLeast min_amount), db))
  /\ ((Pg.parseFloat max_amount < a)%Q ->
        run = (Throw (AmountNotExceed max_amount), db)
        \/ ((a < Pg.parseFloat min_amount)%Q
            /\ run = (Throw (AmountAtLeast min_amount), db)))
  /\ ((Pg.parseFloat min_amount <= a)%Q /\ (a <= Pg.parseFloat max_amount)%Q ->
        exists created db',
          run = (Ok created, db')
          /\ amount created = Pg.parseFloat (Pg.round_scale2 a)
          /\ status created = pending
          /\ transactions db'
             = transactions db
               ++ [created_row now db transactionId input p
                     (Pg.round_scale2 a)]).
Proof.
  intros Hsel Hprod Hins Hu Hid Hfound Hactive Hrange Hmin Hmax
         Hokmin Hokmax Hokprice Hfresh Hamount Hnz run.
  assert (Hfinal :
    Js.number_or (cti_amount input) (Pg.parseFloat (p_price p)) = a).
  { rewrite Hamount. unfold Js.number_or, Js.truthy_number.
    destruct (Qeq_bool a 0) eqn:E; [|reflexivity].
    apply Qeq_bool_eq in E. contradiction. }
  split; [|split].
  - intros Hlt. unfold run.
    apply (createTransaction_below_min f now transactionId input db
             Hsel Hprod u p ps Hu Hid Hfound Hactive min_amount Hrange Hmin).
    now rewrite Hfinal.
  - intros Hgt.
    destruct (Qlt_le_dec a (Pg.parseFloat min_amount)) as [Hlt|Hge].
    + right. split; [exact Hlt|]. unfold run.
      apply (createTransaction_below_min f now transactionId input db
               Hsel Hprod u p ps Hu Hid Hfound Hactive min_amount Hrange Hmin).
      now rewrite Hfinal.
    + left. unfold run.
      apply (createTransaction_above_max f now transactionId input db
               Hsel Hprod u p ps Hu Hid Hfound Hactive max_amount Hrange).
      * intros mn Hmn. rewrite Hfinal.
        rewrite Hmin in Hmn. now injection Hmn as <-.
      * exact Hmax.
      * now rewrite Hfinal.
  - intros [Hlo Hhi].
    assert (Hfits : Pg.to_numeric a = Some (Pg.round_scale2 a))
      by (apply (to_numeric_between a min_amount max_amount); assumption).
    do 2 eexists. split; [|split; [|split]].
    + unfold run.
      apply (createTransaction_accepts f now transactionId input db
               Hsel Hprod u p ps Hu Hid Hfound Hactive (Pg.round_scale2 a) Hins).
      * intros _ mn Hmn. rewrite Hfinal.
        rewrite Hmin in Hmn. now injection Hmn as <-.
      * intros _ mx Hmx. rewrite Hfinal.
        rewrite Hmax in Hmx. now injection Hmx as <-.
      * now rewrite Hfinal.
      * exact Hokprice.
      * exact Hfresh.
    + reflexivity.
    + reflexivity.
    + reflexivity.
Qed.

Lemma range_amount_is_validated_witness :
  let db := Fixture.empty_shop in
  let run amount :=
    Transactions.createTransaction healthy 10 "TXN_1"
      (Fixture.purchase 2 2 (Some amount)) db in
  run 1000%Q = (Throw (AmountAtLeast 500000), db)
  /\ run 100000%Q = (Throw (AmountNotExceed 5000000), db)
  /\ exists created db',
       run 25000%Q = (Ok created, db')
       /\ amount created = Pg.parseFloat 2500000
       /\ status created = pending.
Proof.
  assert (H : forall amount, ~ (amount == 0)%Q -> _ /\ _ /\ _)
    by (intros amount Hnz;
        exact (range_amount_is_validated healthy 10 "TXN_1"
                 (Fixture.purchase 2 2 (Some amount)) Fixture.empty_shop
                 Fixture.buyer Fixture.data_range [] amount 500000 5000000
                 eq_refl eq_refl eq_refl (or_intror (or_introl eq_refl))
                 eq_refl eq_refl eq_refl eq_refl eq_refl eq_refl eq_refl
                 eq_refl eq_refl (fun t (Hin : In t []) => match Hin with end)
                 eq_refl Hnz)).
  split; [|split].
  - apply (H 1000%Q); [discriminate | reflexivity].
  - destruct (proj1 (proj2 (H 100000%Q ltac:(discriminate))))
      as [E|[Hlt _]]; [reflexivity | exact E | discriminate Hlt].
  - destruct (proj2 (proj2 (H 25000%Q ltac:(discriminate))))
      as (created & db' & E & Ha & Hs & _).
    + split; discriminate.
    + exists created, db'. auto.
Defined.

(** C4.  For a fixed product, an existing buyer and a new transaction id, a
    purchase without an amount creates a pending transaction whose amount
    and price both equal the product's price. *)
Theorem omitted_amount_defaults_to_price
    (f : Faults) (now : Pg.timestamp) (transactionId : string)
    (input : CreateTransactionInput) (db : Db)
    (u : UserRow) (p : ProductRow) (ps : list ProductRow) :
  f SelectUsers = false -> f SelectProducts = false ->
  f InsertTransaction = false ->
  In u (users db) -> u_id u = cti_user_id input ->
  filter (fun p => p_id p =? cti_product_id input) (products db) = p :: ps ->
  p_is_active p = true ->
  p_denomination_type p = fixed ->
  Pg.numeric_ok (p_price p) = true ->
  (forall t, In t (transactions db) -> t_transaction_id t <> transactionId) ->
  cti_amount input = None ->
  exists created db',
    Transactions.createTransaction f now transactionId input db
      = (Ok created, db')
    /\ amount created = Pg.parseFloat (p_price p)
    /\ price created = Pg.parseFloat (p_price p)
    /\ status created = pending
    /\ transactions db'
       = transactions db
         ++ [created_row now db transactionId input p (p_price p)].
Proof.
  intros Hsel Hprod Hins Hu Hid Hfound Hactive Hfixed Hokprice Hfresh Hnone.
  do 2 eexists. split; [|split; [|split; [|split]]].
  - apply (createTransaction_accepts f now transactionId input db
             Hsel Hprod u p ps Hu Hid Hfound Hactive (p_price p) Hins).
    + rewrite Hfixed. discriminate.
    + rewrite Hfixed. discriminate.
    + rewrite Hnone. apply to_numeric_parseFloat, Hokprice.
    + exact Hokprice.
    + exact Hfresh.
  - reflexivity.
  - reflexivity.
  - reflexivity.
  - reflexivity.
Qed.

Lemma omitted_amount_defaults_to_price_witness :
  exists created db',
    Transactions.createTransaction healthy 10 "TXN_1"
      (Fixture.purchase 2 1 None) Fixture.empty_shop
      = (Ok created, db')
    /\ amount created = Pg.parseFloat 550000
    /\ price created = Pg.parseFloat 550000
    /\ status created = pending
    /\ transactions db'
       = transactions Fixture.empty_shop
         ++ [created_row 10 Fixture.empty_shop "TXN_1"
               (Fixture.purchase 2 1 None) Fixture.mobile_5k 550000].
Proof.
  apply (omitted_amount_defaults_to_price healthy 10 "TXN_1"
           (Fixture.purchase 2 1 None) Fixture.empty_shop
           Fixture.buyer Fixture.mobile_5k []);
    try reflexivity.
  - right; left; reflexivity.
  - intros t [].
Defined.



(** ** Commission settlement *)

(** C2, the code at the failing input.  The referred buyer orders 25000.00
    of the range product, which is charged at 10000.00, and the order is
    reported successful.  The status update records one unpaid Referral
    whose commission is 1250.00, five percent of the amount; five percent
    of the charged price is 500.00, which is what the standalone settlement
    procedure of the referral routes records for the same transaction. *)
Theorem commission_is_taken_from_the_amount :
  let shop := Fixture.shop_with_range_order in
  let settled :=
    snd (Transactions.updateTransactionStatus healthy 20
           (Fixture.callback "TXN_1" success) shop) in
  let standalone :=
    snd (Referrals.processReferralCommission healthy 20 1 shop) in
  map (fun t => (t_id t, t_amount t, t_price t)) (transactions shop)
    = [(1, 2500000, 1000000)]
  /\ map (fun r => (r_referrer_id r, r_referred_id r, r_transaction_id r,
                    r_is_paid r, r_commission_amount r))
       (referrals settled)
     = [(1, 2, 1, false, 125000)]
  /\ Pg.to_numeric (Transactions.calculateCommission (Pg.parseFloat 1000000))
     = Some 50000
  /\ map r_commission_amount (referrals standalone) = [50000].
Proof. vm_compute. repeat split. Qed.

(** ** Referral listing *)

(** C7.  With user ids unique, and in whatever order the store returns
    the groups, the listing for [userId] holds exactly one entry per user
    referred by [userId], with the count and the summed price of that
    user's successful transactions, and counts them; two stores with the
    same users and the same successful transactions give the same entries,
    whatever other transactions they hold; and a referred user without any
    transaction is listed with a count of zero and nothing spent. *)
Theorem referred_users_count_successful_purchases_only
    (f : Faults) (order : Sql.RowOrder) (userId : Z) (db : Db) :
  f SelectReferredUsers = false ->
  Sql.rearranges order ->
  NoDup (map u_id (users db)) ->
  let referred := filter (Referrals.is_referred_by userId) (users db) in
  let successful (d : Db) :=
    filter (fun t => status_eqb (t_status t) success) (transactions d) in
  exists listing,
    Referrals.getUserReferrals f order userId db = (Ok listing, db)
    /\ Permutation (Referrals.referred_users listing)
         (map (referred_entry db) referred)
    /\ Referrals.total_referred listing = Z.of_nat (List.length referred)
    /\ (forall db2 order2,
          Sql.rearranges order2 ->
          users db2 = users db -> successful db2 = successful db ->
          exists listing2,
            Referrals.getUserReferrals f order2 userId db2
            = (Ok listing2, db2)
            /\ Permutation (Referrals.referred_users listing2)
                 (Referrals.referred_users listing)
            /\ Referrals.total_referred listing2
               = Referrals.total_referred listing)
    /\ (forall u,
          In u referred ->
          (forall t, In t (transactions db) -> t_user_id t <> u_id u) ->
          In {| Referrals.id := u_id u;
                Referrals.full_name := u_full_name u;
                Referrals.email := u_email u;
                Referrals.joined_date := u_created_at u;
                Referrals.total_transactions := 0;
                Referrals.total_spent := Pg.parseFloat 0 |}
             (Referrals.referred_users listing)).
Proof.
  intros Hf Horder Hnodup referred successful.
  destruct (getUserReferrals_run f order userId db Hf Hnodup)
    as (rows & Hrun & Hperm & _).
  specialize (Hperm Horder). fold referred in Hperm.
  eexists. split; [exact Hrun|].
  cbn [Referrals.referred_users Referrals.total_referred].
  split; [exact Hperm|].
  split; [now rewrite (Permutation_length Hperm), length_map|]. split.
  - intros db2 order2 Horder2 Husers Hsame.
    assert (Hnodup2 : NoDup (map u_id (users db2))) by now rewrite Husers.
    destruct (getUserReferrals_run f order2 userId db2 Hf Hnodup2)
      as (rows2 & Hrun2 & Hperm2 & _).
    specialize (Hperm2 Horder2).
    assert (Hrows : Permutation rows2 rows).
    { apply Permutation_trans with (1 := Hperm2).
      apply Permutation_sym. rewrite Husers. fold referred.
      replace (map (referred_entry db2) referred)
        with (map (referred_entry db) referred); [exact Hperm|].
      apply map_ext. intros u. unfold referred_entry.
      fold (successful db2) (successful db). now rewrite Hsame. }
    eexists. split; [exact Hrun2|].
    cbn [Referrals.referred_users Referrals.total_referred].
    split; [exact Hrows|]. now rewrite (Permutation_length Hrows).
  - intros u Hu Hnone.
    apply (Permutation_in _ (Permutation_sym Hperm)).
    apply in_map_iff. exists u. split; [|exact Hu].
    unfold referred_entry.
    replace (filter (fun t => t_user_id t =? u_id u)
               (filter (fun t => status_eqb (t_status t) success)
                  (transactions db)))
      with (@nil TransactionRow); [reflexivity|].
    symmetry.
    destruct (filter _ (filter _ (transactions db))) as [|t ts] eqn:E;
      [reflexivity|].
    assert (Ht : In t (filter (fun t => t_user_id t =? u_id u)
                         (filter (fun t => status_eqb (t_status t) success)
                            (transactions db))))
      by (rewrite E; now left).
    apply filter_In in Ht. destruct Ht as [Ht Hid].
    apply filter_In in Ht. destruct Ht as [Ht _].
    apply Z.eqb_eq in Hid. now destruct (Hnone t Ht).
Qed.

Lemma referred_users_count_successful_purchases_only_witness :
  let buyer_entry :=
    {| Referrals.id := 2;
       Referrals.full_name := "Test User"%string;
       Referrals.email := "user@test.com"%string;
       Referrals.joined_date := 0;
       Referrals.total_transactions := 2;
       Referrals.total_spent := Pg.parseFloat 2500000 |} in
  let newcomer_entry :=
    {| Referrals.id := 4;
       Referrals.full_name := "Test User"%string;
       Referrals.email := "newcomer@test.com"%string;
       Referrals.joined_date := 0;
       Referrals.total_transactions := 0;
       Referrals.total_spent := Pg.parseFloat 0 |} in
  exists listing,
    Referrals.getUserReferrals healthy Sql.backwards 1 Fixture.busy_shop
    = (Ok listing, Fixture.busy_shop)
    /\ Referrals.referred_users listing = [newcomer_entry; buyer_entry]
    /\ Permutation (Referrals.referred_users listing)
         [buyer_entry; newcomer_entry]
    /\ Referrals.total_referred listing = 2.
Proof.
  cbv zeta.
  destruct (referred_users_count_successful_purchases_only healthy
              Sql.backwards 1 Fixture.busy_shop eq_refl backwards_rearranges)
    as (listing & Hrun & Hperm & Htotal & _).
  - repeat constructor; simpl; intuition discriminate.
  - exists listing. split; [exact Hrun|].
    split; [|split; [exact Hperm | exact Htotal]].
    assert (E : fst (Referrals.getUserReferrals healthy Sql.backwards 1
                       Fixture.busy_shop) = Ok listing) by now rewrite Hrun.
    vm_compute in E. injection E as <-. reflexivity.
Defined.

(** ** Provider classification *)

(** C8.  A provider response that is neither a success (status 'Sukses'
    with code '00') nor pending (status 'Pending' or 'Process', or message
    'PROCESS'), and whose code is not '00', is classified as failed. *)
Theorem unclassified_response_is_failed
    (response : Digiflazz.DigiflazzOrderResponse) :
  Digiflazz.isDigiflazzSuccess response = false ->
  Digiflazz.isDigiflazzPending response = false ->
  Digiflazz.rc response <> "00"%string ->
  Digiflazz.isDigiflazzFailed response = true.
Proof.
  intros _ Hpending Hrc.
  unfold Digiflazz.isDigiflazzPending in Hpending.
  apply orb_false_iff in Hpending. destruct Hpending as [Hpending _].
  apply orb_false_iff in Hpending. destruct Hpending as [Hpending _].
  unfold Digiflazz.isDigiflazzFailed.
  rewrite Hpending.
  apply String.eqb_neq in Hrc. rewrite Hrc.
  apply orb_true_r.
Qed.

Lemma unclassified_response_is_failed_witness :
  Digiflazz.isDigiflazzFailed Fixture.odd_response = true.
Proof.
  apply unclassified_response_is_failed;
    [reflexivity | reflexivity | discriminate].
Defined.

(** ** Login *)

(** C9.  A login for an email no user has and a login for an existing
    email with a password that does not verify end the same way: on a store
    that answers, with the one error 'Invalid email or password' and the
    store untouched.  That is the only error a login on such a store can
    end with. *)
Theorem login_failure_is_generic
    (pbkdf2_hex : string -> string -> string)
    (generateToken : Pg.timestamp -> Z -> string)
    (f : Faults) (now : Pg.timestamp) (db : Db)
    (unknown wrong : LoginInput) (u : UserRow) (us : list UserRow) :
  filter (fun u => (u_email u =? li_email unknown)%string) (users db) = [] ->
  filter (fun u => (u_email u =? li_email wrong)%string) (users db)
    = u :: us ->
  Auth.verifyPassword pbkdf2_hex (li_password wrong) (u_password_hash u)
    = false ->
  Auth.login pbkdf2_hex generateToken f now unknown db
    = Auth.login pbkdf2_hex generateToken f now wrong db
  /\ (f SelectUsers = false ->
      Auth.login pbkdf2_hex generateToken f now unknown db
        = (Throw InvalidEmailOrPassword, db))
  /\ (forall input e db',
        f SelectUsers = false ->
        Auth.login pbkdf2_hex generateToken f now input db = (Throw e, db') ->
        e = InvalidEmailOrPassword /\ db' = db).
Proof.
  intros Hunknown Hwrong Hverify.
  unfold Auth.login, select_users_by_email. run_monad.
  rewrite Hunknown, Hwrong.
  split; [|split].
  - destruct (f SelectUsers); [reflexivity|].
    cbv beta iota zeta. now rewrite Hverify.
  - now intros ->.
  - intros input e db' ->.
    destruct (filter (fun u => (u_email u =? li_email input)%string)
                (users db)) as [|v vs];
      [intros H; inversion H; split; reflexivity|].
    cbv beta iota zeta.
    destruct (negb _); intros H; inversion H; split; reflexivity.
Qed.

Lemma login_failure_is_generic_witness :
  let login :=
    Auth.login Fixture.toy_pbkdf2 Fixture.toy_token healthy 20 in
  let unknown :=
    {| li_email := "nonexistent@example.com"; li_password := "secret" |} in
  let wrong :=
    {| li_email := "user@test.com"; li_password := "wrongpassword" |} in
  login unknown Fixture.busy_shop = login wrong Fixture.busy_shop
  /\ login unknown Fixture.busy_shop
     = (Throw InvalidEmailOrPassword, Fixture.busy_shop).
Proof.
  destruct (login_failure_is_generic Fixture.toy_pbkdf2 Fixture.toy_token
              healthy 20 Fixture.busy_shop
              {| li_email := "nonexistent@example.com";
                 li_password := "secret" |}
              {| li_email := "user@test.com";
                 li_password := "wrongpassword" |}
              Fixture.buyer [] eq_refl eq_refl eq_refl)
    as (Hsame & Hgeneric & _).
  split; [exact Hsame | exact (Hgeneric eq_refl)].
Defined.

(* ================================================================== *)
(** * Further properties of the handlers *)

(** ** Ordering and paging *)

Section PagingFacts.

Context {A : Type}.
Variable key : A -> Z.

Lemma insert_desc_perm (x : A) (rows : list A) :
  Permutation (Paging.insert_desc key x rows) (x :: rows).
Proof.
  induction rows as [|y rest IH]; simpl; [reflexivity|].
  destruct (key x <? key y); [|reflexivity].
  rewrite IH. apply perm_swap.
Qed.

Lemma order_by_desc_perm (rows : list A) :
  Permutation (Paging.order_by_desc key rows) rows.
Proof.
  induction rows as [|x rows IH]; simpl; [reflexivity|].
  rewrite insert_desc_perm. now constructor.
Qed.

Lemma insert_desc_sorted (x : A) (rows : list A) :
  StronglySorted (fun a b => key b <= key a) rows ->
  StronglySorted (fun a b => key b <= key a) (Paging.insert_desc key x rows).
Proof.
  induction rows as [|y rest IH]; simpl; intros H.
  - repeat constructor.
  - inversion H as [|? ? Hrest Hall]; subst.
    destruct (Z.ltb_spec (key x) (key y)) as [Hlt|Hge].
    + constructor; [now apply IH|].
      apply Forall_forall. intros z Hz.
      apply (Permutation_in _ (insert_desc_perm x rest)) in Hz.
      destruct Hz as [<-|Hz]; [lia|].
      now apply (proj1 (Forall_forall _ _) Hall).
    + constructor; [exact H|].
      constructor; [lia|].
      apply Forall_forall. intros z Hz.
      assert (key z <= key y) by now apply (proj1 (Forall_forall _ _) Hall).
      lia.
Qed.

Lemma order_by_desc_sorted (rows : list A) :
  StronglySorted (fun a b => key b <= key a) (Paging.order_by_desc key rows).
Proof.
  induction rows as [|x rows IH]; simpl; [constructor|].
  now apply insert_desc_sorted.
Qed.

Lemma firstn_plus (a b : nat) (l : list A) :
  firstn (a + b) l = firstn a l ++ firstn b (skipn a l).
Proof.
  revert l. induction a as [|a IH]; intros l; simpl; [reflexivity|].
  destruct l as [|x l]; simpl.
  - now rewrite firstn_nil.
  - now rewrite IH.
Qed.

(** Consecutive windows of [m] rows make up the rows they cover. *)
Lemma windows_cover (m : nat) (l : list A) (n : nat) :
  List.concat (map (fun i => firstn m (skipn (i * m) l)) (seq 0 n))
  = firstn (n * m) l.
Proof.
  induction n as [|n IH]; [reflexivity|].
  rewrite seq_S, map_app, concat_app, IH. simpl.
  rewrite app_nil_r, <- firstn_plus. f_equal. lia.
Qed.

Lemma sorted_skipn (R : A -> A -> Prop) (n : nat) (l : list A) :
  StronglySorted R l -> StronglySorted R (skipn n l).
Proof.
  revert l. induction n as [|n IH]; intros l H; simpl; [exact H|].
  destruct l; [constructor|]. apply IH. now inversion H.
Qed.

Lemma sorted_firstn (R : A -> A -> Prop) (n : nat) (l : list A) :
  StronglySorted R l -> StronglySorted R (firstn n l).
Proof.
  revert l. induction n as [|n IH]; intros l H; simpl; [constructor|].
  destruct l as [|x l]; [constructor|].
  inversion H as [|? ? Hrest Hall]; subst.
  constructor; [now apply IH|].
  apply Forall_forall. intros z Hz.
  apply (proj1 (Forall_forall _ _) Hall).
  revert Hz. clear. revert l.
  induction n as [|n IH]; intros l Hz; simpl in Hz; [contradiction|].
  destruct l; [contradiction|].
  destruct Hz as [<-|Hz]; [now left | right; now apply IH].
Qed.

Lemma in_window (n o : nat) (l : list A) (x : A) :
  In x (firstn n (skipn o l)) -> In x l.
Proof.
  intros H.
  rewrite <- (firstn_skipn o l). apply in_or_app. right.
  rewrite <- (firstn_skipn n (skipn o l)). apply in_or_app. now left.
Qed.

End PagingFacts.

(** ** The listing handlers *)

Lemma window_map {A B : Type} (g : A -> B) (l o : Z) (rows : list A) :
  Paging.window l o (map g rows) = map g (Paging.window l o rows).
Proof.
  unfold Paging.window. cbv zeta. rewrite skipn_map.
  destruct (l <? 0); [reflexivity|]. now rewrite firstn_map.
Qed.

Lemma window_of_limit {A : Type} (l o : Z) (rows : list A) :
  0 <= l ->
  Paging.window l o rows = firstn (Z.to_nat l) (skipn (Z.to_nat o) rows).
Proof.
  intros Hl. unfold Paging.window. cbv zeta.
  now replace (l <? 0) with false by (symmetry; apply Z.ltb_ge; lia).
Qed.

Lemma window_of_no_limit {A : Type} (l o : Z) (rows : list A) :
  l < 0 -> Paging.window l o rows = skipn (Z.to_nat o) rows.
Proof.
  intros Hl. unfold Paging.window. cbv zeta.
  now replace (l <? 0) with true by (symmetry; apply Z.ltb_lt; lia).
Qed.

Lemma in_window_rows {A : Type} (l o : Z) (rows : list A) (x : A) :
  In x (Paging.window l o rows) -> In x rows.
Proof.
  unfold Paging.window. cbv zeta. destruct (l <? 0).
  - intros H. rewrite <- (firstn_skipn (Z.to_nat o) rows).
    apply in_or_app. now right.
  - apply in_window.
Qed.

Lemma sorted_window {A : Type} (R : A -> A -> Prop) (l o : Z)
    (rows : list A) :
  StronglySorted R rows -> StronglySorted R (Paging.window l o rows).
Proof.
  intros H. unfold Paging.window. cbv zeta. destruct (l <? 0).
  - now apply sorted_skipn.
  - now apply sorted_firstn, sorted_skipn.
Qed.

Section Listings.

Variable down : TransactionQueries.Call -> bool.
Variable input : GetTransactionsInput.
Variable db : Db.

Let limit := gti_limit input.
Let offset := (gti_page input - 1) * gti_limit input.

(** The [WHERE] clause built from the conditions array is the conjunction
    of the filters. *)
Lemma where_matches_filters (rows : list TransactionRow) :
  TransactionQueries.where_
    ((match gti_user_id input with
      | Some uid => [fun t => t_user_id t =? uid]
      | None => []
      end)
     ++ (match gti_status input with
         | Some st => [fun t => status_eqb (t_status t) st]
         | None => []
         end)) rows
  = filter (matches_filters input) rows.
Proof.
  unfold matches_filters.
  destruct (gti_user_id input) as [uid|], (gti_status input) as [st|];
    simpl.
  - apply filter_ext. intros t. now rewrite andb_true_r.
  - apply filter_ext. intros t. now rewrite andb_true_r.
  - reflexivity.
  - induction rows as [|t rows IH]; simpl; now rewrite <- ?IH.
Qed.

(** What a listing call returns: it throws when a store call is down or
    the store rejects the window, and otherwise returns the window of the
    listing together with the number of matching rows. *)
Lemma getTransactions_run :
  TransactionQueries.getTransactions down input db
  = if down TransactionQueries.SelectPage
       || (offset <? 0)
       || down TransactionQueries.SelectCount
    then (Throw StoreUnavailable, db)
    else
      (Ok {| page_transactions :=
               Paging.window limit offset (listing input db);
             page_total :=
               Z.of_nat
                 (List.length
                    (filter (matches_filters input) (transactions db)));
             page_number := gti_page input;
             page_limit := limit |},
       db).
Proof.
  unfold TransactionQueries.getTransactions, call_when, Paging.limit_offset.
  run_monad. subst limit offset.
  destruct (down TransactionQueries.SelectPage); [reflexivity|].
  cbn [orb].
  destruct ((gti_page input - 1) * gti_limit input <? 0); [reflexivity|].
  cbn [orb].
  destruct (down TransactionQueries.SelectCount); [reflexivity|].
  rewrite !where_matches_filters.
  unfold listing. now rewrite window_map.
Qed.

Lemma listing_length :
  List.length (listing input db)
  = List.length (filter (matches_filters input) (transactions db)).
Proof.
  unfold listing. rewrite length_map.
  apply Permutation_length, order_by_desc_perm.
Qed.

Lemma listing_sorted : StronglySorted not_older (listing input db).
Proof.
  unfold listing.
  assert (H := order_by_desc_sorted t_created_at
                 (filter (matches_filters input) (transactions db))).
  induction H as [|t l Hl IH Hall]; simpl; constructor; [exact IH|].
  apply Forall_forall. intros tx Htx.
  apply in_map_iff in Htx. destruct Htx as (t' & <- & Ht').
  exact (proj1 (Forall_forall _ _) Hall t' Ht').
Qed.

Lemma listing_matches (tx : Transaction) :
  In tx (listing input db) ->
  (forall uid, gti_user_id input = Some uid -> user_id tx = uid)
  /\ (forall st, gti_status input = Some st -> status tx = st).
Proof.
  unfold listing. intros H.
  apply in_map_iff in H. destruct H as (t & <- & Ht).
  apply (Permutation_in _ (order_by_desc_perm t_created_at _)) in Ht.
  apply filter_In in Ht. destruct Ht as [_ Hm].
  unfold matches_filters in Hm. apply andb_true_iff in Hm.
  destruct Hm as [Hu Hs]. split.
  - intros uid E. rewrite E in Hu. now apply Z.eqb_eq in Hu.
  - intros st E. rewrite E in Hs. simpl.
    destruct (t_status t), st; simpl in Hs; congruence.
Qed.

End Listings.

(** X1.  With a positive page size and a store that answers, the pages
    1, 2, ... up to ceil(total / limit) of a listing request, read from one
    store with equal creation times kept in table order, are one after the
    other the whole listing: every matching transaction is on exactly one
    page.  Page [k] reports the same total and holds
    min(limit, max(0, total - (k - 1) * limit)) transactions, so the last
    page holds the remainder. *)
Theorem pages_partition_the_listing
    (down : TransactionQueries.Call -> bool) (input : GetTransactionsInput)
    (db : Db) :
  down TransactionQueries.SelectPage = false ->
  down TransactionQueries.SelectCount = false ->
  0 < gti_limit input ->
  let total := Z.of_nat (List.length (listing input db)) in
  let last := (total + gti_limit input - 1) / gti_limit input in
  List.concat
    (map (fun k =>
            page_items
              (TransactionQueries.getTransactions down
                 (on_page input (Z.of_nat k)) db))
       (seq 1 (Z.to_nat last)))
  = listing input db
  /\ forall k,
       1 <= k ->
       exists p,
         TransactionQueries.getTransactions down (on_page input k) db
         = (Ok p, db)
         /\ page_total p = total
         /\ Z.of_nat (List.length (page_transactions p))
            = Z.min (gti_limit input)
                (Z.max 0 (total - (k - 1) * gti_limit input)).
Proof.
  intros Hpage Hcount Hlimit total last.
  assert (Hrun : forall k, 1 <= k ->
    TransactionQueries.getTransactions down (on_page input k) db
    = (Ok {| page_transactions :=
               firstn (Z.to_nat (gti_limit input))
                 (skipn (Z.to_nat ((k - 1) * gti_limit input))
                    (listing input db));
             page_total := total;
             page_number := k;
             page_limit := gti_limit input |},
       db)).
  { intros k Hk. rewrite getTransactions_run.
    cbn [on_page gti_page gti_limit]. rewrite Hpage, Hcount.
    replace ((k - 1) * gti_limit input <? 0) with false
      by (symmetry; apply Z.ltb_ge; nia).
    cbn [orb]. rewrite window_of_limit by lia.
    unfold total. rewrite listing_length. reflexivity. }
  split.
  - set (m := Z.to_nat (gti_limit input)).
    rewrite <- seq_shift, map_map.
    rewrite (map_ext_in _
               (fun i => firstn m (skipn (i * m) (listing input db)))).
    + rewrite windows_cover. apply firstn_all2.
      unfold last, m.
      assert (Hdiv := Z.div_mod (total + gti_limit input - 1)
                        (gti_limit input) ltac:(lia)).
      assert (Hmod := Z.mod_pos_bound (total + gti_limit input - 1)
                        (gti_limit input) Hlimit).
      assert (0 <= (total + gti_limit input - 1) / gti_limit input)
        by (apply Z.div_pos; lia).
      apply Nat2Z.inj_le. rewrite Nat2Z.inj_mul, !Z2Nat.id by lia.
      fold total. nia.
    + intros i _. unfold page_items.
      rewrite Hrun by lia. cbn [fst page_transactions].
      unfold m. do 2 f_equal.
      replace (Z.of_nat (S i) - 1) with (Z.of_nat i) by lia.
      rewrite Z2Nat.inj_mul by lia. now rewrite Nat2Z.id.
  - intros k Hk. eexists. split; [apply Hrun, Hk|].
    split; [reflexivity|].
    cbn [page_transactions].
    rewrite length_firstn, length_skipn. fold total.
    assert (0 <= (k - 1) * gti_limit input) by nia.
    lia.
Qed.

Lemma pages_partition_the_listing_witness :
  let request :=
    {| gti_user_id := Some 2; gti_status := None;
       gti_page := 1; gti_limit := 2 |} in
  let page k :=
    page_items
      (TransactionQueries.getTransactions all_answer
         (on_page request (Z.of_nat k)) Fixture.busy_shop) in
  List.concat (map page (seq 1 2)) = listing request Fixture.busy_shop
  /\ List.length (page 1%nat) = 2%nat /\ List.length (page 2%nat) = 1%nat.
Proof.
  split; [|split; reflexivity].
  exact (proj1 (pages_partition_the_listing all_answer
                  {| gti_user_id := Some 2; gti_status := None;
                     gti_page := 1; gti_limit := 2 |}
                  Fixture.busy_shop eq_refl eq_refl eq_refl)).
Defined.

(** X2.  Whatever page a listing call returns, every transaction on it
    satisfies the filters that were given, the page is ordered newest
    first, the reported total is the number of stored transactions that
    satisfy the filters, whichever page was asked for, and the store is as
    it was. *)
Theorem listing_page_is_filtered_and_ordered
    (down : TransactionQueries.Call -> bool) (input : GetTransactionsInput)
    (db db' : Db) (p : TransactionPage) :
  TransactionQueries.getTransactions down input db = (Ok p, db') ->
  db' = db
  /\ Forall
       (fun tx =>
          (forall uid, gti_user_id input = Some uid -> user_id tx = uid)
          /\ (forall st, gti_status input = Some st -> status tx = st))
       (page_transactions p)
  /\ StronglySorted not_older (page_transactions p)
  /\ page_total p
     = Z.of_nat
         (List.length (filter (matches_filters input) (transactions db))).
Proof.
  rewrite getTransactions_run.
  destruct (_ || _); [discriminate|].
  intros H. injection H as Hp Hdb. subst db' p.
  cbn [page_transactions page_total].
  split; [reflexivity|]. split; [|split; [|reflexivity]].
  - apply Forall_forall. intros tx Htx.
    apply (listing_matches input db).
    exact (in_window_rows _ _ _ _ Htx).
  - apply sorted_window, listing_sorted.
Qed.

Lemma listing_page_is_filtered_and_ordered_witness :
  let request :=
    {| gti_user_id := Some 2; gti_status := Some success;
       gti_page := 1; gti_limit := 10 |} in
  exists p,
    TransactionQueries.getTransactions all_answer request Fixture.busy_shop
    = (Ok p, Fixture.busy_shop)
    /\ Forall (fun tx => user_id tx = 2 /\ status tx = success)
         (page_transactions p)
    /\ StronglySorted not_older (page_transactions p)
    /\ page_total p = 2.
Proof.
  eexists. split; [reflexivity|].
  destruct (listing_page_is_filtered_and_ordered all_answer
              {| gti_user_id := Some 2; gti_status := Some success;
                 gti_page := 1; gti_limit := 10 |}
              Fixture.busy_shop Fixture.busy_shop _ eq_refl)
    as (_ & Hall & Hsorted & Htotal).
  split; [|split; [exact Hsorted | exact Htotal]].
  apply Forall_forall. intros tx Htx.
  destruct (proj1 (Forall_forall _ _) Hall tx Htx) as [Hu Hs].
  split; [now apply Hu | now apply Hs].
Defined.

Lemma getUserTransactions_as_filter
    (down : TransactionQueries.Call -> bool) (userId page limit : Z)
    (db : Db) :
  TransactionQueries.getUserTransactions down userId page limit db
  = TransactionQueries.getTransactions down
      {| gti_user_id := Some userId; gti_status := None;
         gti_page := page; gti_limit := limit |} db.
Proof. reflexivity. Qed.

(** X3.  The three listing handlers are one query: the history of a user
    is the general listing filtered by that user, under any outage of the
    store, and the admin listing is the general listing without filters
    when the store answers. *)
Theorem listing_handlers_agree
    (down : TransactionQueries.Call -> bool) (userId page limit : Z)
    (db : Db) :
  TransactionQueries.getUserTransactions down userId page limit db
  = TransactionQueries.getTransactions down
      {| gti_user_id := Some userId; gti_status := None;
         gti_page := page; gti_limit := limit |} db
  /\ Admin.getAllTransactions all_answer page limit db
     = TransactionQueries.getTransactions all_answer
         {| gti_user_id := None; gti_status := None;
            gti_page := page; gti_limit := limit |} db.
Proof.
  split; [reflexivity|].
  unfold Admin.getAllTransactions, TransactionQueries.getTransactions,
    call_when, Paging.limit_offset, all_answer.
  run_monad. cbn [app gti_limit gti_page TransactionQueries.where_].
  now destruct ((page - 1) * limit <? 0).
Qed.

(** X4.  The edges of paging in a user's history.  A page past the end is
    returned empty, with the total still reported.  A window that starts
    before the first row, which is a page number below 1 with a positive
    page size or above 1 with a negative one, makes the store reject the
    statement and the handler throw.  A negative page size on page 1 is no
    limit at all: the whole history comes back, newest first.  The store
    is never changed. *)
Theorem paging_edges
    (down : TransactionQueries.Call -> bool) (userId page limit : Z)
    (db : Db) :
  let history := filter (fun t => t_user_id t =? userId) (transactions db) in
  let run :=
    TransactionQueries.getUserTransactions down userId page limit db in
  (down TransactionQueries.SelectPage = false ->
   down TransactionQueries.SelectCount = false ->
   0 <= limit -> 1 <= page ->
   Z.of_nat (List.length history) <= (page - 1) * limit ->
   run = (Ok {| page_transactions := [];
                page_total := Z.of_nat (List.length history);
                page_number := page;
                page_limit := limit |}, db))
  /\ ((0 < limit /\ page < 1) \/ (limit < 0 /\ 1 < page) ->
      run = (Throw StoreUnavailable, db))
  /\ (down TransactionQueries.SelectPage = false ->
      down TransactionQueries.SelectCount = false ->
      limit < 0 -> page = 1 ->
      run = (Ok {| page_transactions :=
                     map Transactions.convertDbTransaction
                       (Paging.order_by_desc t_created_at history);
                   page_total := Z.of_nat (List.length history);
                   page_number := page;
                   page_limit := limit |}, db))
  /\ snd run = db.
Proof.
  intros history run. unfold run.
  rewrite getUserTransactions_as_filter, getTransactions_run.
  cbn [gti_limit gti_page].
  assert (Hhistory :
    filter
      (matches_filters
         {| gti_user_id := Some userId; gti_status := None;
            gti_page := page; gti_limit := limit |}) (transactions db)
    = history).
  { unfold history. apply filter_ext. intros t.
    unfold matches_filters. cbn. apply andb_true_r. }
  split; [|split; [|split]].
  - intros -> -> Hlimit Hpage Hpast.
    replace ((page - 1) * limit <? 0) with false
      by (symmetry; apply Z.ltb_ge; nia).
    cbn [orb]. rewrite Hhistory. do 2 f_equal.
    rewrite window_of_limit by exact Hlimit.
    rewrite skipn_all2; [now rewrite firstn_nil|].
    rewrite listing_length, Hhistory.
    apply Nat2Z.inj_le. rewrite Z2Nat.id by nia. exact Hpast.
  - intros Hbad.
    replace (down TransactionQueries.SelectPage
             || ((page - 1) * limit <? 0)
             || down TransactionQueries.SelectCount) with true;
      [reflexivity|].
    symmetry. rewrite !orb_true_iff.
    left. right. apply Z.ltb_lt. nia.
  - intros -> -> Hlimit ->.
    cbn [orb Z.sub Z.mul Z.ltb Z.compare Z.add Z.opp Z.pos_sub].
    rewrite Hhistory. do 2 f_equal.
    rewrite window_of_no_limit by exact Hlimit.
    cbn [Z.to_nat skipn]. unfold listing. now rewrite Hhistory.
  - now destruct (_ || _).
Qed.

Lemma paging_edges_witness :
  TransactionQueries.getUserTransactions all_answer 2 3 2 Fixture.busy_shop
  = (Ok {| page_transactions := []; page_total := 3;
           page_number := 3; page_limit := 2 |}, Fixture.busy_shop)
  /\ TransactionQueries.getUserTransactions all_answer 2 0 2 Fixture.busy_shop
     = (Throw StoreUnavailable, Fixture.busy_shop)
  /\ exists everything,
       TransactionQueries.getUserTransactions all_answer 2 1 (-1)
         Fixture.busy_shop
       = (Ok {| page_transactions := everything; page_total := 3;
                page_number := 1; page_limit := -1 |}, Fixture.busy_shop)
       /\ List.length everything = 3%nat.
Proof.
  split; [|split].
  - apply (proj1 (paging_edges all_answer 2 3 2 Fixture.busy_shop));
      try reflexivity; discriminate.
  - apply (proj1 (proj2 (paging_edges all_answer 2 0 2 Fixture.busy_shop))).
    left. split; reflexivity.
  - eexists. split.
    + apply (proj1 (proj2 (proj2
               (paging_edges all_answer 2 1 (-1) Fixture.busy_shop))));
        reflexivity.
    + reflexivity.
Defined.

(** ** The transaction engine: footprints and invariants *)

Lemma no_match_filter_by {A} (q : A -> bool) (l : list A) :
  (forall x, In x l -> q x = false) -> filter q l = [].
Proof.
  induction l as [|x l IH]; intros H; simpl; [reflexivity|].
  rewrite (H x (or_introl eq_refl)). apply IH.
  intros y Hy. apply H. now right.
Qed.

(** An accepted purchase, taken apart: the product lookup answered, the
    resolved amount fitted its column, the transaction id was new, and the
    store gained exactly the row that is returned. *)
Lemma createTransaction_ok_shape (f : Faults) (now : Pg.timestamp)
    (transactionId : string) (input : CreateTransactionInput) (db db' : Db)
    (created : Transaction) :
  Transactions.createTransaction f now transactionId input db
    = (Ok created, db') ->
  exists p ps amount_c,
    filter (fun p => p_id p =? cti_product_id input) (products db) = p :: ps
    /\ p_is_active p = true
    /\ created
       = Transactions.convertDbTransaction
           (created_row now db transactionId input p amount_c)
    /\ db'
       = with_transactions db
           (transactions db
            ++ [created_row now db transactionId input p amount_c])
           (transactions_id_seq db + 1)
    /\ (forall t, In t (transactions db) ->
                  t_transaction_id t <> transactionId).
Proof.
  unfold Transactions.createTransaction, select_user_by_id,
    select_product_by_id, insert_transaction.
  run_monad.
  destruct (f SelectUsers); [discriminate|].
  destruct (List.length _ =? 0)%nat; [discriminate|].
  destruct (f SelectProducts); [discriminate|].
  destruct (filter (fun p => p_id p =? cti_product_id input) (products db))
    as [|p ps]; [discriminate|].
  cbn [firstn].
  destruct (p_is_active p) eqn:Hactive; [|discriminate]. cbn [negb].
  set (finalAmount :=
         Js.number_or (cti_amount input) (Pg.parseFloat (p_price p))).
  intros H. exists p, ps.
  revert H.
  destruct (is_range (p_denomination_type p));
    [destruct (p_min_amount p) as [mn|];
     [destruct (Js.ltb finalAmount (Pg.parseFloat mn)); [discriminate|]|];
     (destruct (p_max_amount p) as [mx|];
      [destruct (Js.gtb finalAmount (Pg.parseFloat mx)); [discriminate|]|])|];
    (destruct (f InsertTransaction); [discriminate|]);
    cbn [nt_amount nt_price nt_transaction_id];
    (destruct (Pg.to_numeric finalAmount) as [a|] eqn:Ha; [|discriminate]);
    (destruct (Pg.to_numeric (Pg.parseFloat (p_price p))) as [c|] eqn:Hc;
     [|discriminate]);
    cbv beta iota;
    match goal with
    | |- context [existsb ?g ?l] =>
        destruct (existsb g l) eqn:Hfresh; [discriminate|]
    end;
    intros H; injection H as <- <-;
    apply to_numeric_some in Hc; rewrite round_scale2_parseFloat in Hc;
    subst c; exists a;
    repeat (split; [first [reflexivity | exact Hactive]|]);
    intros t Ht E;
    apply not_true_iff_false in Hfresh; apply Hfresh;
    apply existsb_exists; exists t; (split; [exact Ht|]);
    now apply String.eqb_eq.
Qed.

(** A rejected purchase leaves every table as it was. *)
Lemma createTransaction_throw_shape (f : Faults) (now : Pg.timestamp)
    (transactionId : string) (input : CreateTransactionInput) (db db' : Db)
    (e : Error) :
  Transactions.createTransaction f now transactionId input db
    = (Throw e, db') ->
  users db' = users db /\ products db' = products db
  /\ transactions db' = transactions db /\ referrals db' = referrals db.
Proof.
  unfold Transactions.createTransaction, select_user_by_id,
    select_product_by_id, insert_transaction.
  run_monad.
  destruct (f SelectUsers); [intros H; injection H as _ <-; auto|].
  destruct (List.length _ =? 0)%nat; [intros H; injection H as _ <-; auto|].
  destruct (f SelectProducts); [intros H; injection H as _ <-; auto|].
  destruct (filter (fun p => p_id p =? cti_product_id input) (products db))
    as [|p ps]; [intros H; injection H as _ <-; auto|].
  cbn [firstn].
  destruct (p_is_active p); [|intros H; injection H as _ <-; auto].
  cbn [negb].
  set (finalAmount :=
         Js.number_or (cti_amount input) (Pg.parseFloat (p_price p))).
  destruct (is_range (p_denomination_type p));
    [destruct (p_min_amount p) as [mn|];
     [destruct (Js.ltb finalAmount (Pg.parseFloat mn));
      [intros H; injection H as _ <-; auto|]|];
     (destruct (p_max_amount p) as [mx|];
      [destruct (Js.gtb finalAmount (Pg.parseFloat mx));
       [intros H; injection H as _ <-; auto|]|])|];
    (destruct (f InsertTransaction); [intros H; injection H as _ <-; auto|]);
    cbn [nt_amount nt_price nt_transaction_id];
    (destruct (Pg.to_numeric finalAmount) as [a|];
     [|intros H; injection H as _ <-; auto]);
    (destruct (Pg.to_numeric (Pg.parseFloat (p_price p))) as [c|];
     [|intros H; injection H as _ <-; auto]);
    cbv beta iota;
    match goal with
    | |- context [existsb ?g ?l] => destruct (existsb g l)
    end;
    intros H; try discriminate; injection H as _ <-; auto.
Qed.

(** Settlement, seen from the ledger: nothing, or one unpaid row for the
    transaction and the buyer it was called for. *)
Lemma processReferralCommission_ledger (f : Faults) (now : Pg.timestamp)
    (txn buyer : Z) (amount : Js.number) (db : Db) :
  let db' :=
    snd (Transactions.processReferralCommission f now txn buyer amount db) in
  referrals db' = referrals db
  \/ exists r,
       referrals db' = referrals db ++ [r]
       /\ r_transaction_id r = txn /\ r_referred_id r = buyer
       /\ r_is_paid r = false.
Proof.
  unfold Transactions.processReferralCommission, select_user_by_id,
    insert_referral.
  run_monad.
  destruct (f SelectUsers); [now left|].
  destruct (firstn 1 (filter (fun u => u_id u =? buyer) (users db)))
    as [|u us]; [now left|].
  destruct (u_referred_by_id u) as [referrer|]; [|now left].
  destruct (Js.truthy_int referrer); [|now left].
  destruct (f InsertReferral); [now left|].
  destruct (Pg.to_numeric (Transactions.calculateCommission amount)) as [c|];
    [|now left].
  right. eexists. cbn. repeat split.
Qed.

(** The store after a status update, for any fault plan. *)
Lemma updateTransactionStatus_store (f : Faults) (now : Pg.timestamp)
    (input : UpdateTransactionStatusInput) (db : Db) :
  let db' := snd (Transactions.updateTransactionStatus f now input db) in
  users db' = users db
  /\ products db' = products db
  /\ (transactions db' = transactions db
      \/ transactions db' = updated_rows now input (transactions db))
  /\ exists extra,
       referrals db' = referrals db ++ extra
       /\ (List.length extra <= 1)%nat
       /\ Forall (fun r => r_is_paid r = false) extra
       /\ (uts_status input <> success -> extra = []).
Proof.
  destruct (f UpdateTransactions) eqn:Hup.
  - unfold Transactions.updateTransactionStatus, update_transactions.
    run_monad. rewrite Hup. cbn.
    repeat split; auto. exists []. rewrite app_nil_r. repeat split; auto.
  - destruct (filter (has_transaction_id (uts_transaction_id input))
                (transactions db)) as [|t rest] eqn:Hfound.
    + unfold Transactions.updateTransactionStatus, update_transactions.
      run_monad. rewrite Hup, Hfound. cbn.
      repeat split; auto. exists []. rewrite app_nil_r. repeat split; auto.
    + rewrite (updateTransactionStatus_found f now input db t rest Hup Hfound).
      cbn [snd].
      destruct (status_eqb (uts_status input) success) eqn:Hst.
      * set (db1 := with_transactions db _ _).
        destruct (processReferralCommission_total f now (t_id t) (t_user_id t)
                    (Pg.parseFloat (t_amount t)) db1)
          as (db' & E & Hu & Hp & Ht & _).
        assert (Hledger := processReferralCommission_ledger f now (t_id t)
                             (t_user_id t) (Pg.parseFloat (t_amount t)) db1).
        cbv zeta in Hledger. rewrite E in *. cbn [snd] in *.
        rewrite Hu, Hp, Ht. repeat split; auto.
        destruct Hledger as [Hsame|(r & Hr & _ & _ & Hunpaid)].
        -- exists []. rewrite app_nil_r. repeat split; auto.
        -- exists [r]. repeat split; auto.
           intros Hne. destruct (uts_status input); simpl in Hst;
             congruence.
      * cbn. repeat split; auto. exists []. rewrite app_nil_r.
        repeat split; auto.
Qed.

Lemma updated_rows_ordered_part (now : Pg.timestamp)
    (input : UpdateTransactionStatusInput) (rows : list TransactionRow) :
  map ordered_part (updated_rows now input rows) = map ordered_part rows.
Proof.
  unfold updated_rows. rewrite map_map. apply map_ext. intros t.
  now destruct (has_transaction_id (uts_transaction_id input) t).
Qed.

(** X5.  A transaction that was created can be found again.  When the
    sequence is ahead of every stored id, looking the returned id up gives
    back the transaction that was returned, and a status update addressed
    to its [transaction_id] finds it: it returns that transaction with the
    new status and the amount and price it was created with. *)
Theorem created_transaction_can_be_found
    (f f2 : Faults) (down : TransactionQueries.Call -> bool)
    (now later : Pg.timestamp) (transactionId : string)
    (input : CreateTransactionInput) (update : UpdateTransactionStatusInput)
    (db db' : Db) (created : Transaction) :
  Transactions.createTransaction f now transactionId input db
    = (Ok created, db') ->
  (forall t, In t (transactions db) -> t_id t <= transactions_id_seq db) ->
  down TransactionQueries.SelectById = false ->
  f2 UpdateTransactions = false ->
  uts_transaction_id update = transaction_id created ->
  TransactionQueries.getTransactionById down (id created) db'
    = (Ok (Some created), db')
  /\ exists updated db'',
       Transactions.updateTransactionStatus f2 later update db'
         = (Ok (Some updated), db'')
       /\ id updated = id created
       /\ status updated = uts_status update
       /\ amount updated = amount created
       /\ price updated = price created.
Proof.
  intros Hrun Hseq Hdown Hup Hkey.
  destruct (createTransaction_ok_shape _ _ _ _ _ _ _ Hrun)
    as (p & ps & c & _ & _ & -> & -> & Hfresh).
  set (row := created_row now db transactionId input p c) in *.
  split.
  - unfold TransactionQueries.getTransactionById, call_when. run_monad.
    rewrite Hdown. cbn [with_transactions transactions].
    rewrite filter_app_one.
    replace (filter (fun t => t_id t =? id (Transactions.convertDbTransaction row))
               (transactions db)) with (@nil TransactionRow).
    + cbn. rewrite Z.eqb_refl. reflexivity.
    + symmetry.
      apply (no_match_filter_by (fun t => t_id t =? transactions_id_seq db + 1)).
      intros t Ht. apply Z.eqb_neq. specialize (Hseq t Ht). lia.
  - assert (Hfound :
      filter (has_transaction_id (uts_transaction_id update))
        (transactions
           (with_transactions db (transactions db ++ [row])
              (transactions_id_seq db + 1)))
      = [row]).
    { cbn [with_transactions transactions]. rewrite filter_app_one.
      rewrite Hkey. cbn [transaction_id Transactions.convertDbTransaction].
      replace (filter (has_transaction_id (t_transaction_id row))
                 (transactions db)) with (@nil TransactionRow).
      - unfold has_transaction_id. now rewrite String.eqb_refl.
      - symmetry. apply (no_match_filter_by _).
        intros t Ht. apply String.eqb_neq. exact (Hfresh t Ht). }
    rewrite (updateTransactionStatus_found f2 later update _ row [] Hup Hfound).
    do 2 eexists. split; [reflexivity|]. repeat split.
Qed.

Lemma created_transaction_can_be_found_witness :
  let created := Transactions.convertDbTransaction Fixture.order_row in
  TransactionQueries.getTransactionById all_answer (id created)
    Fixture.shop_with_order
    = (Ok (Some created), Fixture.shop_with_order)
  /\ exists updated db'',
       Transactions.updateTransactionStatus healthy 20
         (Fixture.callback "TXN_1" failed) Fixture.shop_with_order
         = (Ok (Some updated), db'')
       /\ id updated = id created
       /\ status updated = failed
       /\ amount updated = amount created
       /\ price updated = price created.
Proof.
  apply (created_transaction_can_be_found healthy healthy all_answer 10 20
           "TXN_1" (Fixture.purchase 2 1 None)
           (Fixture.callback "TXN_1" failed)
           Fixture.empty_shop Fixture.shop_with_order
           (Transactions.convertDbTransaction Fixture.order_row));
    try reflexivity.
  intros t [].
Defined.

(** X6.  A status update, under any fault plan, leaves users and products
    alone and changes no transaction in its id, owner, product,
    transaction id, amount, price, customer fields, notes or creation
    time; a transaction with another transaction id is left exactly as it
    was. *)
Theorem status_update_keeps_the_order
    (f : Faults) (now : Pg.timestamp) (input : UpdateTransactionStatusInput)
    (db : Db) :
  let db' := snd (Transactions.updateTransactionStatus f now input db) in
  users db' = users db
  /\ products db' = products db
  /\ map ordered_part (transactions db') = map ordered_part (transactions db)
  /\ forall t,
       In t (transactions db) ->
       t_transaction_id t <> uts_transaction_id input ->
       In t (transactions db').
Proof.
  destruct (updateTransactionStatus_store f now input db)
    as (Hu & Hp & Ht & _).
  cbv zeta. split; [exact Hu|]. split; [exact Hp|].
  destruct Ht as [-> | ->]; [now split|].
  split; [apply updated_rows_ordered_part|].
  intros t Hin Hother. unfold updated_rows.
  apply in_map_iff. exists t. split; [|exact Hin].
  unfold has_transaction_id.
  now rewrite (proj2 (String.eqb_neq _ _) Hother).
Qed.

(** X7.  A status update, under any fault plan, only ever appends to the
    referral ledger: the rows that were there stay as they were, at most
    one row is added, a row that is added is unpaid, and nothing is added
    when the new status is not [success]. *)
Theorem status_update_only_appends_to_the_ledger
    (f : Faults) (now : Pg.timestamp) (input : UpdateTransactionStatusInput)
    (db : Db) :
  exists extra,
    referrals (snd (Transactions.updateTransactionStatus f now input db))
    = referrals db ++ extra
    /\ (List.length extra <= 1)%nat
    /\ Forall (fun r => r_is_paid r = false) extra
    /\ (uts_status input <> success -> extra = []).
Proof.
  exact (proj2 (proj2 (proj2
           (updateTransactionStatus_store f now input db)))).
Qed.

(** X8.  What a purchase request changes.  Under any fault plan it leaves
    users, products and the ledger alone; when it throws, the transactions
    are as they were; when it returns, exactly one row was appended, it is
    the transaction returned, and that transaction is pending with no
    external id and no provider payload. *)
Theorem purchase_appends_one_pending_transaction
    (f : Faults) (now : Pg.timestamp) (transactionId : string)
    (input : CreateTransactionInput) (db : Db) :
  let run := Transactions.createTransaction f now transactionId input db in
  users (snd run) = users db
  /\ products (snd run) = products db
  /\ referrals (snd run) = referrals db
  /\ match fst run with
     | Throw _ => transactions (snd run) = transactions db
     | Ok created =>
         exists row,
           transactions (snd run) = transactions db ++ [row]
           /\ created = Transactions.convertDbTransaction row
           /\ status created = pending
           /\ external_transaction_id created = None
           /\ digiflazz_response created = None
           /\ transaction_id created = transactionId
     end.
Proof.
  intros run. unfold run.
  destruct (Transactions.createTransaction f now transactionId input db)
    as [[created|e] db'] eqn:Hrun; cbn [fst snd].
  - destruct (createTransaction_ok_shape _ _ _ _ _ _ _ Hrun)
      as (p & ps & c & _ & _ & -> & -> & _).
    repeat split. eexists. repeat split.
  - destruct (createTransaction_throw_shape _ _ _ _ _ _ _ Hrun)
      as (Hu & Hp & Ht & Hr).
    auto.
Qed.

(** X9.  The order in which a purchase is refused, on a store that
    answers.  A buyer id no user has is refused as 'User not found'
    whatever the product is; with an existing buyer, a product id no
    product has is refused as 'Product not found', and an inactive product
    as 'Product is not active' whatever its type and bounds.  Nothing is
    written in any of the three cases. *)
Theorem purchase_is_refused_in_order
    (f : Faults) (now : Pg.timestamp) (transactionId : string)
    (input : CreateTransactionInput) (db : Db) :
  f SelectUsers = false -> f SelectProducts = false ->
  let run := Transactions.createTransaction f now transactionId input db in
  ((forall u, In u (users db) -> u_id u <> cti_user_id input) ->
   run = (Throw UserNotFound, db))
  /\ (forall u,
        In u (users db) -> u_id u = cti_user_id input ->
        ((forall p, In p (products db) -> p_id p <> cti_product_id input) ->
         run = (Throw ProductNotFound, db))
        /\ (forall p ps,
              filter (fun p => p_id p =? cti_product_id input) (products db)
                = p :: ps ->
              p_is_active p = false ->
              run = (Throw ProductNotActive, db))).
Proof.
  intros Hsel Hprod run. unfold run.
  unfold Transactions.createTransaction, select_user_by_id,
    select_product_by_id.
  run_monad. rewrite Hsel. split.
  - intros Hnone.
    rewrite (no_match_filter_by (fun u => u_id u =? cti_user_id input));
      [reflexivity|].
    intros u Hu. apply Z.eqb_neq. now apply Hnone.
  - intros u Hu Hid.
    destruct (filter_first (fun u => u_id u =? cti_user_id input) (users db) u
                Hu (proj2 (Z.eqb_eq _ _) Hid)) as (u' & us' & ->).
    cbn [firstn List.length Nat.eqb]. rewrite Hprod. split.
    + intros Hnone.
      rewrite (no_match_filter_by (fun p => p_id p =? cti_product_id input));
        [reflexivity|].
      intros p Hp. apply Z.eqb_neq. now apply Hnone.
    + intros p ps -> Hinactive. cbn [firstn]. now rewrite Hinactive.
Qed.

Lemma purchase_is_refused_in_order_witness :
  let run who what :=
    Transactions.createTransaction healthy 10 "TXN_1"
      (Fixture.purchase who what None) Fixture.empty_shop in
  run 99999 99999 = (Throw UserNotFound, Fixture.empty_shop)
  /\ run 2 99999 = (Throw ProductNotFound, Fixture.empty_shop)
  /\ run 2 3 = (Throw ProductNotActive, Fixture.empty_shop).
Proof.
  split; [|split].
  - apply (proj1 (purchase_is_refused_in_order healthy 10 "TXN_1"
                    (Fixture.purchase 99999 99999 None) Fixture.empty_shop
                    eq_refl eq_refl)).
    intros u [<-|[<-|[<-|[]]]]; discriminate.
  - apply (proj1 (proj2 (purchase_is_refused_in_order healthy 10 "TXN_1"
                           (Fixture.purchase 2 99999 None) Fixture.empty_shop
                           eq_refl eq_refl)
                    Fixture.buyer (or_intror (or_introl eq_refl)) eq_refl)).
    intros p [<-|[<-|[<-|[]]]]; discriminate.
  - apply (proj2 (proj2 (purchase_is_refused_in_order healthy 10 "TXN_1"
                           (Fixture.purchase 2 3 None) Fixture.empty_shop
                           eq_refl eq_refl)
                    Fixture.buyer (or_intror (or_introl eq_refl)) eq_refl)
             Fixture.inactive []); reflexivity.
Defined.

Lemma NoDup_snoc {A} (l : list A) (x : A) :
  NoDup l -> ~ In x l -> NoDup (l ++ [x]).
Proof.
  intros Hl Hx.
  apply (Permutation_NoDup (Permutation_cons_append l x)).
  now constructor.
Qed.

Lemma updated_rows_transaction_ids (now : Pg.timestamp)
    (input : UpdateTransactionStatusInput) (rows : list TransactionRow) :
  map t_transaction_id (updated_rows now input rows)
  = map t_transaction_id rows.
Proof.
  unfold updated_rows. rewrite map_map. apply map_ext. intros t.
  now destruct (has_transaction_id (uts_transaction_id input) t).
Qed.

Lemma purchase_keeps_unique_ids (f : Faults) (now : Pg.timestamp)
    (transactionId : string) (input : CreateTransactionInput) (db : Db) :
  NoDup (map t_transaction_id (transactions db)) ->
  NoDup (map t_transaction_id
           (transactions
              (snd (Transactions.createTransaction f now transactionId
                      input db)))).
Proof.
  intros Hnodup.
  destruct (Transactions.createTransaction f now transactionId input db)
    as [[created|e] db'] eqn:Hrun; cbn [snd].
  - destruct (createTransaction_ok_shape _ _ _ _ _ _ _ Hrun)
      as (p & ps & c & _ & _ & _ & -> & Hfresh).
    cbn [with_transactions transactions]. rewrite map_app.
    apply NoDup_snoc; [exact Hnodup|].
    cbn [created_row t_transaction_id].
    intros Hin. apply in_map_iff in Hin. destruct Hin as (t & E & Ht).
    exact (Hfresh t Ht E).
  - destruct (createTransaction_throw_shape _ _ _ _ _ _ _ Hrun)
      as (_ & _ & -> & _).
    exact Hnodup.
Qed.

Lemma update_keeps_unique_ids (f : Faults) (now : Pg.timestamp)
    (update : UpdateTransactionStatusInput) (db : Db) :
  NoDup (map t_transaction_id (transactions db)) ->
  NoDup (map t_transaction_id
           (transactions
              (snd (Transactions.updateTransactionStatus f now update db)))).
Proof.
  intros Hnodup.
  destruct (updateTransactionStatus_store f now update db)
    as (_ & _ & Ht & _).
  cbv zeta in Ht. destruct Ht as [-> | ->]; [exact Hnodup|].
  now rewrite updated_rows_transaction_ids.
Qed.

(** X10.  Transaction ids stay unique.  If no two stored transactions
    share a [transaction_id], that is still so after a purchase request
    and after a status update, whatever they return and under any fault
    plan. *)
Theorem transaction_ids_stay_unique
    (f : Faults) (now : Pg.timestamp) (transactionId : string)
    (input : CreateTransactionInput) (update : UpdateTransactionStatusInput)
    (db : Db) :
  NoDup (map t_transaction_id (transactions db)) ->
  NoDup (map t_transaction_id
           (transactions
              (snd (Transactions.createTransaction f now transactionId
                      input db))))
  /\ NoDup (map t_transaction_id
              (transactions
                 (snd (Transactions.updateTransactionStatus f now update
                         db)))).
Proof.
  intros Hnodup. split.
  - now apply purchase_keeps_unique_ids.
  - now apply update_keeps_unique_ids.
Qed.

Lemma transaction_ids_stay_unique_witness :
  NoDup (map t_transaction_id
           (transactions
              (snd (Transactions.createTransaction healthy 20 "TXN_2"
                      (Fixture.purchase 2 1 None) Fixture.shop_with_order))))
  /\ NoDup (map t_transaction_id
              (transactions
                 (snd (Transactions.updateTransactionStatus healthy 20
                         (Fixture.callback "TXN_1" success)
                         Fixture.shop_with_order)))).
Proof.
  apply transaction_ids_stay_unique.
  repeat constructor. intros [].
Defined.



(** X12.  The commission of a stored amount.  For every amount as the
    amount column holds it, a decimal with two fraction digits, the
    commission is a whole number within half a unit of five percent of the
    amount, with an exact half rounded up; it does not decrease when the
    stored amount grows; and it is zero for every stored amount from 0 up
    to 9.99. *)
Theorem commission_is_five_percent_rounded (amount_c : Pg.numeric) :
  Pg.numeric_ok amount_c = true ->
  let amount := Pg.parseFloat amount_c in
  exists k : Z,
    Transactions.calculateCommission amount = inject_Z k
    /\ (amount * (5 # 100) - (1 # 2) < inject_Z k)%Q
    /\ (inject_Z k <= amount * (5 # 100) + (1 # 2))%Q
    /\ 2000 * k - 1000 <= amount_c < 2000 * k + 1000
    /\ (forall larger_c k',
          Pg.numeric_ok larger_c = true ->
          amount_c <= larger_c ->
          Transactions.calculateCommission (Pg.parseFloat larger_c)
          = inject_Z k' -> k <= k')
    /\ (0 <= amount_c < 1000 -> k = 0).
Proof.
  intros _ amount.
  exists (Js.Math_round (amount * (5 # 100))%Q).
  split; [reflexivity|].
  assert (Hlo := Qfloor_le (amount * (5 # 100) + (1 # 2))%Q).
  assert (Hhi := Qlt_floor (amount * (5 # 100) + (1 # 2))%Q).
  rewrite inject_Z_plus in Hhi. change (inject_Z 1) with 1%Q in Hhi.
  split; [unfold Js.Math_round; lra|].
  split; [exact Hlo|].
  unfold amount. rewrite Math_round_five_percent.
  assert (Hdiv := Z.div_mod (amount_c + 1000) 2000 ltac:(lia)).
  assert (Hmod := Z.mod_pos_bound (amount_c + 1000) 2000 ltac:(lia)).
  split; [lia|]. split.
  - intros larger_c k' _ Hle Hk'.
    unfold Transactions.calculateCommission in Hk'.
    rewrite Math_round_five_percent in Hk'.
    apply (f_equal Qfloor) in Hk'. rewrite !Qfloor_Z in Hk'. subst k'.
    apply Z.div_le_mono; lia.
  - intros [H0 H10]. apply Z.div_small. lia.
Qed.

Lemma commission_is_five_percent_rounded_witness :
  Transactions.calculateCommission (Pg.parseFloat 999) = inject_Z 0
  /\ Transactions.calculateCommission (Pg.parseFloat 1000) = inject_Z 1
  /\ Transactions.calculateCommission (Pg.parseFloat 550000) = inject_Z 275.
Proof.
  destruct (commission_is_five_percent_rounded 999 eq_refl)
    as (k & E & _ & _ & _ & _ & Hsmall).
  cbv zeta in E. rewrite E, (Hsmall ltac:(lia)).
  repeat split.
Defined.

(** ** The ledger: payout, earnings, code validation *)

Section Payout.

Variable down : Ledger.Call -> bool.
Variable referralId : Z.

Let mark := fun r => if r_id r =? referralId then Ledger.set_paid r else r.

Lemma markReferralAsPaid_run (db : Db) :
  Ledger.markReferralAsPaid down referralId db
  = if down Ledger.UpdateReferral then (Throw StoreUnavailable, db)
    else
      (Ok (match filter (fun r => r_id r =? referralId) (referrals db) with
           | [] => None
           | r :: _ => Some (Referrals.convertDbReferral (Ledger.set_paid r))
           end),
       with_referrals db (map mark (referrals db)) (referrals_id_seq db)).
Proof.
  unfold Ledger.markReferralAsPaid, call_when. run_monad.
  destruct (down Ledger.UpdateReferral); [reflexivity|].
  now destruct (filter (fun r => r_id r =? referralId) (referrals db)).
Qed.

Lemma set_paid_of_paid (r : ReferralRow) :
  r_is_paid r = true -> Ledger.set_paid r = r.
Proof. destruct r; cbn; now intros ->. Qed.

Lemma mark_twice (rows : list ReferralRow) :
  map mark (map mark rows) = map mark rows.
Proof.
  rewrite map_map. apply map_ext. intros r. unfold mark.
  destruct (r_id r =? referralId) eqn:E; cbn [Ledger.set_paid r_id];
    now rewrite E.
Qed.

Lemma filter_marked (rows : list ReferralRow) :
  filter (fun r => r_id r =? referralId) (map mark rows)
  = map Ledger.set_paid (filter (fun r => r_id r =? referralId) rows).
Proof.
  induction rows as [|r rows IH]; [reflexivity|].
  cbn [map filter]. unfold mark at 1 2.
  destruct (r_id r =? referralId) eqn:E.
  - cbn [Ledger.set_paid r_id]. rewrite E. cbn [map]. now rewrite IH.
  - rewrite E. exact IH.
Qed.

Lemma mark_keeps (rows : list ReferralRow) :
  map besides_paid (map mark rows) = map besides_paid rows.
Proof.
  rewrite map_map. apply map_ext. intros r. unfold mark.
  now destruct (r_id r =? referralId).
Qed.

Lemma mark_keeps_paid (rows : list ReferralRow) (r : ReferralRow) :
  In r rows -> r_is_paid r = true -> In r (map mark rows).
Proof.
  intros Hin Hpaid. apply in_map_iff. exists r. split; [|exact Hin].
  unfold mark. destruct (r_id r =? referralId); [|reflexivity].
  now apply set_paid_of_paid.
Qed.

End Payout.

(** X13.  Marking a referral as paid, on a store that answers.  An id no
    record has gives null and changes nothing.  Otherwise the record is
    returned paid with its amount; in the ledger nothing but paid flags
    changes, records with another id are left as they were and no paid
    record becomes unpaid.  Doing it a second time returns the same and
    leaves the store as the first time left it. *)
Theorem payout_flips_one_flag
    (down : Ledger.Call -> bool) (referralId : Z) (db : Db) :
  down Ledger.UpdateReferral = false ->
  let run := Ledger.markReferralAsPaid down referralId db in
  ((forall r, In r (referrals db) -> r_id r <> referralId) ->
   run = (Ok None, db))
  /\ (forall r rest,
        filter (fun r => r_id r =? referralId) (referrals db) = r :: rest ->
        exists paid,
          fst run = Ok (Some paid)
          /\ ref_id paid = referralId /\ ref_is_paid paid = true
          /\ ref_commission_amount paid
             = Pg.parseFloat (r_commission_amount r))
  /\ map besides_paid (referrals (snd run))
     = map besides_paid (referrals db)
  /\ (forall r, In r (referrals db) ->
                r_id r <> referralId \/ r_is_paid r = true ->
                In r (referrals (snd run)))
  /\ Ledger.markReferralAsPaid down referralId (snd run) = run.
Proof.
  intros Hdown run. unfold run.
  rewrite !markReferralAsPaid_run, Hdown. cbn [fst snd].
  split; [|split; [|split; [|split]]].
  - intros Hnone.
    assert (E : filter (fun r => r_id r =? referralId) (referrals db) = []).
    { apply no_match_filter_by. intros r Hr. apply Z.eqb_neq.
      now apply Hnone. }
    rewrite E, map_unmatched by exact E. f_equal. now destruct db.
  - intros r rest E. rewrite E. eexists. split; [reflexivity|].
    assert (Hr : In r (filter (fun r => r_id r =? referralId) (referrals db)))
      by (rewrite E; now left).
    apply filter_In in Hr. destruct Hr as [_ Hid]. apply Z.eqb_eq in Hid.
    repeat split. exact Hid.
  - apply mark_keeps.
  - intros r Hin [Hother|Hpaid].
    + apply in_map_iff. exists r. split; [|exact Hin].
      now rewrite (proj2 (Z.eqb_neq _ _) Hother).
    + now apply mark_keeps_paid.
  - cbn [with_referrals referrals referrals_id_seq].
    rewrite mark_twice, filter_marked.
    f_equal.
    destruct (filter (fun r => r_id r =? referralId) (referrals db));
      reflexivity.
Qed.

Lemma payout_flips_one_flag_witness :
  let settled :=
    snd (Transactions.updateTransactionStatus healthy 20
           (Fixture.callback "TXN_1" success) Fixture.shop_with_order) in
  let run := Ledger.markReferralAsPaid all_answer 1 settled in
  map r_is_paid (referrals settled) = [false]
  /\ map r_is_paid (referrals (snd run)) = [true]
  /\ Ledger.markReferralAsPaid all_answer 1 (snd run) = run
  /\ Ledger.markReferralAsPaid all_answer 999 settled = (Ok None, settled).
Proof.
  split; [reflexivity|]. split; [reflexivity|]. split.
  - exact (proj2 (proj2 (proj2 (proj2
             (payout_flips_one_flag all_answer 1
                (snd (Transactions.updateTransactionStatus healthy 20
                        (Fixture.callback "TXN_1" success)
                        Fixture.shop_with_order)) eq_refl))))).
  - apply (proj1 (payout_flips_one_flag all_answer 999
                    (snd (Transactions.updateTransactionStatus healthy 20
                            (Fixture.callback "TXN_1" success)
                            Fixture.shop_with_order)) eq_refl)).
    intros r [<-|[]]. discriminate.
Defined.

(** The standalone settlement procedure, seen from the store: it leaves
    users, products and transactions alone and appends at most one unpaid
    row to the ledger. *)
Lemma standalone_settlement_store (f : Faults) (now : Pg.timestamp)
    (transactionId : Z) (db : Db) :
  let db' :=
    snd (Referrals.processReferralCommission f now transactionId db) in
  users db' = users db /\ products db' = products db
  /\ transactions db' = transactions db
  /\ (referrals db' = referrals db
      \/ exists r, referrals db' = referrals db ++ [r]
                   /\ r_transaction_id r = transactionId
                   /\ r_is_paid r = false).
Proof.
  unfold Referrals.processReferralCommission, insert_referral.
  run_monad.
  destruct (f SelectTransactionWithUser); [cbn; auto|].
  destruct (Sql.inner_join _ _ _) as [|[t u] rest]; [cbn; auto|].
  destruct (u_referred_by_id u) as [referrer|]; [|cbn; auto].
  destruct (Js.truthy_int referrer); [|cbn; auto].
  destruct (f InsertReferral); [cbn; auto|].
  destruct (Pg.to_numeric _) as [c|]; [|cbn; auto].
  cbn. repeat split; auto. right. eexists. repeat split.
Qed.

(** What one operation keeps. *)
Lemma perform_keeps (op : Operation) (db : Db) :
  users (perform db op) = users db
  /\ products (perform db op) = products db
  /\ (exists extra,
        map besides_paid (referrals (perform db op))
        = map besides_paid (referrals db) ++ extra)
  /\ (forall r, In r (referrals db) -> r_is_paid r = true ->
                In r (referrals (perform db op)))
  /\ (NoDup (map t_transaction_id (transactions db)) ->
      NoDup (map t_transaction_id (transactions (perform db op)))).
Proof.
  destruct op as [f now transactionId input | f now input
                 | f now transactionId | down referralId];
    cbn [perform].
  - assert (H : users (snd (Transactions.createTransaction f now
                              transactionId input db)) = users db
                /\ products (snd (Transactions.createTransaction f now
                                    transactionId input db)) = products db
                /\ referrals (snd (Transactions.createTransaction f now
                                     transactionId input db))
                   = referrals db).
    { destruct (Transactions.createTransaction f now transactionId input db)
        as [[created|e] db'] eqn:Hrun; cbn [snd].
      - destruct (createTransaction_ok_shape _ _ _ _ _ _ _ Hrun)
          as (p & ps & c & _ & _ & _ & -> & _). auto.
      - destruct (createTransaction_throw_shape _ _ _ _ _ _ _ Hrun)
          as (Hu & Hp & _ & Hr). auto. }
    destruct H as (Hu & Hp & Hr). rewrite Hu, Hp, Hr.
    repeat split; auto.
    + exists []. now rewrite app_nil_r.
    + apply purchase_keeps_unique_ids.
  - destruct (updateTransactionStatus_store f now input db)
      as (Hu & Hp & _ & extra & Hr & _).
    cbv zeta in *. rewrite Hu, Hp, Hr. repeat split; auto.
    + exists (map besides_paid extra). now rewrite map_app.
    + intros r Hin _. apply in_or_app. now left.
    + apply update_keeps_unique_ids.
  - destruct (standalone_settlement_store f now transactionId db)
      as (Hu & Hp & Ht & Hr).
    cbv zeta in *. rewrite Hu, Hp, Ht. repeat split; auto.
    + destruct Hr as [-> | (r & -> & _)].
      * exists []. now rewrite app_nil_r.
      * exists [besides_paid r]. now rewrite map_app.
    + intros r Hin _. destruct Hr as [-> | (r' & -> & _)]; [exact Hin|].
      apply in_or_app. now left.
  - rewrite markReferralAsPaid_run.
    destruct (down Ledger.UpdateReferral); cbn [snd].
    + repeat split; auto. exists []. now rewrite app_nil_r.
    + cbn [with_referrals users products referrals transactions].
      repeat split; auto.
      * exists []. rewrite app_nil_r. apply mark_keeps.
      * intros r Hin Hpaid. now apply mark_keeps_paid.
Qed.

(** X14.  The history of the ledger is kept.  Whatever purchases, status
    updates, standalone settlements and payouts are run one after the
    other, under whatever fault plans: users and products are as they
    were, every ledger row that existed is still there with its referrer,
    buyer, amount and transaction, in its place, a row that was paid is
    still paid, and transaction ids that were unique are still unique. *)
Theorem ledger_history_is_kept (ops : list Operation) (db : Db) :
  let final := perform_all ops db in
  users final = users db
  /\ products final = products db
  /\ (exists extra,
        map besides_paid (referrals final)
        = map besides_paid (referrals db) ++ extra)
  /\ (forall r, In r (referrals db) -> r_is_paid r = true ->
                In r (referrals final))
  /\ (NoDup (map t_transaction_id (transactions db)) ->
      NoDup (map t_transaction_id (transactions final))).
Proof.
  unfold perform_all. revert db.
  induction ops as [|op ops IH]; intros db; cbn [fold_left].
  - repeat split; auto. exists []. now rewrite app_nil_r.
  - destruct (perform_keeps op db) as (Hu & Hp & (e1 & He1) & Hpaid & Hnd).
    destruct (IH (perform db op)) as (Hu' & Hp' & (e2 & He2) & Hpaid' & Hnd').
    cbv zeta in *.
    rewrite Hu', Hp', Hu, Hp.
    split; [reflexivity|]. split; [reflexivity|]. split; [|split].
    + exists (e1 ++ e2). now rewrite He2, He1, app_assoc.
    + intros r Hin Hr. apply Hpaid'; [now apply Hpaid | exact Hr].
    + intros H. apply Hnd', Hnd, H.
Qed.

(** ** The earnings of a referrer *)

Section Earnings.

Variable down : Ledger.Call -> bool.
Variable userId : Z.

Let mine (db : Db) : list ReferralRow :=
  filter (fun r => r_referrer_id r =? userId) (referrals db).

Lemma getUserReferralEarnings_run (db : Db) :
  Ledger.getUserReferralEarnings down userId db
  = if down Ledger.SelectReferrals then (Throw StoreUnavailable, db)
    else
      let converted := map Referrals.convertDbReferral (mine db) in
      (Ok {| total_earnings := Ledger.sum_commissions converted;
             pending_earnings :=
               Ledger.sum_commissions
                 (filter (fun r => negb (ref_is_paid r)) converted);
             paid_earnings :=
               Ledger.sum_commissions
                 (filter (fun r => ref_is_paid r) converted);
             total_referrals := Z.of_nat (List.length converted);
             earned_referrals := converted |}, db).
Proof.
  unfold Ledger.getUserReferralEarnings, call_when. run_monad.
  now destruct (down Ledger.SelectReferrals).
Qed.

Lemma converted_all_paid (rows : list ReferralRow) :
  forallb r_is_paid rows = true ->
  filter (fun r => ref_is_paid r) (map Referrals.convertDbReferral rows)
  = map Referrals.convertDbReferral rows
  /\ filter (fun r => negb (ref_is_paid r))
       (map Referrals.convertDbReferral rows) = [].
Proof.
  induction rows as [|r rows IH]; [now split|].
  cbn [forallb map filter Referrals.convertDbReferral ref_is_paid].
  intros H. apply andb_prop in H. destruct H as [-> H].
  destruct (IH H) as [-> ->]. now split.
Qed.

Lemma converted_none_paid (rows : list ReferralRow) :
  forallb (fun r => negb (r_is_paid r)) rows = true ->
  filter (fun r => ref_is_paid r) (map Referrals.convertDbReferral rows) = []
  /\ filter (fun r => negb (ref_is_paid r))
       (map Referrals.convertDbReferral rows)
     = map Referrals.convertDbReferral rows.
Proof.
  induction rows as [|r rows IH]; [now split|].
  cbn [forallb map filter Referrals.convertDbReferral ref_is_paid].
  intros H. apply andb_prop in H. destruct H as [Hr H].
  apply negb_true_iff in Hr. rewrite Hr.
  destruct (IH H) as [-> ->]. now split.
Qed.


End Earnings.

(** X15.  The edges of an earnings report.  The report leaves the store
    alone.  When the ledger cannot be read it throws.  Otherwise it lists
    the caller's ledger rows in ledger order and counts them; with no
    row every sum is 0; when every row is paid nothing is pending and the
    paid sum is the total; when no row is paid nothing is paid and the
    pending sum is the total. *)
Theorem earnings_report_edges (down : Ledger.Call -> bool) (userId : Z)
    (db : Db) :
  let mine := filter (fun r => r_referrer_id r =? userId) (referrals db) in
  let run := Ledger.getUserReferralEarnings down userId db in
  snd run = db
  /\ (down Ledger.SelectReferrals = true -> fst run = Throw StoreUnavailable)
  /\ (down Ledger.SelectReferrals = false ->
      exists e,
        fst run = Ok e
        /\ earned_referrals e = map Referrals.convertDbReferral mine
        /\ total_referrals e = Z.of_nat (List.length mine)
        /\ (mine = [] ->
            total_earnings e = 0%Q /\ pending_earnings e = 0%Q
            /\ paid_earnings e = 0%Q)
        /\ (forallb r_is_paid mine = true ->
            pending_earnings e = 0%Q
            /\ paid_earnings e = total_earnings e)
        /\ (forallb (fun r => negb (r_is_paid r)) mine = true ->
            paid_earnings e = 0%Q
            /\ pending_earnings e = total_earnings e)).
Proof.
  cbv zeta. rewrite getUserReferralEarnings_run.
  destruct (down Ledger.SelectReferrals).
  - split; [reflexivity|]. split; [reflexivity|discriminate].
  - split; [reflexivity|]. split; [discriminate|]. intros _.
    eexists. split; [reflexivity|].
    cbn [earned_referrals total_referrals total_earnings pending_earnings
         paid_earnings].
    split; [reflexivity|]. split; [now rewrite length_map|].
    split; [|split].
    + intros ->. now cbn.
    + intros Hall. destruct (converted_all_paid _ Hall) as [-> ->].
      now split.
    + intros Hnone. destruct (converted_none_paid _ Hnone) as [-> ->].
      now split.
Qed.

Lemma earnings_report_edges_witness :
  let paid_one :=
    with_referrals Fixture.busy_shop
      [Ledger.set_paid
         (commission_row 20 Fixture.busy_shop 1 2 1 1000000)] 1 in
  exists e,
    fst (Ledger.getUserReferralEarnings (fun _ => false) 1 paid_one) = Ok e
    /\ pending_earnings e = 0%Q
    /\ paid_earnings e = total_earnings e.
Proof.
  cbv zeta.
  destruct (earnings_report_edges (fun _ => false) 1
              (with_referrals Fixture.busy_shop
                 [Ledger.set_paid
                    (commission_row 20 Fixture.busy_shop 1 2 1 1000000)] 1))
    as (_ & _ & H).
  destruct (H eq_refl) as (e & He & _ & _ & _ & Hpaid & _).
  exists e. split; [exact He|]. apply Hpaid. reflexivity.
Defined.





(** X17.  A settled commission shows in the referrer's earnings.  When a
    success status reaches a stored transaction of a referred buyer and
    the store answers, the referrer's next earnings report lists the
    records of the old one and one more after them: unpaid, for that buyer
    and that transaction, of five percent of the stored amount rounded to
    a whole unit; it counts one referral more and its paid earnings are
    what they were.  The report of every other user is what it was. *)
Theorem settled_commission_shows_in_earnings
    (f : Faults) (now : Pg.timestamp) (input : UpdateTransactionStatusInput)
    (db : Db) (t : TransactionRow) (rest : list TransactionRow)
    (u : UserRow) (us : list UserRow) (referrer userId : Z)
    (reader : Ledger.Call -> bool) :
  f UpdateTransactions = false -> f SelectUsers = false ->
  f InsertReferral = false ->
  uts_status input = success ->
  filter (has_transaction_id (uts_transaction_id input)) (transactions db)
  = t :: rest ->
  filter (fun u => u_id u =? t_user_id t) (users db) = u :: us ->
  u_referred_by_id u = Some referrer -> referrer <> 0 ->
  Pg.numeric_ok (t_amount t) = true ->
  reader Ledger.SelectReferrals = false ->
  let after := snd (Transactions.updateTransactionStatus f now input db) in
  exists e e',
    Ledger.getUserReferralEarnings reader userId db = (Ok e, db)
    /\ Ledger.getUserReferralEarnings reader userId after = (Ok e', after)
    /\ (userId <> referrer -> e' = e)
    /\ (userId = referrer ->
        exists record,
          earned_referrals e' = earned_referrals e ++ [record]
          /\ ref_referrer_id record = referrer
          /\ ref_referred_id record = t_user_id t
          /\ ref_transaction_id record = t_id t
          /\ ref_is_paid record = false
          /\ ref_commission_amount record
             = Pg.parseFloat
                 (Js.Math_round (Pg.parseFloat (t_amount t) * (5 # 100))%Q
                  * 100)
          /\ total_referrals e' = total_referrals e + 1
          /\ paid_earnings e' = paid_earnings e).
Proof.
  intros Hup Hsel Hins Hst Hfound Hu Href Hnz Hok Hread. cbv zeta.
  rewrite (success_delivery_appends f now input db t rest u us referrer
             Hup Hsel Hins Hst Hfound Hu Href Hnz Hok).
  cbn [snd]. rewrite !getUserReferralEarnings_run, Hread. cbv zeta.
  cbn [referrals]. rewrite filter_app. cbn [filter commission_row
    r_referrer_id].
  do 2 eexists. split; [reflexivity|]. split; [reflexivity|].
  destruct (Z.eqb_spec referrer userId) as [E|E].
  - split; [intros H; now contradiction H|]. intros _.
    rewrite !map_app. cbn [map].
    eexists. cbn [earned_referrals total_referrals total_earnings
                  paid_earnings].
    split; [reflexivity|].
    cbn [Referrals.convertDbReferral ref_referrer_id ref_referred_id
         ref_transaction_id ref_is_paid ref_commission_amount
         r_referrer_id r_referred_id r_transaction_id r_is_paid
         r_commission_amount].
    repeat (split; [reflexivity|]).
    split; [now rewrite Math_round_five_percent|].
    split; [rewrite length_app, !length_map; cbn [List.length]; lia|].
    rewrite filter_app. cbn [filter ref_is_paid]. now rewrite app_nil_r.
  - split; [|intros H; now contradiction E].
    intros _. now rewrite app_nil_r.
Qed.

Lemma settled_commission_shows_in_earnings_witness :
  exists e e',
    Ledger.getUserReferralEarnings (fun _ => false) 1 Fixture.shop_with_order
    = (Ok e, Fixture.shop_with_order)
    /\ fst (Ledger.getUserReferralEarnings (fun _ => false) 1
              (snd (Transactions.updateTransactionStatus healthy 20
                      (Fixture.callback "TXN_1" success)
                      Fixture.shop_with_order)))
       = Ok e'
    /\ total_referrals e' = total_referrals e + 1.
Proof.
  destruct (settled_commission_shows_in_earnings healthy 20
              (Fixture.callback "TXN_1" success) Fixture.shop_with_order
              Fixture.order_row [] Fixture.buyer [] 1 1 (fun _ => false))
    as (e & e' & He & He' & _ & Hmine);
    try reflexivity; [discriminate|].
  destruct (Hmine eq_refl) as (record & _ & _ & _ & _ & _ & _ & Hn & _).
  exists e, e'. split; [exact He|]. split; [now rewrite He'|exact Hn].
Defined.

(** ** Registration and login *)

Section Passwords.

Variable pbkdf2_hex : string -> string -> string.

Lemma split_no_colon (s : string) :
  no_colon s = true -> Auth.split ":"%char s = [s].
Proof.
  unfold no_colon. induction s as [|c s IH]; [reflexivity|].
  cbn [list_ascii_of_string forallb Auth.split]. intros H.
  apply andb_prop in H. destruct H as [Hc Hs].
  apply negb_true_iff in Hc. rewrite Hc, (IH Hs). reflexivity.
Qed.

Lemma split_at_first_colon (s rest : string) :
  no_colon s = true ->
  Auth.split ":"%char (s ++ String ":"%char rest)
  = s :: Auth.split ":"%char rest.
Proof.
  unfold no_colon. induction s as [|c s IH].
  - intros _. cbn [String.append Auth.split]. now rewrite Ascii.eqb_refl.
  - cbn [list_ascii_of_string forallb String.append Auth.split]. intros H.
    apply andb_prop in H. destruct H as [Hc Hs].
    apply negb_true_iff in Hc. rewrite Hc, (IH Hs). reflexivity.
Qed.

Lemma verify_hashed (salt password attempt : string) :
  no_colon salt = true ->
  no_colon (pbkdf2_hex password salt) = true ->
  Auth.verifyPassword pbkdf2_hex attempt
    (Registration.hashPassword pbkdf2_hex salt password)
  = (pbkdf2_hex password salt =? pbkdf2_hex attempt salt)%string.
Proof.
  intros Hsalt Hhash. unfold Auth.verifyPassword, Registration.hashPassword.
  cbn [String.append].
  now rewrite (split_at_first_colon _ _ Hsalt), (split_no_colon _ Hhash).
Qed.

End Passwords.

(** X18.  Hashing and verifying a password.  With a salt and a digest
    that hold no colon, as hexadecimal strings do, the stored form
    [salt:digest] verifies the password it was made from, and verifies
    another attempt exactly when that attempt has the same digest under
    the same salt.  A stored string with no colon in it verifies
    nothing. *)
Theorem hashed_password_verifies
    (pbkdf2_hex : string -> string -> string)
    (salt password : string) :
  no_colon salt = true ->
  no_colon (pbkdf2_hex password salt) = true ->
  Auth.verifyPassword pbkdf2_hex password
    (Registration.hashPassword pbkdf2_hex salt password) = true
  /\ (forall attempt,
        Auth.verifyPassword pbkdf2_hex attempt
          (Registration.hashPassword pbkdf2_hex salt password) = true
        <-> pbkdf2_hex attempt salt = pbkdf2_hex password salt)
  /\ (forall attempt stored,
        no_colon stored = true ->
        Auth.verifyPassword pbkdf2_hex attempt stored = false).
Proof.
  intros Hsalt Hhash. split; [|split].
  - rewrite verify_hashed by assumption. apply String.eqb_refl.
  - intros attempt. rewrite verify_hashed by assumption.
    rewrite String.eqb_eq. split; congruence.
  - intros attempt stored Hstored. unfold Auth.verifyPassword.
    now rewrite (split_no_colon _ Hstored).
Qed.

Lemma hashed_password_verifies_witness :
  Auth.verifyPassword Fixture.toy_pbkdf2 "secret"
    (Registration.hashPassword Fixture.toy_pbkdf2 "00ff" "secret") = true.
Proof.
  apply (hashed_password_verifies Fixture.toy_pbkdf2 "00ff" "secret");
    reflexivity.
Defined.

Section Registering.

Variable pbkdf2_hex : string -> string -> string.
Variable generateToken : Pg.timestamp -> Z -> string.
Variable down : Registration.Call -> bool.
Variable now : Pg.timestamp.
Variable salt : string.
Variable newId : Z.
Variable input : RegisterInput.
Variable db : Db.

Lemma pick_referral_code_ok (codes : list string) (code : string) :
  Registration.pick_referral_code down codes db = Some (Ok code) ->
  In code codes
  /\ filter (fun u => (u_referral_code u =? code)%string) (users db) = [].
Proof.
  induction codes as [|c codes IH]; [discriminate|].
  cbn [Registration.pick_referral_code].
  destruct (down Registration.SelectByCode); [discriminate|]. cbv zeta.
  destruct (filter (fun u => (u_referral_code u =? c)%string) (users db))
    eqn:E; cbn [List.length Nat.eqb].
  - intros H. injection H as <-. split; [now left | exact E].
  - intros H. destruct (IH H) as [Hin Hfree]. split; [now right | exact Hfree].
Qed.

Lemma existsb_false_forall {A : Type} (p : A -> bool) (l : list A) :
  existsb p l = false -> forall a, In a l -> p a = false.
Proof.
  induction l as [|b l IH]; [intros _ a []|].
  cbn [existsb]. intros H. apply orb_false_iff in H. destruct H as [Hb Hl].
  intros a [<-|Hin]; [exact Hb | now apply IH].
Qed.

Lemma filter_nil_forall {A : Type} (p : A -> bool) (l : list A) :
  filter p l = [] -> forall a, In a l -> p a = false.
Proof.
  intros H a Hin. destruct (p a) eqn:E; [|reflexivity].
  assert (Hf : In a (filter p l)) by (apply filter_In; now split).
  rewrite H in Hf. destruct Hf.
Qed.

Lemma forall_filter_nil {A : Type} (p : A -> bool) (l : list A) :
  (forall a, In a l -> p a = false) -> filter p l = [].
Proof.
  induction l as [|b l IH]; [reflexivity|].
  intros H. cbn [filter]. rewrite (H b (or_introl eq_refl)).
  apply IH. intros a Hin. apply H. now right.
Qed.

(** An accepted registration, taken apart. *)
Lemma register_accepted (codes : list string) (response : Auth.AuthResponse)
    (db' : Db) :
  Registration.register pbkdf2_hex generateToken down now salt codes newId
    input db = Some (Registration.Registered response, db') ->
  exists code,
    let row := registered_row pbkdf2_hex now salt newId code input db in
    In code codes
    /\ filter (fun u => (u_email u =? ri_email input)%string) (users db) = []
    /\ filter (fun u => (u_referral_code u =? code)%string) (users db) = []
    /\ (forall u, In u (users db) -> u_id u <> newId)
    /\ db' = with_users db (users db ++ [row])
    /\ response = response_of (generateToken now newId) row.
Proof.
  unfold Registration.register.
  destruct (down Registration.SelectByEmail); [discriminate|]. cbv zeta.
  destruct (filter (fun u => (u_email u =? ri_email input)%string) (users db))
    as [|v vs] eqn:Hemail; cbn [List.length Nat.ltb Nat.leb];
    [|discriminate].
  destruct (Registration.pick_referral_code down codes db)
    as [[code|e]|] eqn:Hpick; [|discriminate|discriminate].
  destruct (pick_referral_code_ok _ _ Hpick) as [Hin Hfree].
  assert (Hlookup :
    forall k : Result (option Z) -> option (Registration.Outcome * Db),
      (forall e, k (Throw e) <> Some (Registration.Registered response, db')) ->
      k (match ri_referral_code input with
         | Some code0 =>
             if Js.truthy_string code0 then
               if down Registration.SelectReferrer then Throw StoreUnavailable
               else
                 match filter
                         (fun u => (u_referral_code u =? code0)%string)
                         (users db) with
                 | referrer :: _ => Ok (Some (u_id referrer))
                 | [] => Ok None
                 end
             else Ok None
         | None => Ok None
         end) = Some (Registration.Registered response, db') ->
      k (Ok (named_referrer input db))
      = Some (Registration.Registered response, db')).
  { intros k Hk. unfold named_referrer.
    destruct (ri_referral_code input) as [code0|]; [|auto].
    destruct (Js.truthy_string code0); [|auto].
    destruct (down Registration.SelectReferrer);
      [intros H; now apply Hk in H|].
    now destruct (filter (fun u => (u_referral_code u =? code0)%string)
                   (users db)). }
  intros H.
  apply (Hlookup
           (fun lookup =>
              match lookup with
              | Throw e =>
                  Some (Registration.Failed (Registration.StoreError e), db)
              | Ok referrerId =>
                  match Registration.insert_user down now newId
                          (ri_email input)
                          (Registration.hashPassword pbkdf2_hex salt
                             (ri_password input))
                          (ri_full_name input)
                          (Js.string_or_null (ri_phone_number input))
                          code referrerId db with
                  | (Throw e, db'0) =>
                      Some (Registration.Failed (Registration.StoreError e),
                            db'0)
                  | (Ok newUser, db'0) =>
                      Some
                        (Registration.Registered
                           (response_of (generateToken now (u_id newUser))
                              newUser), db'0)
                  end
              end)) in H; [|discriminate].
  cbv beta iota in H. unfold Registration.insert_user in H.
  destruct (down Registration.InsertUser); [discriminate|].
  destruct (existsb _ (users db)) eqn:Hunique; [discriminate|].
  injection H as <- <-.
  exists code. cbv zeta. repeat split; auto.
  intros u Hu Hid.
  pose proof (existsb_false_forall _ _ Hunique u Hu) as Hno.
  cbv beta in Hno. apply orb_false_iff in Hno. destruct Hno as [Hno _].
  apply orb_false_iff in Hno. destruct Hno as [Hno _].
  apply Z.eqb_neq in Hno. contradiction.
Qed.

(** A refused registration leaves the store as it was. *)
Lemma register_refused (codes : list string) (e : Registration.RegisterError)
    (db' : Db) :
  Registration.register pbkdf2_hex generateToken down now salt codes newId
    input db = Some (Registration.Failed e, db') ->
  db' = db.
Proof.
  unfold Registration.register.
  destruct (down Registration.SelectByEmail); [now intros [= _ <-]|].
  cbv zeta.
  destruct (0 <? _)%nat; [now intros [= _ <-]|].
  destruct (Registration.pick_referral_code down codes db) as [[code|e']|];
    [|now intros [= _ <-]|discriminate].
  match goal with
  | |- context [match ?l with Throw _ => _ | Ok _ => _ end] =>
      destruct l as [referrerId|e']
  end; [|now intros [= _ <-]].
  unfold Registration.insert_user.
  destruct (down Registration.InsertUser); [now intros [= _ <-]|].
  destruct (existsb _ (users db)); [now intros [= _ <-]|discriminate].
Qed.

End Registering.



Lemma NoDup_map_snoc {A B : Type} (key : A -> B) (l : list A) (a : A) :
  NoDup (map key l) -> (forall b, In b l -> key b <> key a) ->
  NoDup (map key (l ++ [a])).
Proof.
  intros Hl Hfresh. rewrite map_app. cbn [map].
  apply NoDup_snoc; [exact Hl|].
  intros Hin. apply in_map_iff in Hin. destruct Hin as (b & E & Hb).
  exact (Hfresh b Hb E).
Qed.

(** X20.  Registrations keep the users apart.  If ids, emails and
    referral codes are each unique among the stored users, they still are
    after a registration, accepted or refused, under any fault plan: the
    email is looked up first and the referral code is drawn again until it
    is free. *)
Theorem registration_keeps_users_unique
    (pbkdf2_hex : string -> string -> string)
    (generateToken : Pg.timestamp -> Z -> string)
    (down : Registration.Call -> bool) (now : Pg.timestamp) (salt : string)
    (codes : list string) (newId : Z) (input : RegisterInput) (db db' : Db)
    (outcome : Registration.Outcome) :
  NoDup (map u_id (users db)) ->
  NoDup (map u_email (users db)) ->
  NoDup (map u_referral_code (users db)) ->
  Registration.register pbkdf2_hex generateToken down now salt codes newId
    input db = Some (outcome, db') ->
  NoDup (map u_id (users db'))
  /\ NoDup (map u_email (users db'))
  /\ NoDup (map u_referral_code (users db')).
Proof.
  intros Hids Hemails Hcodes Hrun.
  destruct outcome as [response|e].
  - destruct (register_accepted _ _ _ _ _ _ _ _ _ _ _ Hrun)
      as (code & _ & Hemail & Hcode & Hid & -> & _).
    cbn [with_users users]. repeat split; apply NoDup_map_snoc; auto.
    + intros u Hu. pose proof (filter_nil_forall _ _ Hemail u Hu) as H.
      cbv beta in H. now apply String.eqb_neq in H.
    + intros u Hu. pose proof (filter_nil_forall _ _ Hcode u Hu) as H.
      cbv beta in H. now apply String.eqb_neq in H.
  - now rewrite (register_refused _ _ _ _ _ _ _ _ _ _ _ Hrun).
Qed.

Lemma registration_keeps_users_unique_witness :
  let input :=
    {| ri_email := "new@test.com"%string; ri_password := "secret"%string;
       ri_full_name := "New User"%string; ri_phone_number := None;
       ri_referral_code := None |} in
  NoDup
    (map u_email
       (users
          (with_users Fixture.empty_shop
             (users Fixture.empty_shop
              ++ [registered_row Fixture.toy_pbkdf2 20 "00ff" 5 "REFABC123"
                    input Fixture.empty_shop])))).
Proof.
  cbv zeta.
  refine (proj1 (proj2
    (registration_keeps_users_unique Fixture.toy_pbkdf2 Fixture.toy_token
       all_answer 20 "00ff" ["REFABC123"%string] 5
       {| ri_email := "new@test.com"%string; ri_password := "secret"%string;
          ri_full_name := "New User"%string; ri_phone_number := None;
          ri_referral_code := None |}
       Fixture.empty_shop _ _ _ _ _ eq_refl))).
  - cbn. repeat constructor; cbn; intuition lia.
  - cbn. repeat constructor; cbn; intuition discriminate.
  - cbn. repeat constructor; cbn; intuition discriminate.
Defined.

(** X21.  Who registered can log in.  After an accepted registration,
    with a salt and a digest that hold no colon, a login with the same
    email and password on a store that answers succeeds: it returns the
    user the registration returned, with a token made for that user's id,
    and leaves the store alone.  A login with that email and another
    password is refused with 'Invalid email or password' unless the two
    passwords have the same digest under the stored salt. *)
Theorem registered_user_can_log_in
    (pbkdf2_hex : string -> string -> string)
    (generateToken : Pg.timestamp -> Z -> string)
    (down : Registration.Call -> bool) (now later : Pg.timestamp)
    (salt : string) (codes : list string) (newId : Z)
    (input : RegisterInput) (db db' : Db) (response : Auth.AuthResponse)
    (f : Faults) :
  Registration.register pbkdf2_hex generateToken down now salt codes newId
    input db = Some (Registration.Registered response, db') ->
  no_colon salt = true ->
  no_colon (pbkdf2_hex (ri_password input) salt) = true ->
  f SelectUsers = false ->
  Auth.login pbkdf2_hex generateToken f later
    {| li_email := ri_email input; li_password := ri_password input |} db'
  = (Ok {| Auth.user := Auth.user response;
           Auth.token := generateToken later newId |}, db')
  /\ (forall attempt,
        pbkdf2_hex attempt salt <> pbkdf2_hex (ri_password input) salt ->
        Auth.login pbkdf2_hex generateToken f later
          {| li_email := ri_email input; li_password := attempt |} db'
        = (Throw InvalidEmailOrPassword, db')).
Proof.
  intros Hrun Hsalt Hhash Hf.
  destruct (register_accepted _ _ _ _ _ _ _ _ _ _ _ Hrun)
    as (code & _ & Hemail & _ & _ & -> & ->).
  assert (Hfound :
    filter (fun u => (u_email u =? ri_email input)%string)
      (users db
       ++ [registered_row pbkdf2_hex now salt newId code input db])
    = [registered_row pbkdf2_hex now salt newId code input db]).
  { rewrite filter_app, Hemail. cbn [filter registered_row u_email app].
    now rewrite String.eqb_refl. }
  unfold Auth.login, select_users_by_email. run_monad.
  cbn [li_email li_password with_users users]. rewrite Hf, Hfound.
  cbv beta iota zeta. cbn [registered_row u_password_hash].
  split.
  - rewrite verify_hashed by assumption. rewrite String.eqb_refl.
    cbn [negb]. reflexivity.
  - intros attempt Hdiff. rewrite verify_hashed by assumption.
    assert (E : (pbkdf2_hex (ri_password input) salt
                 =? pbkdf2_hex attempt salt)%string = false)
      by (apply String.eqb_neq; congruence).
    now rewrite E.
Qed.

Lemma registered_user_can_log_in_witness :
  let input :=
    {| ri_email := "new@test.com"%string; ri_password := "secret"%string;
       ri_full_name := "New User"%string; ri_phone_number := None;
       ri_referral_code := None |} in
  let db' :=
    with_users Fixture.empty_shop
      (users Fixture.empty_shop
       ++ [registered_row Fixture.toy_pbkdf2 20 "00ff" 5 "REFABC123" input
             Fixture.empty_shop]) in
  fst (Auth.login Fixture.toy_pbkdf2 Fixture.toy_token healthy 30
         {| li_email := "new@test.com"; li_password := "secret" |} db')
  = Ok (response_of (Fixture.toy_token 30 5)
          (registered_row Fixture.toy_pbkdf2 20 "00ff" 5 "REFABC123" input
             Fixture.empty_shop)).
Proof.
  cbv zeta.
  exact (f_equal fst (proj1
    (registered_user_can_log_in Fixture.toy_pbkdf2 Fixture.toy_token
       all_answer 20 30 "00ff" ["REFABC123"%string] 5
       {| ri_email := "new@test.com"%string; ri_password := "secret"%string;
          ri_full_name := "New User"%string; ri_phone_number := None;
          ri_referral_code := None |}
       Fixture.empty_shop _ _ healthy eq_refl eq_refl eq_refl eq_refl))).
Defined.

Lemma unique_key {A B : Type} (key : A -> B) (l : list A) (a b : A) :
  NoDup (map key l) -> In a l -> In b l -> key a = key b -> a = b.
Proof.
  induction l as [|w l IH]; [intros _ []|].
  cbn [map]. intros Hn. inversion Hn as [|? ? Hnotin Hl]; subst.
  intros [Ha|Ha] [Hb|Hb] E.
  - congruence.
  - exfalso. apply Hnotin. apply in_map_iff. exists b. split; congruence.
  - exfalso. apply Hnotin. apply in_map_iff. exists a. split; congruence.
  - now apply IH.
Qed.

Lemma validateReferralCode_run (down : Ledger.Call -> bool)
    (referralCode : string) (db : Db) :
  Ledger.validateReferralCode down referralCode db
  = if down Ledger.SelectCodeOwner then (Throw StoreUnavailable, db)
    else
      (Ok match filter (fun u => (u_referral_code u =? referralCode)%string)
                  (users db) with
          | [] => {| valid := false; referrer_id := None;
                     referrer_name := None |}
          | user :: _ => {| valid := true; referrer_id := Some (u_id user);
                            referrer_name := Some (u_full_name user) |}
          end, db).
Proof.
  unfold Ledger.validateReferralCode, call_when. run_monad.
  destruct (down Ledger.SelectCodeOwner); [reflexivity|].
  now destruct (filter (fun u => (u_referral_code u =? referralCode)%string)
                  (users db)).
Qed.

(** X22.  Checking a referral code.  On a store that answers, the check
    leaves the store alone and says valid exactly when some user holds the
    code; the id and the name it then reports are those of one user who
    holds it, and of the only such user when referral codes are unique. *)
Theorem referral_code_is_valid_iff_held
    (down : Ledger.Call -> bool) (referralCode : string) (db : Db) :
  down Ledger.SelectCodeOwner = false ->
  exists check,
    Ledger.validateReferralCode down referralCode db = (Ok check, db)
    /\ (valid check = true
        <-> exists u, In u (users db) /\ u_referral_code u = referralCode)
    /\ (valid check = false ->
        referrer_id check = None /\ referrer_name check = None)
    /\ (valid check = true ->
        exists u, In u (users db) /\ u_referral_code u = referralCode
                  /\ referrer_id check = Some (u_id u)
                  /\ referrer_name check = Some (u_full_name u))
    /\ (NoDup (map u_referral_code (users db)) ->
        forall u, In u (users db) -> u_referral_code u = referralCode ->
                  referrer_id check = Some (u_id u)
                  /\ referrer_name check = Some (u_full_name u)).
Proof.
  intros Hdown. rewrite validateReferralCode_run, Hdown.
  eexists. split; [reflexivity|].
  destruct (filter (fun u => (u_referral_code u =? referralCode)%string)
              (users db)) as [|v vs] eqn:Hfound;
    cbn [valid referrer_id referrer_name].
  - assert (Hnone : forall u, In u (users db) ->
                              u_referral_code u <> referralCode).
    { intros u Hu. pose proof (filter_nil_forall _ _ Hfound u Hu) as H.
      cbv beta in H. now apply String.eqb_neq in H. }
    split; [|split; [|split]].
    + split; [discriminate|]. intros (u & Hu & E). now apply Hnone in Hu.
    + now split.
    + discriminate.
    + intros _ u Hu E. now apply Hnone in Hu.
  - assert (Hv : In v (users db) /\ u_referral_code v = referralCode).
    { assert (H : In v (filter
                          (fun u => (u_referral_code u =? referralCode)%string)
                          (users db))) by (rewrite Hfound; now left).
      apply filter_In in H. destruct H as [H E].
      now apply String.eqb_eq in E. }
    destruct Hv as [Hv Ev].
    split; [|split; [|split]].
    + split; [|reflexivity]. intros _. now exists v.
    + discriminate.
    + intros _. now exists v.
    + intros Hnodup u Hu E.
      assert (u = v); [|now subst].
      apply (unique_key u_referral_code (users db)); auto. congruence.
Qed.

Lemma referral_code_is_valid_iff_held_witness :
  exists check,
    Ledger.validateReferralCode all_answer "referrer@test.com"
      Fixture.empty_shop = (Ok check, Fixture.empty_shop)
    /\ referrer_id check = Some 1.
Proof.
  destruct (referral_code_is_valid_iff_held all_answer "referrer@test.com"
              Fixture.empty_shop eq_refl)
    as (check & Hrun & _ & _ & _ & Hunique).
  exists check. split; [exact Hrun|].
  apply (Hunique
           ltac:(cbn; repeat constructor; cbn; intuition discriminate)
           Fixture.referrer); [now left | reflexivity].
Defined.

(** X23.  A registration links the newcomer to the holder of the code.
    For an accepted registration: with no referral code, or an empty one,
    the newcomer is referred by nobody; with a code, the newcomer is
    referred by exactly the user the referral code check reports for that
    code on the store before, and by nobody when the check says invalid.
    Afterwards the newcomer's own code checks as valid and names the
    newcomer. *)
Theorem registration_links_the_code_holder
    (pbkdf2_hex : string -> string -> string)
    (generateToken : Pg.timestamp -> Z -> string)
    (down : Registration.Call -> bool) (now : Pg.timestamp) (salt : string)
    (codes : list string) (newId : Z) (input : RegisterInput) (db db' : Db)
    (response : Auth.AuthResponse) :
  Registration.register pbkdf2_hex generateToken down now salt codes newId
    input db = Some (Registration.Registered response, db') ->
  let newcomer := Auth.user response in
  (ri_referral_code input = None \/ ri_referral_code input = Some ""%string ->
   Auth.referred_by_id newcomer = None)
  /\ (forall code,
        ri_referral_code input = Some code -> code <> ""%string ->
        exists check,
          Ledger.validateReferralCode all_answer code db = (Ok check, db)
          /\ Auth.referred_by_id newcomer = referrer_id check
          /\ (valid check = false -> Auth.referred_by_id newcomer = None))
  /\ Ledger.validateReferralCode all_answer (Auth.referral_code newcomer) db'
     = (Ok {| valid := true;
              referrer_id := Some (Auth.id newcomer);
              referrer_name := Some (Auth.full_name newcomer) |}, db').
Proof.
  intros Hrun.
  destruct (register_accepted _ _ _ _ _ _ _ _ _ _ _ Hrun)
    as (code & _ & _ & Hcode & _ & -> & ->).
  cbv zeta.
  cbn [response_of Auth.user Auth.referred_by_id Auth.referral_code Auth.id
       Auth.full_name registered_row u_referred_by_id u_referral_code u_id
       u_full_name].
  split; [|split].
  - unfold named_referrer. now intros [-> | ->].
  - intros given Hgiven Hnonempty. rewrite validateReferralCode_run.
    cbn [all_answer]. eexists. split; [reflexivity|].
    unfold named_referrer, Js.truthy_string. rewrite Hgiven.
    apply String.eqb_neq in Hnonempty. rewrite Hnonempty. cbn [negb].
    destruct (filter (fun u => (u_referral_code u =? given)%string)
                (users db)); cbn [referrer_id valid]; split;
      try reflexivity; discriminate.
  - rewrite validateReferralCode_run. cbn [all_answer with_users users].
    rewrite filter_app, Hcode. cbn [filter app u_referral_code].
    now rewrite String.eqb_refl.
Qed.

Lemma registration_links_the_code_holder_witness :
  let input :=
    {| ri_email := "new@test.com"%string; ri_password := "secret"%string;
       ri_full_name := "New User"%string; ri_phone_number := None;
       ri_referral_code := Some "referrer@test.com"%string |} in
  let row :=
    registered_row Fixture.toy_pbkdf2 20 "00ff" 5 "REFABC123" input
      Fixture.empty_shop in
  exists check,
    Ledger.validateReferralCode all_answer "referrer@test.com"
      Fixture.empty_shop = (Ok check, Fixture.empty_shop)
    /\ u_referred_by_id row = referrer_id check
    /\ (valid check = false -> u_referred_by_id row = None).
Proof.
  cbv zeta.
  exact (proj1 (proj2
    (registration_links_the_code_holder Fixture.toy_pbkdf2 Fixture.toy_token
       all_answer 20 "00ff" ["REFABC123"%string] 5
       {| ri_email := "new@test.com"%string; ri_password := "secret"%string;
          ri_full_name := "New User"%string; ri_phone_number := None;
          ri_referral_code := Some "referrer@test.com"%string |}
       Fixture.empty_shop _ _ eq_refl))
    "referrer@test.com"%string eq_refl ltac:(discriminate)).
Defined.

(** X24.  The newcomer shows in the referrer's list.  When user ids are
    unique and the store answers, after an accepted registration that
    named a holder of a referral code, that holder's list of referred
    users holds the entries it held before and one more, for the newcomer,
    and counts one more, in whatever order the store returns them; the
    list of every other user holds the entries it held. *)
Theorem newcomer_shows_in_referred_list
    (pbkdf2_hex : string -> string -> string)
    (generateToken : Pg.timestamp -> Z -> string)
    (down : Registration.Call -> bool) (now : Pg.timestamp) (salt : string)
    (codes : list string) (newId : Z) (input : RegisterInput) (db db' : Db)
    (response : Auth.AuthResponse) (f : Faults)
    (order order' : Sql.RowOrder) (userId : Z) :
  Registration.register pbkdf2_hex generateToken down now salt codes newId
    input db = Some (Registration.Registered response, db') ->
  NoDup (map u_id (users db)) ->
  f SelectReferredUsers = false ->
  Sql.rearranges order -> Sql.rearranges order' ->
  exists before after,
    Referrals.getUserReferrals f order userId db = (Ok before, db)
    /\ Referrals.getUserReferrals f order' userId db' = (Ok after, db')
    /\ (Auth.referred_by_id (Auth.user response) <> Some userId ->
        Permutation (Referrals.referred_users after)
          (Referrals.referred_users before)
        /\ Referrals.total_referred after = Referrals.total_referred before)
    /\ (Auth.referred_by_id (Auth.user response) = Some userId ->
        exists entry,
          Permutation (Referrals.referred_users after)
            (entry :: Referrals.referred_users before)
          /\ Referrals.total_referred after
             = Referrals.total_referred before + 1
          /\ Referrals.id entry = newId
          /\ Referrals.email entry = ri_email input
          /\ Referrals.full_name entry = ri_full_name input
          /\ Referrals.joined_date entry = now
          /\ ((forall t, In t (transactions db) -> t_user_id t <> newId) ->
              Referrals.total_transactions entry = 0
              /\ Referrals.total_spent entry = Pg.parseFloat 0)).
Proof.
  intros Hrun Hnodup Hf Horder Horder'.
  destruct (register_accepted _ _ _ _ _ _ _ _ _ _ _ Hrun)
    as (code & _ & _ & _ & Hid & -> & ->).
  cbv zeta in *.
  set (row := registered_row pbkdf2_hex now salt newId code input db) in *.
  assert (Hnodup' : NoDup (map u_id (users db ++ [row]))).
  { apply NoDup_map_snoc; [exact Hnodup|]. intros u Hu. now apply Hid. }
  destruct (getUserReferrals_run f order userId db Hf Hnodup)
    as (rows & Hbefore & Hperm & _).
  destruct (getUserReferrals_run f order' userId
              (with_users db (users db ++ [row])) Hf Hnodup')
    as (rows' & Hafter & Hperm' & _).
  specialize (Hperm Horder). specialize (Hperm' Horder').
  do 2 eexists. split; [exact Hbefore|]. split; [exact Hafter|].
  cbn [Referrals.referred_users Referrals.total_referred].
  cbn [with_users users response_of Auth.user Auth.referred_by_id] in *.
  rewrite filter_app in Hperm'. cbn [filter] in Hperm'.
  assert (Hentries :
    forall l, map (referred_entry (with_users db (users db ++ [row]))) l
              = map (referred_entry db) l) by reflexivity.
  rewrite Hentries in Hperm'.
  destruct (Referrals.is_referred_by userId row) eqn:Hflag;
    unfold Referrals.is_referred_by in Hflag.
  - assert (Href : u_referred_by_id row = Some userId).
    { destruct (u_referred_by_id row) as [r|]; [|discriminate].
      apply Z.eqb_eq in Hflag. now subst. }
    split; [intros H; now contradiction H|]. intros _.
    assert (Hrows : Permutation rows' (referred_entry db row :: rows)).
    { apply Permutation_trans with (1 := Hperm').
      rewrite map_app. cbn [map].
      apply Permutation_trans
        with (referred_entry db row
              :: map (referred_entry db)
                   (filter (Referrals.is_referred_by userId) (users db))).
      - apply Permutation_sym, Permutation_cons_append.
      - apply perm_skip, Permutation_sym, Hperm. }
    exists (referred_entry db row).
    split; [exact Hrows|].
    split; [rewrite (Permutation_length Hrows); cbn [List.length]; lia|].
    unfold referred_entry.
    cbn [Referrals.id Referrals.email Referrals.full_name
         Referrals.joined_date Referrals.total_transactions
         Referrals.total_spent].
    repeat (split; [reflexivity|]).
    intros Hnone.
    rewrite (forall_filter_nil (fun t => t_user_id t =? u_id row)).
    + now split.
    + intros t Ht. apply filter_In in Ht. destruct Ht as [Ht _].
      apply Z.eqb_neq. now apply Hnone.
  - assert (Href : u_referred_by_id row <> Some userId).
    { intros E. rewrite E, Z.eqb_refl in Hflag. discriminate. }
    split; [|intros H; now contradiction Href]. intros _.
    rewrite app_nil_r in Hperm'.
    assert (Hrows : Permutation rows' rows)
      by (apply Permutation_trans with (1 := Hperm');
          apply Permutation_sym, Hperm).
    split; [exact Hrows | now rewrite (Permutation_length Hrows)].
Qed.

Lemma newcomer_shows_in_referred_list_witness :
  let input :=
    {| ri_email := "new@test.com"%string; ri_password := "secret"%string;
       ri_full_name := "New User"%string; ri_phone_number := None;
       ri_referral_code := Some "referrer@test.com"%string |} in
  let db' :=
    with_users Fixture.empty_shop
      (users Fixture.empty_shop
       ++ [registered_row Fixture.toy_pbkdf2 20 "00ff" 5 "REFABC123" input
             Fixture.empty_shop]) in
  exists before after,
    Referrals.getUserReferrals healthy Sql.table_order 1 Fixture.empty_shop
    = (Ok before, Fixture.empty_shop)
    /\ Referrals.getUserReferrals healthy Sql.backwards 1 db'
       = (Ok after, db')
    /\ map Referrals.id (Referrals.referred_users before) = [2]
    /\ map Referrals.id (Referrals.referred_users after) = [5; 2]
    /\ Referrals.total_referred after = Referrals.total_referred before + 1.
Proof.
  cbv zeta.
  destruct (newcomer_shows_in_referred_list Fixture.toy_pbkdf2
              Fixture.toy_token all_answer 20 "00ff" ["REFABC123"%string] 5
              {| ri_email := "new@test.com"%string;
                 ri_password := "secret"%string;
                 ri_full_name := "New User"%string; ri_phone_number := None;
                 ri_referral_code := Some "referrer@test.com"%string |}
              Fixture.empty_shop _ _ healthy Sql.table_order Sql.backwards 1
              eq_refl
              ltac:(cbn; repeat constructor; cbn; intuition lia) eq_refl
              table_order_rearranges backwards_rearranges)
    as (before & after & Hb & Ha & _ & Hmine).
  exists before, after. split; [exact Hb|]. split; [exact Ha|].
  destruct (Hmine eq_refl) as (entry & _ & Hn & _).
  assert (Eb : fst (Referrals.getUserReferrals healthy Sql.table_order 1
                      Fixture.empty_shop) = Ok before)
    by exact (f_equal fst Hb).
  assert (Ea : fst (Referrals.getUserReferrals healthy Sql.backwards 1
                      (with_users Fixture.empty_shop
                         (users Fixture.empty_shop
                          ++ [registered_row Fixture.toy_pbkdf2 20 "00ff" 5
                                "REFABC123"
                                {| ri_email := "new@test.com"%string;
                                   ri_password := "secret"%string;
                                   ri_full_name := "New User"%string;
                                   ri_phone_number := None;
                                   ri_referral_code :=
                                     Some "referrer@test.com"%string |}
                                Fixture.empty_shop]))) = Ok after)
    by exact (f_equal fst Ha).
  vm_compute in Eb. injection Eb as <-.
  vm_compute in Ea. injection Ea as <-.
  split; [reflexivity|]. split; [reflexivity|]. reflexivity.
Defined.

(** ** The catalogue sync *)

Section CatalogueSync.

Variable down : string -> Catalog.Call -> bool.
Variable now : Pg.timestamp.

Let refreshed (service : Catalog.DigiflazzService) (price_c : Pg.numeric)
    (max_c : option Pg.numeric) (rows : list ProductRow) : list ProductRow :=
  map (fun p =>
         if (p_sku p =? Catalog.buyer_sku_code service)%string
         then Catalog.set_product_data now service price_c max_c p
         else p) rows.

(** One service, taken apart: it throws and changes nothing, or it
    rewrites the rows that have its SKU, or, when there is none, it
    appends a row with the next id. *)
Lemma upsert_product_shape (service : Catalog.DigiflazzService)
    (cs : CatalogStore) :
  (exists e, Catalog.upsert_product down now service cs = (Throw e, cs))
  \/ exists price_c max_c,
       Catalog.product_numbers service = Some (price_c, max_c)
       /\ (((exists p, In p (products (store cs))
                       /\ p_sku p = Catalog.buyer_sku_code service)
            /\ Catalog.upsert_product down now service cs
               = (Ok tt,
                  {| store :=
                       with_products (store cs)
                         (refreshed service price_c max_c
                            (products (store cs)));
                     products_id_seq := products_id_seq cs |}))
           \/ ((forall p, In p (products (store cs)) ->
                          p_sku p <> Catalog.buyer_sku_code service)
               /\ Catalog.upsert_product down now service cs
                  = (Ok tt,
                     {| store :=
                          with_products (store cs)
                            (products (store cs)
                             ++ [Catalog.product_row (products_id_seq cs + 1)
                                   now now service price_c max_c]);
                        products_id_seq := products_id_seq cs + 1 |}))).
Proof.
  unfold Catalog.upsert_product. cbv zeta.
  destruct (down (Catalog.buyer_sku_code service) Catalog.SelectBySku);
    [left; now eexists|].
  destruct (filter
              (fun p => (p_sku p =? Catalog.buyer_sku_code service)%string)
              (products (store cs))) as [|q qs] eqn:Hfound;
    cbn [firstn List.length Nat.ltb Nat.leb].
  - destruct (down (Catalog.buyer_sku_code service) Catalog.InsertProduct);
      [left; now eexists|].
    destruct (Catalog.product_numbers service) as [[price_c max_c]|];
      [|left; now eexists].
    right. exists price_c, max_c. split; [reflexivity|]. right.
    split; [|reflexivity].
    intros p Hp. pose proof (filter_nil_forall _ _ Hfound p Hp) as H.
    cbv beta in H. now apply String.eqb_neq in H.
  - destruct (down (Catalog.buyer_sku_code service) Catalog.UpdateProduct);
      [left; now eexists|].
    destruct (Catalog.product_numbers service) as [[price_c max_c]|];
      [|left; now eexists].
    right. exists price_c, max_c. split; [reflexivity|]. left.
    split; [|reflexivity].
    assert (H : In q (filter
                        (fun p =>
                           (p_sku p =? Catalog.buyer_sku_code service)%string)
                        (products (store cs)))) by (rewrite Hfound; now left).
    apply filter_In in H. destruct H as [Hq E]. apply String.eqb_eq in E.
    now exists q.
Qed.

Lemma refreshed_identity (service : Catalog.DigiflazzService)
    (price_c : Pg.numeric) (max_c : option Pg.numeric)
    (rows : list ProductRow) :
  map catalogue_identity (refreshed service price_c max_c rows)
  = map catalogue_identity rows.
Proof.
  unfold refreshed. rewrite map_map. apply map_ext. intros p.
  destruct (p_sku p =? Catalog.buyer_sku_code service)%string eqn:E;
    [|reflexivity].
  apply String.eqb_eq in E. unfold catalogue_identity.
  cbn [Catalog.set_product_data Catalog.product_row p_id p_sku p_created_at].
  now rewrite E.
Qed.

(** What one service keeps. *)
Lemma upsert_product_keeps (service : Catalog.DigiflazzService)
    (cs : CatalogStore) :
  let cs' := snd (Catalog.upsert_product down now service cs) in
  users (store cs') = users (store cs)
  /\ transactions (store cs') = transactions (store cs)
  /\ referrals (store cs') = referrals (store cs)
  /\ (exists extra,
        map catalogue_identity (products (store cs'))
        = map catalogue_identity (products (store cs)) ++ extra)
  /\ (NoDup (map p_sku (products (store cs))) ->
      NoDup (map p_sku (products (store cs'))))
  /\ (sequence_ahead cs -> NoDup (map p_id (products (store cs))) ->
      sequence_ahead cs' /\ NoDup (map p_id (products (store cs')))).
Proof.
  cbv zeta.
  assert (Hsame : forall rows : list ProductRow,
            map p_sku rows = map (fun i => snd (fst i))
                               (map catalogue_identity rows)
            /\ map p_id rows = map (fun i => fst (fst i))
                                 (map catalogue_identity rows)).
  { intros rows. rewrite !map_map. split; now apply map_ext. }
  destruct (upsert_product_shape service cs)
    as [(e & ->) | (price_c & max_c & _ & [[_ ->] | [Hnew ->]])];
    cbn [snd store with_products users transactions referrals products
         products_id_seq].
  - repeat (split; [reflexivity|]).
    split; [exists []; now rewrite app_nil_r|]. now split.
  - repeat (split; [reflexivity|]).
    split; [exists []; now rewrite app_nil_r, refreshed_identity|].
    split.
    + intros H. now rewrite (proj1 (Hsame _)), refreshed_identity,
                  <- (proj1 (Hsame _)).
    + intros Hahead Hids. split.
      * intros p Hp. unfold refreshed in Hp. apply in_map_iff in Hp.
        destruct Hp as (q & <- & Hq).
        cbn [products_id_seq].
        destruct (p_sku q =? Catalog.buyer_sku_code service)%string;
          cbn [Catalog.set_product_data Catalog.product_row p_id];
          now apply Hahead.
      * now rewrite (proj2 (Hsame _)), refreshed_identity,
          <- (proj2 (Hsame _)).
  - repeat (split; [reflexivity|]).
    split; [eexists; now rewrite map_app|].
    split.
    + intros H. apply NoDup_map_snoc; [exact H|]. intros p Hp.
      now apply Hnew.
    + intros Hahead Hids. split.
      * intros p Hp. cbn [products_id_seq].
        apply in_app_or in Hp. destruct Hp as [Hp|[<-|[]]].
        -- apply Hahead in Hp. lia.
        -- cbn [Catalog.product_row p_id]. lia.
      * apply NoDup_map_snoc; [assumption|]. intros p Hp.
        apply Hahead in Hp. cbn [Catalog.product_row p_id]. lia.
Qed.

(** The loop, with the counters it was started with. *)
Lemma sync_loop_accounts (services : list Catalog.DigiflazzService)
    (synced0 : Z) (errors0 : list (string * Error)) (cs : CatalogStore) :
  exists more,
    let '(synced, errors, cs') :=
      Catalog.sync_loop down now services synced0 errors0 cs in
    errors = errors0 ++ more
    /\ synced0 <= synced
    /\ (synced - synced0) + Z.of_nat (List.length more)
       = Z.of_nat (List.length services)
    /\ incl (map fst more) (map Catalog.buyer_sku_code services).
Proof.
  revert synced0 errors0 cs.
  induction services as [|service later IH]; intros synced0 errors0 cs.
  - exists []. cbn. rewrite app_nil_r. repeat split; try lia.
    intros x [].
  - cbn [Catalog.sync_loop].
    destruct (Catalog.upsert_product down now service cs) as [[[]|e] cs1].
    + destruct (IH (synced0 + 1) errors0 cs1) as (more & H).
      exists more.
      destruct (Catalog.sync_loop down now later (synced0 + 1) errors0 cs1)
        as [[synced errors] cs'].
      destruct H as (-> & Hle & Hsum & Hincl).
      split; [reflexivity|]. split; [lia|].
      split; [cbn [List.length]; lia|].
      intros x Hx. right. now apply Hincl.
    + destruct (IH synced0
                  (errors0 ++ [(Catalog.buyer_sku_code service, e)]) cs1)
        as (more & H).
      exists ((Catalog.buyer_sku_code service, e) :: more).
      destruct (Catalog.sync_loop down now later synced0
                  (errors0 ++ [(Catalog.buyer_sku_code service, e)]) cs1)
        as [[synced errors] cs'].
      destruct H as (-> & Hle & Hsum & Hincl).
      split; [now rewrite <- app_assoc|]. split; [lia|].
      split; [cbn [List.length]; lia|].
      intros x [<-|Hx]; [now left|]. right. now apply Hincl.
Qed.

Lemma sync_loop_keeps (services : list Catalog.DigiflazzService)
    (synced0 : Z) (errors0 : list (string * Error)) (cs : CatalogStore) :
  let cs' := snd (Catalog.sync_loop down now services synced0 errors0 cs) in
  users (store cs') = users (store cs)
  /\ transactions (store cs') = transactions (store cs)
  /\ referrals (store cs') = referrals (store cs)
  /\ (exists extra,
        map catalogue_identity (products (store cs'))
        = map catalogue_identity (products (store cs)) ++ extra)
  /\ (NoDup (map p_sku (products (store cs))) ->
      NoDup (map p_sku (products (store cs'))))
  /\ (sequence_ahead cs -> NoDup (map p_id (products (store cs))) ->
      sequence_ahead cs' /\ NoDup (map p_id (products (store cs')))).
Proof.
  cbv zeta. revert synced0 errors0 cs.
  induction services as [|service later IH]; intros synced0 errors0 cs.
  - cbn. repeat split; auto. exists []. now rewrite app_nil_r.
  - cbn [Catalog.sync_loop].
    pose proof (upsert_product_keeps service cs) as H1. cbv zeta in H1.
    destruct (Catalog.upsert_product down now service cs) as [[[]|e] cs1];
      cbn [snd] in H1;
      destruct H1 as (Hu & Ht & Hr & (x1 & Hx1) & Hsku & Hid);
      match goal with
      | |- context [Catalog.sync_loop down now later ?s ?e cs1] =>
          destruct (IH s e cs1)
            as (Hu' & Ht' & Hr' & (x2 & Hx2) & Hsku' & Hid')
      end;
      (split; [congruence|]; split; [congruence|]; split; [congruence|];
       split; [exists (x1 ++ x2); now rewrite Hx2, Hx1, app_assoc|];
       split; [auto|];
       intros Ha Hn; destruct (Hid Ha Hn) as [Ha1 Hn1]; now apply Hid').
Qed.

End CatalogueSync.

(** X25.  The sync accounts for every service.  When the provider's list
    arrives, the report counts every listed service once: the number of
    synced services plus the number of error messages is the number of
    services, and every error message names the SKU of a listed service.
    When the list does not arrive the sync fails and changes nothing.
    Either way users, transactions and the ledger are untouched. *)
Theorem sync_accounts_for_every_service
    (use_mock : bool) (provider : option (list Catalog.DigiflazzService))
    (down : string -> Catalog.Call -> bool) (now : Pg.timestamp)
    (cs : CatalogStore) :
  let run := Catalog.syncProductsFromDigiflazz use_mock provider down now cs in
  users (store (snd run)) = users (store cs)
  /\ transactions (store (snd run)) = transactions (store cs)
  /\ referrals (store (snd run)) = referrals (store cs)
  /\ (Catalog.getDigiflazzServices use_mock provider = None ->
      run = (Catalog.ProviderFailed, cs))
  /\ (forall services,
        Catalog.getDigiflazzServices use_mock provider = Some services ->
        exists synced errors,
          fst run = Catalog.SyncReport synced errors
          /\ 0 <= synced
          /\ synced + Z.of_nat (List.length errors)
             = Z.of_nat (List.length services)
          /\ incl (map fst errors)
               (map Catalog.buyer_sku_code services)).
Proof.
  cbv zeta. unfold Catalog.syncProductsFromDigiflazz.
  destruct (Catalog.getDigiflazzServices use_mock provider) as [services|].
  - pose proof (sync_loop_keeps down now services 0 [] cs) as Hkeep.
    destruct (sync_loop_accounts down now services 0 [] cs) as (more & Hacc).
    cbv zeta in Hkeep.
    destruct (Catalog.sync_loop down now services 0 [] cs)
      as [[synced errors] cs'].
    cbn [snd fst] in *.
    destruct Hkeep as (Hu & Ht & Hr & _).
    destruct Hacc as (-> & Hle & Hsum & Hincl).
    repeat (split; [assumption|]). split; [discriminate|].
    intros services' [= <-]. exists synced, more.
    cbn [app]. split; [reflexivity|]. split; [lia|].
    split; [lia | exact Hincl].
  - cbn [snd]. do 4 (split; [reflexivity|]). discriminate.
Qed.

(** X26.  The sync keeps the catalogue apart.  Under any fault plan and
    for any provider list, a sync removes no product and reorders none:
    the ids, SKUs and creation times of the stored products are what they
    were, with the new products after them.  SKUs that were unique stay
    unique, and so do ids as long as the serial sequence is ahead of every
    stored id, which it then still is. *)
Theorem sync_keeps_the_catalogue_apart
    (use_mock : bool) (provider : option (list Catalog.DigiflazzService))
    (down : string -> Catalog.Call -> bool) (now : Pg.timestamp)
    (cs : CatalogStore) :
  let cs' :=
    snd (Catalog.syncProductsFromDigiflazz use_mock provider down now cs) in
  (exists extra,
     map catalogue_identity (products (store cs'))
     = map catalogue_identity (products (store cs)) ++ extra)
  /\ (NoDup (map p_sku (products (store cs))) ->
      NoDup (map p_sku (products (store cs'))))
  /\ (sequence_ahead cs -> NoDup (map p_id (products (store cs))) ->
      sequence_ahead cs' /\ NoDup (map p_id (products (store cs')))).
Proof.
  cbv zeta. unfold Catalog.syncProductsFromDigiflazz.
  destruct (Catalog.getDigiflazzServices use_mock provider) as [services|].
  - pose proof (sync_loop_keeps down now services 0 [] cs) as Hkeep.
    cbv zeta in Hkeep.
    destruct (Catalog.sync_loop down now services 0 [] cs)
      as [[synced errors] cs'].
    cbn [snd] in *. now destruct Hkeep as (_ & _ & _ & Hkeep).
  - cbn [snd]. split; [exists []; now rewrite app_nil_r|]. now split.
Qed.

Section SyncedRows.

Variable down : string -> Catalog.Call -> bool.
Variable now : Pg.timestamp.





End SyncedRows.



(** ** The mock provider and the classifiers *)

(** X28.  The mock provider and the classifiers agree.  The mock order
    answer echoes the reference, customer and SKU of the request, is never
    failed, and is a success exactly when the random value is above 0.3
    and pending otherwise.  The mock status answer, for each of the three
    indices that can be drawn, echoes the reference and falls in exactly
    one class: success for index 0, pending for index 1, failed for
    index 2. *)
Theorem mock_answers_fall_in_one_class
    (random : Js.number) (pick : Z) (input : Catalog.DigiflazzOrderInput)
    (refId : string)
    (provider : option Digiflazz.DigiflazzOrderResponse) :
  0 <= pick <= 2 ->
  exists order report,
    Catalog.createDigiflazzOrder true random provider input = Some order
    /\ Catalog.checkDigiflazzStatus true pick provider refId = Some report
    /\ Digiflazz.ref_id order = Catalog.ref_id input
    /\ Digiflazz.customer_no order = Catalog.customer_no input
    /\ Digiflazz.buyer_sku_code order = Catalog.order_sku_code input
    /\ Digiflazz.ref_id report = refId
    /\ Digiflazz.isDigiflazzFailed order = false
    /\ Digiflazz.isDigiflazzPending order
       = negb (Digiflazz.isDigiflazzSuccess order)
    /\ (Digiflazz.isDigiflazzSuccess order = true <-> (3 # 10 < random)%Q)
    /\ (Digiflazz.isDigiflazzSuccess report = true <-> pick = 0)
    /\ (Digiflazz.isDigiflazzPending report = true <-> pick = 1)
    /\ (Digiflazz.isDigiflazzFailed report = true <-> pick = 2).
Proof.
  intros Hpick.
  exists (Catalog.mockOrder random input), (Catalog.mockStatus pick refId).
  do 6 (split; [reflexivity|]).
  split; [|split; [|split]].
  - unfold Catalog.mockOrder. now destruct (Js.gtb random (3 # 10)).
  - unfold Catalog.mockOrder. now destruct (Js.gtb random (3 # 10)).
  - rewrite <- gtb_gt. unfold Catalog.mockOrder.
    now destruct (Js.gtb random (3 # 10)).
  - assert (Hcase : pick = 0 \/ pick = 1 \/ pick = 2) by lia.
    destruct Hcase as [-> | [-> | ->]]; cbn; repeat split;
      intros; try reflexivity; try discriminate; lia.
Qed.

Lemma mock_answers_fall_in_one_class_witness :
  exists report,
    Catalog.checkDigiflazzStatus true 2 None "TXN_1" = Some report
    /\ (Digiflazz.status report, Digiflazz.message report,
        Digiflazz.rc report)
       = ("Gagal", "GAGAL", "01")%string
    /\ Digiflazz.isDigiflazzFailed report = true
    /\ Digiflazz.isDigiflazzPending report = false
    /\ Digiflazz.isDigiflazzSuccess report = false.
Proof.
  destruct (mock_answers_fall_in_one_class (1 # 2) 2
              {| Catalog.username := "demo_username";
                 Catalog.order_sku_code := "TELKOMSEL_5000";
                 Catalog.customer_no := "081234567890";
                 Catalog.ref_id := "TXN_1"; Catalog.sign := "00ff" |}%string
              "TXN_1"%string None ltac:(lia))
    as (order & report & _ & Hr & _ & _ & _ & _ & _ & _ & _ & Hs & Hp & Hf).
  exists report. split; [exact Hr|].
  injection Hr as <-.
  split; [reflexivity|]. split; [now apply Hf|]. split; reflexivity.
Defined.

(** X29.  Where the three classifiers overlap and what they miss.  An
    answer is both success and failed exactly when it has status Sukses
    and rc 00 with the message GAGAL, and both success and pending exactly
    when it has status Sukses and rc 00 with the message PROCESS; an
    answer of status Pending is never failed unless its message is GAGAL.
    An answer that no classifier accepts has rc 00 and a status other than
    Sukses, Pending, Process and Gagal. *)
Theorem classifier_overlaps_and_gaps
    (response : Digiflazz.DigiflazzOrderResponse) :
  (Digiflazz.isDigiflazzSuccess response = true
   /\ Digiflazz.isDigiflazzFailed response = true
   <-> Digiflazz.status response = "Sukses"%string
       /\ Digiflazz.rc response = "00"%string
       /\ Digiflazz.message response = "GAGAL"%string)
  /\ (Digiflazz.isDigiflazzSuccess response = true
      /\ Digiflazz.isDigiflazzPending response = true
      <-> Digiflazz.status response = "Sukses"%string
          /\ Digiflazz.rc response = "00"%string
          /\ Digiflazz.message response = "PROCESS"%string)
  /\ (Digiflazz.status response = "Pending"%string ->
      Digiflazz.isDigiflazzPending response = true
      /\ (Digiflazz.isDigiflazzFailed response = true
          <-> Digiflazz.message response = "GAGAL"%string))
  /\ (Digiflazz.isDigiflazzSuccess response = false ->
      Digiflazz.isDigiflazzPending response = false ->
      Digiflazz.isDigiflazzFailed response = false ->
      Digiflazz.rc response = "00"%string
      /\ Digiflazz.status response <> "Sukses"%string
      /\ Digiflazz.status response <> "Pending"%string
      /\ Digiflazz.status response <> "Process"%string
      /\ Digiflazz.status response <> "Gagal"%string).
Proof.
  unfold Digiflazz.isDigiflazzSuccess, Digiflazz.isDigiflazzPending,
    Digiflazz.isDigiflazzFailed.
  destruct response as [ref cust sku message status rc saldo price tele wa sn].
  cbn [Digiflazz.status Digiflazz.rc Digiflazz.message].
  destruct (String.eqb_spec status "Sukses") as [Es|Es];
    destruct (String.eqb_spec status "Pending") as [Ep|Ep];
    destruct (String.eqb_spec status "Process") as [Er|Er];
    destruct (String.eqb_spec status "Gagal") as [Eg|Eg];
    destruct (String.eqb_spec rc "00") as [Ec|Ec];
    destruct (String.eqb_spec message "GAGAL") as [Em|Em];
    destruct (String.eqb_spec message "PROCESS") as [Eq|Eq];
    cbn; subst; try discriminate;
    repeat split; intros; try congruence; try tauto;
    try (repeat match goal with H : _ /\ _ |- _ => destruct H end;
         congruence).
Qed.

(** ** The dashboard *)

Section Dashboard.

Variable class : TransactionStatus -> bool.

Let weight (groups : list (TransactionStatus * list TransactionRow)) : Z :=
  fold_right
    (fun g acc =>
       (if class (fst g) then Z.of_nat (List.length (snd g)) else 0) + acc)
    0 groups.

Lemma status_eqb_eq (a b : TransactionStatus) :
  status_eqb a b = true -> a = b.
Proof. now destruct a, b. Qed.

Lemma weight_add_to_group (x : TransactionRow)
    (groups : list (TransactionStatus * list TransactionRow)) :
  weight (Sql.add_to_group t_status status_eqb x groups)
  = weight groups + (if class (t_status x) then 1 else 0).
Proof.
  unfold weight.
  induction groups as [|[k rows] rest IH].
  - cbn. destruct (class (t_status x)); lia.
  - cbn [Sql.add_to_group].
    destruct (status_eqb (t_status x) k) eqn:E.
    + apply status_eqb_eq in E. subst k. cbn [fold_right fst snd].
      rewrite length_app. cbn [List.length].
      destruct (class (t_status x)); lia.
    + cbn [fold_right fst snd]. rewrite IH. lia.
Qed.

Lemma weight_group_by (rows : list TransactionRow)
    (groups : list (TransactionStatus * list TransactionRow)) :
  weight (fold_left (fun g x => Sql.add_to_group t_status status_eqb x g)
            rows groups)
  = weight groups
    + Z.of_nat (List.length (filter (fun t => class (t_status t)) rows)).
Proof.
  revert groups. induction rows as [|x rows IH]; intros groups.
  - cbn [fold_left filter List.length]. change (Z.of_nat 0) with 0. lia.
  - cbn [fold_left filter]. rewrite IH, weight_add_to_group.
    destruct (class (t_status x)); cbn [List.length]; lia.
Qed.

End Dashboard.

Lemma tally_weights
    (groups : list (TransactionStatus * list TransactionRow)) (a b c : Z) :
  fold_left Admin.tally
    (map (fun g => (fst g, Z.of_nat (List.length (snd g)))) groups) (a, b, c)
  = (a + fold_right
           (fun g acc =>
              (if in_progress (fst g) then Z.of_nat (List.length (snd g))
               else 0) + acc) 0 groups,
     b + fold_right
           (fun g acc =>
              (if succeeded (fst g) then Z.of_nat (List.length (snd g))
               else 0) + acc) 0 groups,
     c + fold_right
           (fun g acc =>
              (if given_up (fst g) then Z.of_nat (List.length (snd g))
               else 0) + acc) 0 groups).
Proof.
  revert a b c. induction groups as [|[k rows] rest IH]; intros a b c.
  - cbn. now rewrite !Z.add_0_r.
  - cbn [map fold_left fold_right fst snd]. unfold Admin.tally at 2.
    cbn [fst snd].
    destruct k; rewrite IH; cbn [in_progress succeeded given_up];
      repeat match goal with |- (_, _) = (_, _) => f_equal end; lia.
Qed.

Lemma sum_of_prices (rows : list TransactionRow) :
  Sql.coalesce (Sql.sum (fun t => Some (t_price t)) rows) 0
  = fold_right Z.add 0 (map t_price rows).
Proof.
  unfold Sql.sum. destruct rows as [|t rows]; [reflexivity|].
  cbn [fold_left map fold_right].
  generalize (t_price t). induction rows as [|r rows IH]; intros a.
  - cbn. lia.
  - cbn [fold_left map fold_right]. rewrite IH. lia.
Qed.

Lemma statuses_partition (rows : list TransactionRow) :
  Z.of_nat (List.length (filter (fun t => in_progress (t_status t)) rows))
  + Z.of_nat (List.length (filter (fun t => succeeded (t_status t)) rows))
  + Z.of_nat (List.length (filter (fun t => given_up (t_status t)) rows))
  = Z.of_nat (List.length rows).
Proof.
  induction rows as [|t rows IH]; [reflexivity|].
  cbn [filter]. destruct (t_status t); cbn [in_progress succeeded given_up
    List.length]; lia.
Qed.

(** X30.  The dashboard adds up.  On a store that answers, the
    statistics leave the store alone and count every stored transaction in
    exactly one bucket: pending and processing as pending, success as
    successful, failed and cancelled as failed, so that the three buckets
    sum to the total; the revenue is the summed price of the successful
    transactions and the user count is the number of users.  When any of
    the four queries fails, the call throws and the store is as it was. *)
Theorem dashboard_buckets_add_up (down : Admin.Call -> bool) (db : Db) :
  (down Admin.CountUsers = false -> down Admin.CountTransactions = false ->
   down Admin.SumRevenue = false -> down Admin.CountByStatus = false ->
   exists stats,
     Admin.getAdminStats down db = (Ok stats, db)
     /\ total_users stats = Z.of_nat (List.length (users db))
     /\ total_transactions stats = Z.of_nat (List.length (transactions db))
     /\ pending_transactions stats = count_status in_progress db
     /\ successful_transactions stats = count_status succeeded db
     /\ failed_transactions stats = count_status given_up db
     /\ pending_transactions stats + successful_transactions stats
        + failed_transactions stats = total_transactions stats
     /\ total_revenue stats
        = Pg.parseFloat
            (fold_right Z.add 0
               (map t_price
                  (filter (fun t => succeeded (t_status t))
                     (transactions db)))))
  /\ (down Admin.CountUsers = true \/ down Admin.CountTransactions = true
      \/ down Admin.SumRevenue = true \/ down Admin.CountByStatus = true ->
      Admin.getAdminStats down db = (Throw StoreUnavailable, db)).
Proof.
  unfold Admin.getAdminStats, call_when. run_monad. split.
  - intros -> -> -> ->. cbv beta iota zeta.
    unfold Sql.group_by. rewrite tally_weights, !weight_group_by.
    cbn [fold_right]. rewrite !Z.add_0_l.
    eexists. split; [reflexivity|].
    cbn [total_users total_transactions pending_transactions
         successful_transactions failed_transactions total_revenue].
    unfold count_status.
    do 5 (split; [reflexivity|]).
    split; [apply statuses_partition|].
    rewrite sum_of_prices. do 3 f_equal.
  - destruct (down Admin.CountUsers); [reflexivity|].
    destruct (down Admin.CountTransactions); [reflexivity|].
    destruct (down Admin.SumRevenue); [reflexivity|].
    destruct (down Admin.CountByStatus); [reflexivity|].
    intros [H|[H|[H|H]]]; discriminate H.
Qed.

Lemma dashboard_buckets_add_up_witness :
  exists stats,
    Admin.getAdminStats all_answer Fixture.busy_shop
    = (Ok stats, Fixture.busy_shop)
    /\ pending_transactions stats + successful_transactions stats
       + failed_transactions stats = total_transactions stats.
Proof.
  destruct (proj1 (dashboard_buckets_add_up all_answer Fixture.busy_shop)
              eq_refl eq_refl eq_refl eq_refl)
    as (stats & Hrun & _ & _ & _ & _ & _ & Hsum & _).
  exists stats. split; [exact Hrun | exact Hsum].
Defined.
